(** * bioconda-utils: build scheduler and pinning-state classifier

    A shallow embedding of [bioconda_utils/build.py] and
    [bioconda_utils/update_pinnings.py], followed by the properties
    established about them.

    Conventions of the embedding.
    - Python [str] values are [string]s (byte strings; text is taken to be
      UTF-8, so byte order and code-point order agree).
    - A call that may raise returns a [result]; code that talks to the outside
      world (conda-build, docker, the upload services, the recipe renderer)
      runs in the monad [M], which threads the trace of collaborator calls
      made so far and stops at the first uncaught exception.
    - Calls to [logger] are not part of the embedding. *)

From Stdlib Require Import ZArith String Ascii List Lia Bool.
From stdpp Require Import base tactics option list relations sorting
  countable strings gmap fin_sets.

Open Scope string_scope.
Open Scope Z_scope.
Open Scope list_scope.

(* ===================================================================== *)
(** * Python built-ins used by the two modules *)
(* ===================================================================== *)

Module Py.

(** Exception classes that occur in the code or can reach it.  Every class
    except [NonException] derives from Python's [Exception];
    [NonException] stands for [KeyboardInterrupt], [SystemExit] and the
    other classes deriving from [BaseException] only. *)
Inductive exn : Type :=
  | DockerCalledProcessError
  | CalledProcessError
  | RecipeError
  | ValueError
  | KeyError
  | IndexError
  | NetworkXError
  | NetworkXUnfeasible
  | OtherException (cls : string)
  | NonException (cls : string).

(** [isinstance(e, Exception)] *)
Definition is_Exception (e : exn) : bool :=
  match e with
  | NonException _ => false
  | _ => true
  end.

Inductive result (A : Type) : Type :=
  | Ok (a : A)
  | Raise (e : exn).
Arguments Ok {A} a.
Arguments Raise {A} e.

Definition rbind {A B} (r : result A) (f : A -> result B) : result B :=
  match r with
  | Ok a => f a
  | Raise e => Raise e
  end.

Definition rmap {A B} (f : A -> B) (r : result A) : result B :=
  rbind r (fun a => Ok (f a)).

(** [[f(x) for x in l]] where [f] may raise. *)
Fixpoint rmapM {A B} (f : A -> result B) (l : list A) : result (list B) :=
  match l with
  | [] => Ok []
  | x :: l' => rbind (f x) (fun y => rmap (cons y) (rmapM f l'))
  end.

(** ** Strings *)

Definition is_digit (c : ascii) : bool :=
  let n := nat_of_ascii c in (48 <=? n)%nat && (n <=? 57)%nat.

Definition is_ascii_upper (c : ascii) : bool :=
  let n := nat_of_ascii c in (65 <=? n)%nat && (n <=? 90)%nat.

Definition is_ascii_lower (c : ascii) : bool :=
  let n := nat_of_ascii c in (97 <=? n)%nat && (n <=? 122)%nat.

Definition str_is_empty (s : string) : bool :=
  match s with
  | EmptyString => true
  | String _ _ => false
  end.

(** [bool(s)] *)
Definition str_truthy (s : string) : bool := negb (str_is_empty s).

(** [s.startswith(p)] *)
Definition startswith (p s : string) : bool := String.prefix p s.

(** [sub in s] *)
Fixpoint contains (sub s : string) : bool :=
  String.prefix sub s ||
  match s with
  | EmptyString => false
  | String _ s' => contains sub s'
  end.

(** The characters of a text.  A [str] is held as its UTF-8 bytes;
    [utf8_width c] is the number of bytes of the character whose first byte
    is [c]. *)
Definition utf8_width (c : ascii) : nat :=
  let n := nat_of_ascii c in
  if (n <? 192)%nat then 1%nat
  else if (n <? 224)%nat then 2%nat
  else if (n <? 240)%nat then 3%nat
  else 4%nat.

(** [cur] is the character being read, of which [need] bytes are still to
    come. *)
Fixpoint chars_go (cur : string) (need : nat) (s : string) : list string :=
  match s with
  | EmptyString => if str_is_empty cur then [] else [cur]
  | String c s' =>
      match need with
      | O =>
          match utf8_width c with
          | S (S k) => chars_go (String c "") (S k) s'
          | _ => String c "" :: chars_go "" 0 s'
          end
      | S O => String.append cur (String c "") :: chars_go "" 0 s'
      | S k => chars_go (String.append cur (String c "")) k s'
      end
  end.

Definition utf8_chars (s : string) : list string := chars_go "" 0 s.

Definition bytes (l : list nat) : string :=
  fold_right (fun n s => String (ascii_of_nat n) s) "" l.

(** The characters that [str.split()] takes as whitespace, encoded: U+0009
    to U+000D, U+001C to U+0020, U+0085, U+00A0, U+1680, U+2000 to U+200A,
    U+2028, U+2029, U+202F, U+205F and U+3000. *)
Definition whitespace : list string :=
  map bytes
    [ [9]; [10]; [11]; [12]; [13]; [28]; [29]; [30]; [31]; [32];
      [194; 133]; [194; 160]; [225; 154; 128];
      [226; 128; 128]; [226; 128; 129]; [226; 128; 130]; [226; 128; 131];
      [226; 128; 132]; [226; 128; 133]; [226; 128; 134]; [226; 128; 135];
      [226; 128; 136]; [226; 128; 137]; [226; 128; 138];
      [226; 128; 168]; [226; 128; 169]; [226; 128; 175];
      [226; 129; 159]; [227; 128; 128] ]%nat.

Definition is_whitespace (ch : string) : bool :=
  existsb (String.eqb ch) whitespace.

(** [s.split()]: split on runs of whitespace, no empty pieces.  [cur] is the
    piece being read. *)
Fixpoint split_go (cur : string) (chs : list string) : list string :=
  match chs with
  | [] => if str_is_empty cur then [] else [cur]
  | ch :: chs' =>
      if is_whitespace ch
      then (if str_is_empty cur then split_go "" chs' else cur :: split_go "" chs')
      else split_go (cur ++ ch) chs'
  end.

Definition split (s : string) : list string := split_go "" (utf8_chars s).

(** [s.replace(old, new)]: every non-overlapping occurrence, left to right.
    [skip] counts the characters of the occurrence just replaced that are
    still to be passed over. *)
Fixpoint replace_go (old new : string) (skip : nat) (s : string) : string :=
  match s with
  | EmptyString => EmptyString
  | String c s' =>
      match skip with
      | S k => replace_go old new k s'
      | O =>
          if String.prefix old s
          then new ++ replace_go old new (String.length old - 1) s'
          else String c (replace_go old new 0 s')
      end
  end.

(** With an empty [old], Python puts [new] before every character and at
    the end. *)
Fixpoint intersperse_new (new : string) (s : string) : string :=
  match s with
  | EmptyString => new
  | String c s' => new ++ String c (intersperse_new new s')
  end.

Definition replace (old new s : string) : string :=
  if str_is_empty old then intersperse_new new s else replace_go old new 0 s.

(** [s[1:]] *)
Definition drop_first (s : string) : string :=
  match s with
  | EmptyString => EmptyString
  | String _ s' => s'
  end.

(** [all(c in allowed for c in s)] *)
Fixpoint str_forallb (p : ascii -> bool) (s : string) : bool :=
  match s with
  | EmptyString => true
  | String c s' => p c && str_forallb p s'
  end.

(** ** Ordering and [sorted] *)

Definition str_le (a b : string) : Prop := String.leb a b = true.

#[global] Instance str_le_dec : RelDecision str_le.
Proof. intros a b. unfold str_le. apply bool_eq_dec. Defined.

(** Comparison of two lists of strings: the first differing position
    decides, a proper prefix is smaller. *)
Fixpoint list_leb (l1 l2 : list string) : bool :=
  match l1, l2 with
  | [], _ => true
  | _ :: _, [] => false
  | x :: l1', y :: l2' =>
      match String.compare x y with
      | Lt => true
      | Gt => false
      | Eq => list_leb l1' l2'
      end
  end.

Definition list_le (l1 l2 : list string) : Prop := list_leb l1 l2 = true.

#[global] Instance list_le_dec : RelDecision list_le.
Proof. intros a b. unfold list_le. apply bool_eq_dec. Defined.

(** [sorted(l)] for a list of strings, and for a list of lists of strings. *)
Definition sorted_str (l : list string) : list string := merge_sort str_le l.

Definition sorted_lists (l : list (list string)) : list (list string) :=
  merge_sort list_le l.

(** ** Sequences *)

(** [range(n)] *)
Definition range (n : Z) : list Z := seqZ 0 n.

(** [l[i]], with the negative indices of Python. *)
Definition index {A} (l : list A) (i : Z) : result A :=
  let n := Z.of_nat (length l) in
  let j := if i <? 0 then i + n else i in
  if (0 <=? j) && (j <? n)
  then match l !! Z.to_nat j with
       | Some x => Ok x
       | None => Raise IndexError
       end
  else Raise IndexError.

(** Every [step]-th element; [wait] elements are passed over before the
    first one is taken. *)
Fixpoint every {A} (step wait : nat) (l : list A) : list A :=
  match l with
  | [] => []
  | x :: l' =>
      match wait with
      | O => x :: every step (step - 1) l'
      | S w => every step w l'
      end
  end.

(** [l[i::n]] for [0 <= i < n], the only way the scheduler slices. *)
Definition slice_step {A} (l : list A) (i n : Z) : list A :=
  every (Z.to_nat n) (Z.to_nat i) l.

(** A [dict] whose iteration order matters: keys in insertion order. *)
Definition dict (K V : Type) : Type := list (K * V).

Fixpoint dict_lookup {V} (d : dict string V) (k : string) : option V :=
  match d with
  | [] => None
  | (k', v) :: d' => if String.eqb k' k then Some v else dict_lookup d' k
  end.

(** [d[k]] *)
Definition dict_get {V} (d : dict string V) (k : string) : result V :=
  match dict_lookup d k with
  | Some v => Ok v
  | None => Raise KeyError
  end.

End Py.

Export Py.

(* ===================================================================== *)
(** * The networkx operations the scheduler calls *)
(* ===================================================================== *)

(** networkx is a library the repository imports; the definitions below
    give each call the scheduler makes its documented meaning. *)
Module Nx.

(** [nx.DiGraph] over package names: the nodes in insertion order and the
    directed edges.  An edge [(a, b)] says that [b] depends on [a]. *)
Record DiGraph : Type := mkDiGraph {
  nodes : list string;
  edges : list (string * string)
}.

(** What every [nx.DiGraph] satisfies: nodes are dictionary keys, so there
    are no duplicates, and adding an edge adds its endpoints. *)
Definition well_formed (g : DiGraph) : Prop :=
  NoDup (nodes g) /\
  forall a b, (a, b) ∈ edges g -> a ∈ nodes g /\ b ∈ nodes g.

Definition well_formedb (g : DiGraph) : bool :=
  bool_decide (NoDup (nodes g)) &&
  forallb (fun e => bool_decide (e.1 ∈ nodes g) && bool_decide (e.2 ∈ nodes g))
          (edges g).

Definition has_edge (g : DiGraph) (a b : string) : Prop := (a, b) ∈ edges g.

(** The graph has no directed cycle. *)
Definition acyclic (g : DiGraph) : Prop :=
  forall n, ~ tc (has_edge g) n n.

(** [len(g)], and [bool(g)] *)
Definition order (g : DiGraph) : nat := length (nodes g).
Definition truthy (g : DiGraph) : bool :=
  match nodes g with
  | [] => false
  | _ :: _ => true
  end.

(** [g.to_undirected()]: the same nodes, every edge in both directions. *)
Definition to_undirected (g : DiGraph) : DiGraph :=
  {| nodes := nodes g;
     edges := edges g ++ map (fun e => (e.2, e.1)) (edges g) |}.

(** [g.subgraph(ns)]: the subgraph induced by the nodes of [g] in [ns]. *)
Definition subgraph (g : DiGraph) (ns : list string) : DiGraph :=
  {| nodes := filter (fun n => n ∈ ns) (nodes g);
     edges := filter (fun e => e.1 ∈ ns /\ e.2 ∈ ns) (edges g) |}.

(** One round of a breadth-first search: add the successors of [s]. *)
Definition expand (g : DiGraph) (s : gset string) : gset string :=
  s ∪ list_to_set (map snd (filter (fun e => e.1 ∈ s) (edges g))).

Fixpoint expand_n (g : DiGraph) (k : nat) (s : gset string) : gset string :=
  match k with
  | O => s
  | S k' => expand_n g k' (expand g s)
  end.

(** The nodes reached from [src], [src] included: one round for each node
    of the graph is enough to reach them all. *)
Definition reachable (g : DiGraph) (src : string) : gset string :=
  expand_n g (length (nodes g)) {[ src ]}.

(** [nx.algorithms.descendants(g, src)]: the nodes reachable from [src],
    without [src] itself; an error when [src] is not a node. *)
Definition descendants (g : DiGraph) (src : string) : result (list string) :=
  if bool_decide (src ∈ nodes g)
  then Ok (filter (fun n => n ∈ reachable g src /\ n <> src) (nodes g))
  else Raise NetworkXError.

(** [nx.connected_components(ug)] of an undirected graph: from each node
    not seen yet, in node order, the set of nodes reachable from it. *)
Fixpoint components_from (ug : DiGraph) (vs : list string)
    (seen : gset string) : list (gset string) :=
  match vs with
  | [] => []
  | v :: vs' =>
      if bool_decide (v ∈ seen) then components_from ug vs' seen
      else let c := reachable ug v in
           c :: components_from ug vs' (seen ∪ c)
  end.

Definition connected_components (ug : DiGraph) : list (gset string) :=
  components_from ug (nodes ug) ∅.

(** Does [n] have an incoming edge from one of the nodes [rem]? *)
Definition has_pred_in (g : DiGraph) (rem : list string) (n : string) : bool :=
  existsb (fun m => bool_decide ((m, n) ∈ edges g)) rem.

(** [nx.topological_sort(g)]: repeatedly emit the first remaining node (in
    node order) none of whose predecessors remains;
    [NetworkXUnfeasible] when nodes remain and each has a remaining
    predecessor, that is, when the graph has a cycle.  [fuel] bounds the
    number of nodes still to emit. *)
Fixpoint topo_loop (g : DiGraph) (fuel : nat) (rem : list string)
    : result (list string) :=
  match rem with
  | [] => Ok []
  | _ :: _ =>
      match fuel with
      | O => Raise NetworkXUnfeasible
      | S fuel' =>
          match List.find (fun n => negb (has_pred_in g rem n)) rem with
          | None => Raise NetworkXUnfeasible
          | Some n =>
              rmap (cons n)
                (topo_loop g fuel' (filter (fun m => m <> n) rem))
          end
      end
  end.

Definition topological_sort (g : DiGraph) : result (list string) :=
  topo_loop g (length (nodes g)) (nodes g).

End Nx.

Export Nx.

(* ===================================================================== *)
(** * The collaborators: conda-build, docker, uploads, the package index *)
(* ===================================================================== *)

Module World.

(** An environment: [dict] from variable names to values. *)
Definition env : Type := dict string string.

(** [d[k] = v] *)
Fixpoint dict_set {V} (d : dict string V) (k : string) (v : V) : dict string V :=
  match d with
  | [] => [(k, v)]
  | (k', v') :: d' =>
      if String.eqb k' k then (k', v) :: d' else (k', v') :: dict_set d' k v
  end.

(** [d.update(d2)] *)
Definition dict_update {V} (d d2 : dict string V) : dict string V :=
  fold_left (fun acc kv => dict_set acc kv.1 kv.2) d2 d.

(** One environment variant of a recipe, as [utils.filter_recipes] yields
    it: the environment to build in and the path of the package the build
    is expected to produce. *)
Record Target : Type := mkTarget {
  target_env : env;
  target_pkg : string
}.

(** The part of a rendered variant ([conda_build.metadata.MetaData]) that
    [update_pinnings] reads. *)
Record MetaData : Type := mkMetaData {
  meta_name : string;                     (* meta.name() *)
  meta_version : string;                  (* meta.version() *)
  meta_build_number : Z;                  (* meta.build_number() *)
  meta_build_id : string;                 (* meta.build_id() *)
  meta_skip : bool;                       (* meta.skip() *)
  meta_noarch : option string;            (* meta.get_value('build/noarch') *)
  meta_requirements_build : list string;  (* get_value('requirements/build', []) *)
  meta_requirements_host : list string;   (* get_value('requirements/host', []) *)
  meta_used_vars : list string            (* meta.get_used_vars() *)
}.

(** One package of the channel index held by [utils.RepoData]. *)
Record PkgRecord : Type := mkPkgRecord {
  pkg_name : string;
  pkg_version : string;
  pkg_build : string;
  pkg_build_number : Z;
  pkg_platform : string
}.

(** A call to a collaborator, with what it answered. *)
Inductive event : Type :=
  | EvDockerBuildRecipe (recipe_dir build_args : string) (e : env)
      (r : result unit)
  | EvBuiltPackagePath (recipe : string) (e : env) (r : result string)
  | EvPathExists (path : string) (r : result bool)
  | EvRun (cmd : list string) (e : option env) (r : result unit)
  | EvTestPackage (path : string) (r : result (Z * string))
  | EvGetImageName (path : string) (r : result string)
  | EvAnacondaUpload (pkg : string) (label : option string) (r : result bool)
  | EvMulledUpload (image : option string) (target : string) (r : result bool)
  | EvCondaRender (recipe : string) (r : result (option (list MetaData)))
  | EvCondaRelease (recipe : string) (r : result unit).

Definition trace : Type := list event.

(** Everything outside the two modules.  A collaborator answers a call
    with a value or an exception, and its answer may depend on all calls
    made before. *)
Record World : Type := mkWorld {
  os_environ : env;
  (* os.path.abspath *)
  abspath : string -> string;
  (* docker_builder.build_recipe(recipe_dir, build_args, env) *)
  docker_build_recipe : trace -> string -> string -> env -> result unit;
  (* utils.built_package_path(recipe, env) *)
  built_package_path : trace -> string -> env -> result string;
  (* os.path.exists(path) *)
  path_exists : trace -> string -> result bool;
  (* utils.run(cmd, env=...) *)
  run : trace -> list string -> option env -> result unit;
  (* pkg_test.test_package(path): returncode and stdout *)
  test_package : trace -> string -> result (Z * string);
  (* pkg_test.get_image_name(path) *)
  get_image_name : trace -> string -> result string;
  (* upload.anaconda_upload(pkg, label) *)
  anaconda_upload : trace -> string -> option string -> result bool;
  (* upload.mulled_upload(image, target): success or failure *)
  mulled_upload : trace -> option string -> string -> result bool;
  (* recipe.conda_render(config=build_config) *)
  conda_render : trace -> string -> result (option (list MetaData));
  (* recipe.conda_release() *)
  conda_release : trace -> string -> result unit;
  (* conda_build.metadata.trim_build_only_deps(meta, dependencies): the
     content of the set [dependencies] after the call *)
  trim_build_only_deps : MetaData -> gset string -> gset string;
  (* the channel index behind utils.RepoData() *)
  repodata : list PkgRecord
}.

(** Modelled from the spec: [utils.RepoData.get_package_data], the package
    index query service, is not among the sources.  It returns the
    packages of the index that agree with every filter given: name,
    version, build string, build number, and a platform among those
    listed. *)
Definition filter_accepts {A} `{EqDecision A} (f : option A) (x : A) : bool :=
  match f with
  | None => true
  | Some y => bool_decide (x = y)
  end.

Definition pkg_matches (name version : string) (build : option string)
    (build_number : option Z) (platform : list string) (p : PkgRecord) : bool :=
  bool_decide (pkg_name p = name) && bool_decide (pkg_version p = version) &&
  filter_accepts build (pkg_build p) &&
  filter_accepts build_number (pkg_build_number p) &&
  bool_decide (pkg_platform p ∈ platform).

Definition get_package_data (W : World) (name version : string)
    (build : option string) (build_number : option Z)
    (platform : list string) : list PkgRecord :=
  List.filter (pkg_matches name version build build_number platform)
    (repodata W).

End World.

Export World.

(* ===================================================================== *)
(** * Effects: the trace of collaborator calls, and exceptions *)
(* ===================================================================== *)

Module Eff.

(** A computation reads the trace so far, extends it with the calls it
    makes, and ends with a value or with an uncaught exception. *)
Definition M (A : Type) : Type := trace -> trace * result A.

Definition ret {A} (a : A) : M A := fun tr => (tr, Ok a).

Definition throw {A} (e : exn) : M A := fun tr => (tr, Raise e).

Definition lift {A} (r : result A) : M A := fun tr => (tr, r).

Definition bind {A B} (m : M A) (f : A -> M B) : M B :=
  fun tr =>
    match m tr with
    | (tr', Ok a) => f a tr'
    | (tr', Raise e) => (tr', Raise e)
    end.

(** The first [except] clause whose classes include [e], if any. *)
Fixpoint find_handler {A} (clauses : list ((exn -> bool) * M A)) (e : exn)
    : option (M A) :=
  match clauses with
  | [] => None
  | (caught, handler) :: clauses' =>
      if caught e then Some handler else find_handler clauses' e
  end.

(** [try: m  except C1: h1  except C2: h2 ...] *)
Definition try_except {A} (m : M A) (clauses : list ((exn -> bool) * M A))
    : M A :=
  fun tr =>
    match m tr with
    | (tr', Ok a) => (tr', Ok a)
    | (tr', Raise e) =>
        match find_handler clauses e with
        | Some handler => handler tr'
        | None => (tr', Raise e)
        end
    end.

(** A call to a collaborator: ask it, given the calls made so far, and
    record the call with its answer. *)
Definition call {A} (ask : trace -> result A) (ev : result A -> event) : M A :=
  fun tr => let r := ask tr in (tr ++ [ev r], r).

End Eff.

Export Eff.

Notation "x <- m ;; k" := (bind m (fun x => k))
  (at level 100, m at next level, right associativity).

(* ===================================================================== *)
(** * bioconda_utils/build.py *)
(* ===================================================================== *)

Module Build.

(** [BuildResult = namedtuple("BuildResult", ["success", "mulled_image"])] *)
Record BuildResult : Type := mkBuildResult {
  success : bool;
  mulled_image : option string
}.

(** The keyword arguments of [build_recipes] that the scheduling loop
    reads, with [config['channels']]. *)
Record Options : Type := mkOptions {
  opt_mulled_test : bool;
  opt_testonly : bool;
  opt_docker_builder : bool;              (* docker_builder is not None *)
  opt_label : option string;
  opt_anaconda_upload : bool;
  opt_mulled_upload_target : option string;
  opt_channels : list string
}.

(** The accumulators of the scheduling loop. *)
Record Sched : Type := mkSched {
  failed : list (string * Target);
  built_recipes : list string;
  skipped_recipes : list string;
  all_success : bool;
  failed_uploads : list string;
  skip_dependent : gmap string (list string)
}.

Definition initial : Sched :=
  {| failed := []; built_recipes := []; skipped_recipes := [];
     all_success := true; failed_uploads := []; skip_dependent := ∅ |}.

(** [failed.append((recipe, target))] *)
Definition add_failed (st : Sched) (recipe : string) (t : Target) : Sched :=
  {| failed := failed st ++ [(recipe, t)];
     built_recipes := built_recipes st;
     skipped_recipes := skipped_recipes st;
     all_success := all_success st;
     failed_uploads := failed_uploads st;
     skip_dependent := skip_dependent st |}.

(** [built_recipes.append(recipe)] *)
Definition add_built (st : Sched) (recipe : string) : Sched :=
  {| failed := failed st;
     built_recipes := built_recipes st ++ [recipe];
     skipped_recipes := skipped_recipes st;
     all_success := all_success st;
     failed_uploads := failed_uploads st;
     skip_dependent := skip_dependent st |}.

(** [skipped_recipes.append(recipe)] *)
Definition add_skipped (st : Sched) (recipe : string) : Sched :=
  {| failed := failed st;
     built_recipes := built_recipes st;
     skipped_recipes := skipped_recipes st ++ [recipe];
     all_success := all_success st;
     failed_uploads := failed_uploads st;
     skip_dependent := skip_dependent st |}.

(** [all_success &= b] *)
Definition and_all_success (st : Sched) (b : bool) : Sched :=
  {| failed := failed st;
     built_recipes := built_recipes st;
     skipped_recipes := skipped_recipes st;
     all_success := all_success st && b;
     failed_uploads := failed_uploads st;
     skip_dependent := skip_dependent st |}.

(** [failed_uploads.append(pkg)] *)
Definition add_failed_upload (st : Sched) (pkg : string) : Sched :=
  {| failed := failed st;
     built_recipes := built_recipes st;
     skipped_recipes := skipped_recipes st;
     all_success := all_success st;
     failed_uploads := failed_uploads st ++ [pkg];
     skip_dependent := skip_dependent st |}.

(** [skip_dependent[n].append(recipe)] on a [defaultdict(list)] *)
Definition ledger_append (m : gmap string (list string)) (n recipe : string)
    : gmap string (list string) :=
  <[ n := default [] (m !! n) ++ [recipe] ]> m.

(** [for n in ds: skip_dependent[n].append(recipe)] *)
Definition add_skip_dependent (st : Sched) (ds : list string) (recipe : string)
    : Sched :=
  {| failed := failed st;
     built_recipes := built_recipes st;
     skipped_recipes := skipped_recipes st;
     all_success := all_success st;
     failed_uploads := failed_uploads st;
     skip_dependent :=
       fold_left (fun m n => ledger_append m n recipe) ds (skip_dependent st) |}.

(** [bool(x)] for an optional string: [None] and [''] are false. *)
Definition opt_truthy (o : option string) : bool :=
  match o with
  | None => false
  | Some s => str_truthy s
  end.

Section WithWorld.

Context (W : World).

(** The command of [purge]. *)
Definition purge_cmd : list string := ["conda"; "build"; "purge"].

(** [purge()] *)
Definition purge : M unit :=
  call (fun tr => run W tr purge_cmd None) (EvRun purge_cmd None).

(** The docker environment of [build]: a copy of [env], with the [TRAVIS*]
    variables of [os.environ] unless that is disabled. *)
Definition docker_env_of (e : env) (disable_travis_env_vars : bool) : env :=
  if disable_travis_env_vars then e
  else fold_left
         (fun acc kv =>
            if startswith "TRAVIS" kv.1 then dict_set acc kv.1 kv.2 else acc)
         (os_environ W) e.

Definition build_args_of (testonly : bool) : list string :=
  ["--no-build-id"] ++ (if testonly then ["--test"] else ["--no-anaconda-upload"]).

Definition channel_args_of (channels : list string) : list string :=
  flat_map (fun c => ["--channel"; c]) channels.

(** [except (docker_utils.DockerCalledProcessError, sp.CalledProcessError)] *)
Definition is_build_failure (e : exn) : bool :=
  match e with
  | DockerCalledProcessError | CalledProcessError => true
  | _ => false
  end.

(** The [try] block of [build].  [Some r] is an early [return r]; [None]
    falls through to the statements after the [try].  The last call is the
    [built_package_path] evaluated for the BUILD SUCCESS log line. *)
Definition build_try (recipe : string) (e : env) (testonly : bool)
    (channels : list string) (docker_builder : bool)
    (disable_travis_env_vars : bool) : M (option BuildResult) :=
  let build_args := build_args_of testonly in
  let channel_args := channel_args_of channels in
  if docker_builder then
    let docker_env := docker_env_of e disable_travis_env_vars in
    let recipe_dir := abspath W recipe in
    let args := String.concat " " (channel_args ++ build_args) in
    _ <- call (fun tr => docker_build_recipe W tr recipe_dir args docker_env)
              (EvDockerBuildRecipe recipe_dir args docker_env) ;;
    pkg <- call (fun tr => built_package_path W tr recipe e)
                (EvBuiltPackagePath recipe e) ;;
    found <- call (fun tr => path_exists W tr pkg) (EvPathExists pkg) ;;
    if negb found then ret (Some (mkBuildResult false None))
    else
      _ <- call (fun tr => built_package_path W tr recipe e)
                (EvBuiltPackagePath recipe e) ;;
      ret None
  else
    let cmd := ["conda"; "build"] ++ build_args ++ channel_args ++ [recipe] in
    (* os.environ as utils.temp_env(env) sets it up *)
    let run_env := Some (dict_update (os_environ W) e) in
    _ <- call (fun tr => run W tr cmd run_env) (EvRun cmd run_env) ;;
    _ <- call (fun tr => built_package_path W tr recipe e)
              (EvBuiltPackagePath recipe e) ;;
    ret None.

(** [build(recipe, recipe_folder, env, testonly, mulled_test, force,
    channels, docker_builder, disable_travis_env_vars)]; [recipe_folder]
    and [force] are not read. *)
Definition build (recipe : string) (e : env) (testonly mulled_test : bool)
    (channels : list string) (docker_builder : bool)
    (disable_travis_env_vars : bool) : M BuildResult :=
  early <- try_except
             (build_try recipe e testonly channels docker_builder
                disable_travis_env_vars)
             [(is_build_failure, ret (Some (mkBuildResult false None)))] ;;
  match early with
  | Some r => ret r
  | None =>
      if negb mulled_test then ret (mkBuildResult true None)
      else
        pkg_path <- call (fun tr => built_package_path W tr recipe e)
                         (EvBuiltPackagePath recipe e) ;;
        res <- call (fun tr => test_package W tr pkg_path)
                    (EvTestPackage pkg_path) ;;
        if (res.1 =? 0) && negb (contains "Unexpected exit code" res.2)
        then
          image <- (if mulled_test
                    then img <- call (fun tr => get_image_name W tr pkg_path)
                                     (EvGetImageName pkg_path) ;;
                         ret (Some img)
                    else ret None) ;;
          ret (mkBuildResult true image)
        else ret (mkBuildResult false None)
  end.

(** ** [build_recipes], from the dependency graph on

    The first part of [build_recipes] loads the configuration, collects and
    filters the recipes and calls [utils.get_dag]; the embedding starts
    from its results: [recipe_targets], [dag] and [name2recipes]. *)

(** [recipe2name]: [for k, v in name2recipes.items(): for i in v:
    recipe2name[i] = k] *)
Definition recipe2name_of (name2recipes : dict string (list string))
    : gmap string string :=
  fold_left
    (fun m kv => fold_left (fun m' i => <[ i := kv.1 ]> m') kv.2 m)
    name2recipes ∅.

(** [d[k]] for a [gmap] *)
Definition map_get {V} (d : gmap string V) (k : string) : result V :=
  match d !! k with
  | Some v => Ok v
  | None => Raise KeyError
  end.

(** The connected subdags, sorted by nodes. *)
Definition subdags_of (testonly : bool) (dag : DiGraph) : list (list string) :=
  if testonly
  then sorted_lists (map (fun n => [n]) (nodes dag))
  else sorted_lists
         (map (fun c => sorted_str (elements c))
              (connected_components (to_undirected dag))).

(** The chunks: at most [subdags_n] many. *)
Definition chunks_of (subdags_n : Z) (subdags : list (list string))
    : list (list string) :=
  if subdags_n <? Z.of_nat (length subdags)
  then map (fun i => concat (slice_step subdags i subdags_n)) (range subdags_n)
  else subdags.

(** Lines 303 to 326: the subgraph of the selected chunk; [None] when
    there is nothing to be done. *)
Definition select_subdag (testonly : bool) (dag : DiGraph)
    (subdags_n subdag_i : Z) : result (option DiGraph) :=
  if subdags_n <=? subdag_i then Raise ValueError
  else
    let chunks := chunks_of subdags_n (subdags_of testonly dag) in
    if Z.of_nat (length chunks) <=? subdag_i then Ok None
    else rmap (fun c => Some (subgraph dag c)) (index chunks subdag_i).

(** The recipes in build order: [[recipe for package in
    nx.topological_sort(subdag) for recipe in name2recipes[package]]].
    The order is computed to its end before the first name is looked up;
    the comprehension draws the names from the sort one at a time, which
    gives the same list and differs only in which of the two errors is
    raised when the shard has a cycle and a name is not listed. *)
Definition recipes_in_order (subdag : DiGraph)
    (name2recipes : dict string (list string)) : result (list string) :=
  rbind (topological_sort subdag) (fun packages =>
  rmap (@concat string) (rmapM (dict_get name2recipes) packages)).

Section Loop.

Context (opts : Options).
Context (subdag : DiGraph).
Context (recipe2name : gmap string string).
Context (recipe_targets : gmap string (list Target)).

(** A failed build: record it and block every descendant. *)
Definition record_failure (st : Sched) (recipe name : string) (t : Target)
    : result Sched :=
  let st1 := add_failed st recipe t in
  rmap (fun ds => add_skip_dependent st1 ds recipe) (descendants subdag name).

(** The uploads after a successful build. *)
Definition upload_build (st : Sched) (t : Target) (res : BuildResult)
    : M Sched :=
  st1 <- (if opt_anaconda_upload opts
          then ok <- call (fun tr => anaconda_upload W tr (target_pkg t)
                                       (opt_label opts))
                          (EvAnacondaUpload (target_pkg t) (opt_label opts)) ;;
               ret (if negb ok then add_failed_upload st (target_pkg t) else st)
          else ret st) ;;
  match opt_mulled_upload_target opts with
  | Some tgt =>
      if str_truthy tgt
      then _ <- call (fun tr => mulled_upload W tr (mulled_image res) tgt)
                     (EvMulledUpload (mulled_image res) tgt) ;;
           ret st1
      else ret st1
  | None => ret st1
  end.

(** The body of [for target in recipe_targets[recipe]]; [ok] is
    [recipe_success]. *)
Definition attempt_target (recipe name : string) (acc : Sched * bool)
    (t : Target) : M (Sched * bool) :=
  res <- build recipe (target_env t) (opt_testonly opts)
           (opt_mulled_test opts) (opt_channels opts)
           (opt_docker_builder opts) false ;;
  let st1 := and_all_success acc.1 (success res) in
  let ok := acc.2 && success res in
  st2 <- (if negb (success res)
          then lift (record_failure st1 recipe name t)
          else if negb (opt_testonly opts)
          then upload_build st1 t res
          else ret st1) ;;
  (* remove traces of the build *)
  _ <- purge ;;
  ret (st2, ok).

Fixpoint attempt_targets (recipe name : string) (acc : Sched * bool)
    (ts : list Target) : M (Sched * bool) :=
  match ts with
  | [] => ret acc
  | t :: ts' =>
      acc' <- attempt_target recipe name acc t ;;
      attempt_targets recipe name acc' ts'
  end.

(** The body of [for recipe in recipes]. *)
Definition process_recipe (st : Sched) (recipe : string) : M Sched :=
  name <- lift (map_get recipe2name recipe) ;;
  match skip_dependent st !! name with
  | Some _ => ret (add_skipped st recipe)
  | None =>
      ts <- lift (map_get recipe_targets recipe) ;;
      acc <- attempt_targets recipe name (st, true) ts ;;
      ret (if acc.2 then add_built acc.1 recipe else acc.1)
  end.

Fixpoint process_recipes (st : Sched) (recipes : list string) : M Sched :=
  match recipes with
  | [] => ret st
  | r :: recipes' =>
      st' <- process_recipe st r ;;
      process_recipes st' recipes'
  end.

(** Lines 392 to 427: the value [build_recipes] returns. *)
Definition summary (st : Sched) : bool :=
  match failed st, failed_uploads st with
  | [], [] => all_success st
  | _, _ => false
  end.

End Loop.

(** [build_recipes], from line 288 on.  [subdags_n] and [subdag_i] are the
    environment variables SUBDAGS and SUBDAG.  The result is the returned
    boolean, with the accumulators when the loop ran. *)
Definition build_recipes (opts : Options)
    (recipe_targets : gmap string (list Target))
    (dag : DiGraph) (name2recipes : dict string (list string))
    (subdags_n subdag_i : Z) : M (bool * option Sched) :=
  let recipe2name := recipe2name_of name2recipes in
  if negb (Nx.truthy dag) then ret (true, None)
  else
    sel <- lift (select_subdag (opt_testonly opts) dag subdags_n subdag_i) ;;
    match sel with
    | None => ret (true, None)
    | Some subdag =>
        recipes <- lift (recipes_in_order subdag name2recipes) ;;
        st <- process_recipes opts subdag recipe2name recipe_targets
                initial recipes ;;
        ret (summary st, Some st)
    end.

End WithWorld.

End Build.

(* ===================================================================== *)
(** * bioconda_utils/update_pinnings.py *)
(* ===================================================================== *)

Module UpdatePinnings.

(** [class State(enum.Flag)]: one bit per member, in declaration order. *)
Definition State : Type := Z.
Definition FAIL : State := 1.
Definition SKIP : State := 2.
Definition HAVE : State := 4.
Definition BUMPED : State := 8.
Definition BUMP : State := 16.
Definition HAVE_NOARCH_PYTHON : State := 32.

(** [State.needs_bump] and [State.failed], as truth values. *)
Definition needs_bump (st : State) : bool := negb (Z.land st BUMP =? 0).
Definition state_failed (st : State) : bool := negb (Z.land st FAIL =? 0).

(** [allowed_build_string_characters] *)
Definition allowed_build_string_character (c : ascii) : bool :=
  is_digit c || is_ascii_upper c || is_ascii_lower c ||
  Ascii.eqb c "_" || Ascii.eqb c ".".

Definition has_invalid_build_string (meta : MetaData) : bool :=
  let build_string := meta_build_id meta in
  negb (str_truthy build_string &&
        str_forallb allowed_build_string_character build_string).

(** ** The pattern [_legacy_build_string_prefixes] *)

(** The named groups in the order of the pattern: group name, literal tag,
    least number of digits (at most nine are taken). *)
Definition legacy_tags : list (string * string * nat) :=
  [ ("numpy", "np", 2%nat); ("python", "py", 2%nat); ("perl", "pl", 2%nat);
    ("lua", "lua", 2%nat); ("r_base", "r", 2%nat); ("mro_base", "mro", 3%nat) ].

Fixpoint str_drop (n : nat) (s : string) : string :=
  match n, s with
  | S n', String _ s' => str_drop n' s'
  | _, _ => s
  end.

(** The longest run of at most [max] digits at the start of [s], and the
    rest of [s]. *)
Fixpoint take_digits (max : nat) (s : string) : string * string :=
  match max, s with
  | S m, String c s' =>
      if is_digit c
      then let dr := take_digits m s' in (String c dr.1, dr.2)
      else (EmptyString, s)
  | _, _ => (EmptyString, s)
  end.

(** [tag [0-9]{lo,9}] at the start of [s]: the text matched and the rest. *)
Definition match_tag (tag : string) (lo : nat) (s : string)
    : option (string * string) :=
  if String.prefix tag s
  then let dr := take_digits 9 (str_drop (String.length tag) s) in
       if (lo <=? String.length dr.1)%nat then Some (String.append tag dr.1, dr.2)
       else None
  else None.

(** One round of the alternation: the first alternative that matches. *)
Fixpoint match_alternatives (tags : list (string * string * nat)) (s : string)
    : option (string * string * string) :=
  match tags with
  | [] => None
  | (group, tag, lo) :: tags' =>
      match match_tag tag lo s with
      | Some (matched, rest) => Some (group, matched, rest)
      | None => match_alternatives tags' s
      end
  end.

(** The starred group: rounds are taken as long as one matches, and a named
    group keeps the text of the last round it took part in.  Every round
    consumes at least one character, so [fuel] may be the length of the
    string. *)
Fixpoint match_rounds (fuel : nat) (s : string)
    (groups : dict string (option string)) : dict string (option string) :=
  match fuel with
  | O => groups
  | S fuel' =>
      match match_alternatives legacy_tags s with
      | None => groups
      | Some (group, matched, rest) =>
          match_rounds fuel' rest (dict_set groups group (Some matched))
      end
  end.

(** [_legacy_build_string_prefixes.match(build_id).groupdict()]; the
    pattern matches every string, at worst with no round. *)
Definition legacy_groupdict (build_id : string) : dict string (option string) :=
  match_rounds (String.length build_id) build_id
    (map (fun t => (t.1.1, None)) legacy_tags).

(** The body of [for build_id in res] up to the comparison: the candidate
    with the prefixes of dependencies not in [build_deps] removed. *)
Definition trimmed_build_id (build_deps : list string) (build_id : string)
    : string :=
  let trimmed :=
    fold_left
      (fun acc gm =>
         match gm.2 with
         | Some matched_str =>
             if str_truthy matched_str && negb (bool_decide (gm.1 ∈ build_deps))
             then replace matched_str "" acc
             else acc
         | None => acc
         end)
      (legacy_groupdict build_id) build_id in
  if startswith "_" trimmed then drop_first trimmed else trimmed.

(** [dep.split()[0].replace('-', '_')] *)
Definition dep_name (dep : string) : result string :=
  match split dep with
  | [] => Raise IndexError
  | x :: _ => Ok (replace "-" "_" x)
  end.

Definition build_deps_of (meta : MetaData) : result (list string) :=
  rmapM dep_name (meta_requirements_build meta ++ meta_requirements_host meta).

Definition linux_noarch : list string := ["linux"; "noarch"].

Section WithWorld.

Context (W : World).

Definition _get_build_variants (meta : MetaData) : gset string :=
  trim_build_only_deps W meta (list_to_set (meta_used_vars meta)).

Definition skip_for_variants (meta : MetaData) (variant_keys : gset string)
    : bool :=
  negb (bool_decide (_get_build_variants meta ## variant_keys)).

Definition will_build_variant (meta : MetaData) : bool :=
  let build_numbers :=
    map pkg_build_number
      (get_package_data W (meta_name meta) (meta_version meta) None None
         linux_noarch) in
  let current_num := meta_build_number meta in
  forallb (fun num => num <? current_num) build_numbers.

Definition have_variant (meta : MetaData) : result bool :=
  let res := get_package_data W (meta_name meta) (meta_version meta)
               (Some (meta_build_id meta)) None linux_noarch in
  match res with
  | _ :: _ => Ok true
  | [] =>
      rbind (build_deps_of meta) (fun build_deps =>
      let res := map pkg_build
                   (get_package_data W (meta_name meta) (meta_version meta)
                      None (Some (meta_build_number meta)) linux_noarch) in
      Ok (existsb
            (fun build_id =>
               String.eqb (trimmed_build_id build_deps build_id)
                          (meta_build_id meta))
            res))
  end.

Definition have_noarch_python_build_number (meta : MetaData) : bool :=
  if negb (bool_decide (meta_noarch meta = Some "python")) then false
  else
    match get_package_data W (meta_name meta) (meta_version meta) None
            (Some (meta_build_number meta)) ["noarch"] with
    | [] => false
    | _ :: _ => true
    end.

(** The flag one pass of [for meta, _, _ in metas] adds. *)
Definition variant_flag (skip_variant_keys : gset string) (meta : MetaData)
    : result State :=
  if meta_skip meta || skip_for_variants meta skip_variant_keys then Ok SKIP
  else if have_noarch_python_build_number meta then Ok HAVE_NOARCH_PYTHON
  else rbind (have_variant meta) (fun have =>
       if have then Ok HAVE
       else if will_build_variant meta then Ok BUMPED
       else Ok BUMP).

Fixpoint variant_flags (skip_variant_keys : gset string) (flags : State)
    (metas : list MetaData) : result State :=
  match metas with
  | [] => Ok flags
  | meta :: metas' =>
      rbind (variant_flag skip_variant_keys meta) (fun flag =>
      variant_flags skip_variant_keys (Z.lor flags flag) metas')
  end.

Definition is_RecipeError (e : exn) : bool :=
  match e with
  | RecipeError => true
  | _ => false
  end.

(** [check(recipe, build_config, keep_metas, skip_variant_keys)]; the
    renderer holds the build configuration. *)
Definition check (recipe : string) (keep_metas : bool)
    (skip_variant_keys : gset string) : M (State * string) :=
  rendered <- try_except
                (metas <- call (fun tr => conda_render W tr recipe)
                               (EvCondaRender recipe) ;;
                 ret (Some metas))
                [ (is_RecipeError, ret None); (is_Exception, ret None) ] ;;
  match rendered with
  | None => ret (FAIL, recipe)
  | Some None => ret (FAIL, recipe)
  | Some (Some metas) =>
      if existsb has_invalid_build_string metas then ret (FAIL, recipe)
      else
        flags <- lift (variant_flags skip_variant_keys 0 metas) ;;
        _ <- (if negb keep_metas
              then call (fun tr => conda_release W tr recipe)
                        (EvCondaRelease recipe)
              else ret tt) ;;
        ret (flags, recipe)
  end.

End WithWorld.

End UpdatePinnings.

(* ===================================================================== *)
(** * Vocabulary of the properties *)
(* ===================================================================== *)

Import Build UpdatePinnings.

(** A set of nodes that no edge leaves. *)
Definition closed (g : DiGraph) (s : gset string) : Prop :=
  forall a b, (a, b) ∈ edges g -> a ∈ s -> b ∈ s.

(** [l] lists nodes so that no node has an edge from itself or from a node
    listed after it. *)
Fixpoint topo_ordered (g : DiGraph) (l : list string) : Prop :=
  match l with
  | [] => True
  | x :: l' =>
      (forall y, y ∈ x :: l' -> (y, x) ∉ edges g) /\ topo_ordered g l'
  end.

(** [a] occurs in [l] before [b]. *)
Definition before {A} (l : list A) (a b : A) : Prop :=
  exists l1 l2 l3, l = l1 ++ a :: l2 ++ b :: l3.

(** A check of acyclicity that computes: the topological sort succeeds. *)
Definition acyclicb (g : DiGraph) : bool :=
  match topological_sort g with
  | Ok _ => true
  | Raise _ => false
  end.

(** The node set of shard [i] of [n]: the nodes of the subgraph
    [build_recipes] selects, none when there is nothing to be done. *)
Definition shard_nodes (testonly : bool) (dag : DiGraph) (n i : Z)
    : list string :=
  match select_subdag testonly dag n i with
  | Ok (Some sg) => nodes sg
  | _ => []
  end.

(** The graph of the example in the specification: components [A],
    [B -> C] and [D]. *)
Definition example_dag : DiGraph :=
  {| nodes := ["A"; "B"; "C"; "D"]; edges := [("B", "C")] |}.

(** A world for examples.  conda-build exits with an error exactly when
    the environment of the target sets the variable FAIL; the package test
    passes; the two upload services and the renderer answer as given; the
    channel index is as given. *)
Definition example_world (anaconda mulled : result bool)
    (render : result (option (list MetaData))) (index : list PkgRecord)
    : World :=
  {| os_environ := [("PATH", "/usr/bin"); ("TRAVIS_BRANCH", "master")];
     abspath := fun path => String.append "/work/" path;
     docker_build_recipe := fun _ _ _ _ => Ok tt;
     built_package_path :=
       fun _ recipe _ => Ok (String.append "/conda-bld/" recipe);
     path_exists := fun _ _ => Ok true;
     run := fun _ _ e =>
       match e with
       | Some vars =>
           match dict_lookup vars "FAIL" with
           | Some _ => Raise CalledProcessError
           | None => Ok tt
           end
       | None => Ok tt
       end;
     test_package := fun _ _ => Ok (0, "ok");
     get_image_name := fun _ _ => Ok "quay.io/biocontainers/pkg:1.0--0";
     anaconda_upload := fun _ _ _ => anaconda;
     mulled_upload := fun _ _ _ => mulled;
     conda_render := fun _ _ => render;
     conda_release := fun _ _ => Ok tt;
     trim_build_only_deps := fun _ deps => deps;
     repodata := index |}.

Definition example_opts (upload : bool) (image_target : option string)
    : Options :=
  {| opt_mulled_test := true;
     opt_testonly := false;
     opt_docker_builder := false;
     opt_label := None;
     opt_anaconda_upload := upload;
     opt_mulled_upload_target := image_target;
     opt_channels := ["bioconda"] |}.

(** A world in which the docker builder cannot start its container: its
    call raises an error that is neither of the two [build] expects. *)
Definition docker_down_world : World :=
  {| os_environ := [];
     abspath := fun path => path;
     docker_build_recipe := fun _ _ _ _ => Raise (OtherException "OSError");
     built_package_path := fun _ recipe _ => Ok recipe;
     path_exists := fun _ _ => Ok true;
     run := fun _ _ _ => Ok tt;
     test_package := fun _ _ => Ok (0, "");
     get_image_name := fun _ _ => Ok "image";
     anaconda_upload := fun _ _ _ => Ok true;
     mulled_upload := fun _ _ _ => Ok true;
     conda_render := fun _ _ => Ok None;
     conda_release := fun _ _ => Ok tt;
     trim_build_only_deps := fun _ deps => deps;
     repodata := [] |}.

(** The options of a run that builds in docker and uploads nothing. *)
Definition docker_opts : Options :=
  {| opt_mulled_test := true;
     opt_testonly := false;
     opt_docker_builder := true;
     opt_label := None;
     opt_anaconda_upload := false;
     opt_mulled_upload_target := None;
     opt_channels := [] |}.

(** Package [b] depends on package [a]; one recipe each. *)
Definition example_graph : DiGraph :=
  {| nodes := ["a"; "b"]; edges := [("a", "b")] |}.

Definition example_name2recipes : dict string (list string) :=
  [("a", ["recipes/a"]); ("b", ["recipes/b"])].

Definition target_py27 : Target :=
  {| target_env := [("CONDA_PY", "27")]; target_pkg := "pkg-py27.tar.bz2" |}.

(** A target whose build fails in [example_world]. *)
Definition target_py35 : Target :=
  {| target_env := [("CONDA_PY", "35"); ("FAIL", "1")];
     target_pkg := "pkg-py35.tar.bz2" |}.

(** Recipe [a] has two targets, the second of which fails to build. *)
Definition example_targets : gmap string (list Target) :=
  <[ "recipes/a" := [target_py27; target_py35] ]>
    (<[ "recipes/b" := [target_py27] ]> ∅).

(** Both recipes have one target that builds. *)
Definition good_targets : gmap string (list Target) :=
  <[ "recipes/a" := [target_py27] ]> (<[ "recipes/b" := [target_py27] ]> ∅).

(** The two kinds of call the cleanup property is about: the call that
    starts the build of a target (conda-build, directly or in docker) and
    the call of [purge]. *)
Inductive mark : Type := MAttempt | MPurge.

Definition mark_of (ev : event) : option mark :=
  match ev with
  | EvDockerBuildRecipe _ _ _ _ => Some MAttempt
  | EvRun cmd _ _ =>
      if bool_decide (cmd = purge_cmd) then Some MPurge else Some MAttempt
  | _ => None
  end.

Definition marks (tr : trace) : list mark := omap mark_of tr.

(** [k] attempts, each followed by its purge. *)
Fixpoint purged_attempts (k : nat) : list mark :=
  match k with
  | O => []
  | S k' => MAttempt :: MPurge :: purged_attempts k'
  end.

(** The calls of the two upload services. *)
Definition is_upload (ev : event) : bool :=
  match ev with
  | EvAnacondaUpload _ _ _ | EvMulledUpload _ _ _ => true
  | _ => false
  end.

(** The package of an artifact upload that reported failure. *)
Definition failed_upload_of (ev : event) : option string :=
  match ev with
  | EvAnacondaUpload pkg _ (Ok false) => Some pkg
  | _ => None
  end.

(** Every package name has its recipes listed once, and no recipe is
    listed twice or under two names. *)
Definition name2recipes_ok (name2recipes : dict string (list string)) : Prop :=
  NoDup (map fst name2recipes) /\ NoDup (concat (map snd name2recipes)).

(** The ledger [m'] is [m] with [recipe] appended, once or more, under each
    of the names [ds]. *)
Definition ledger_blocked (recipe : string) (ds : list string)
    (m m' : gmap string (list string)) : Prop :=
  forall n,
    (n ∉ ds -> m' !! n = m !! n) /\
    (n ∈ ds -> exists k, (1 <= k)%nat /\
       m' !! n = Some (default [] (m !! n) ++ replicate k recipe)).

Section StepRelation.

Context (opts : Options) (subdag : DiGraph).
Context (recipe2name : gmap string string).
Context (recipe_targets : gmap string (list Target)).

(** What one pass of the loop over the recipes does when it completes:
    [step st r ext st'] relates the accumulators before and after the pass
    for recipe [r], and the collaborator calls [ext] made meanwhile.  In
    [step_attempt], [fts] are the targets whose build failed. *)
Inductive step (st : Sched) (r : string) : trace -> Sched -> Prop :=
  | step_skip name blockers :
      recipe2name !! r = Some name ->
      skip_dependent st !! name = Some blockers ->
      step st r [] (add_skipped st r)
  | step_attempt name ts fts ext st' :
      recipe2name !! r = Some name ->
      skip_dependent st !! name = None ->
      recipe_targets !! r = Some ts ->
      marks ext = purged_attempts (length ts) ->
      skipped_recipes st' = skipped_recipes st ->
      failed st' = failed st ++ map (pair r) fts ->
      (forall t, t ∈ fts -> t ∈ ts) ->
      built_recipes st' =
        built_recipes st ++ (if bool_decide (fts = []) then [r] else []) ->
      all_success st' = all_success st && bool_decide (fts = []) ->
      failed_uploads st' = failed_uploads st ++ omap failed_upload_of ext ->
      ((fts = [] /\ skip_dependent st' = skip_dependent st) \/
       (fts <> [] /\ exists ds, descendants subdag name = Ok ds /\
          ledger_blocked r ds (skip_dependent st) (skip_dependent st'))) ->
      (opt_testonly opts = false -> opt_anaconda_upload opts = true ->
       forall t, t ∈ ts -> t ∈ fts \/
         exists o, EvAnacondaUpload (target_pkg t) (opt_label opts) (Ok o)
                   ∈ ext) ->
      step st r ext st'.

(** The passes for a list of recipes, in order. *)
Inductive steps : Sched -> list string -> trace -> Sched -> Prop :=
  | steps_nil st : steps st [] [] st
  | steps_cons st r ext1 st1 rs ext2 st2 :
      step st r ext1 st1 -> steps st1 rs ext2 st2 ->
      steps st (r :: rs) (ext1 ++ ext2) st2.

End StepRelation.

(** The recipes that were dealt with: built, skipped, or failed. *)
Definition dealt_with (st : Sched) (r : string) : Prop :=
  r ∈ built_recipes st \/ r ∈ skipped_recipes st \/
  exists t, (r, t) ∈ failed st.

(** The call that runs conda-build in [build], asked after the calls
    [tr]: the docker builder when there is one, [utils.run] otherwise. *)
Definition build_tool_answer (W : World) (recipe : string) (e : env)
    (testonly : bool) (channels : list string) (docker_builder : bool)
    (disable_travis_env_vars : bool) (tr : trace) : result unit :=
  if docker_builder
  then docker_build_recipe W tr (abspath W recipe)
         (String.concat " " (channel_args_of channels ++ build_args_of testonly))
         (docker_env_of W e disable_travis_env_vars)
  else run W tr
         (["conda"; "build"] ++ build_args_of testonly ++
            channel_args_of channels ++ [recipe])
         (Some (dict_update (os_environ W) e)).

Definition build_tool_event (W : World) (recipe : string) (e : env)
    (testonly : bool) (channels : list string) (docker_builder : bool)
    (disable_travis_env_vars : bool) (r : result unit) : event :=
  if docker_builder
  then EvDockerBuildRecipe (abspath W recipe)
         (String.concat " " (channel_args_of channels ++ build_args_of testonly))
         (docker_env_of W e disable_travis_env_vars) r
  else EvRun
         (["conda"; "build"] ++ build_args_of testonly ++
            channel_args_of channels ++ [recipe])
         (Some (dict_update (os_environ W) e)) r.

Section ClassifierSpec.

Context (W : World) (skip_variant_keys : gset string).

(** The packages of the index with the name and version of the variant, on
    one of the platforms given. *)
Definition same_package (platform : list string) (meta : MetaData)
    (p : PkgRecord) : Prop :=
  p ∈ repodata W /\ pkg_name p = meta_name meta /\
  pkg_version p = meta_version meta /\ pkg_platform p ∈ platform.

(** The variant is marked skip, or uses one of the skip-variant keys. *)
Definition variant_skipped (meta : MetaData) : Prop :=
  meta_skip meta = true \/
  exists key,
    key ∈ skip_variant_keys /\
    key ∈ trim_build_only_deps W meta (list_to_set (meta_used_vars meta)).

(** The variant is noarch for the generic interpreter, and the index has a
    noarch package with its name, version and build number. *)
Definition noarch_exists (meta : MetaData) : Prop :=
  meta_noarch meta = Some "python" /\
  exists p, same_package ["noarch"] meta p /\
    pkg_build_number p = meta_build_number meta.

(** The index has a package with the variant's name, version and build
    string, or one with its name, version and build number whose build
    string is the variant's after the legacy prefixes are removed. *)
Definition variant_exists (meta : MetaData) : Prop :=
  (exists p, same_package linux_noarch meta p /\
     pkg_build p = meta_build_id meta) \/
  (exists deps p, build_deps_of meta = Ok deps /\
     same_package linux_noarch meta p /\
     pkg_build_number p = meta_build_number meta /\
     trimmed_build_id deps (pkg_build p) = meta_build_id meta).



End ClassifierSpec.

(** A variant for examples: build string [abc123], build number 0, with
    the build and host requirements given. *)
Definition example_meta (reqs_build reqs_host : list string) : MetaData :=
  {| meta_name := "samtools";
     meta_version := "1.9";
     meta_build_number := 0;
     meta_build_id := "abc123";
     meta_skip := false;
     meta_noarch := None;
     meta_requirements_build := reqs_build;
     meta_requirements_host := reqs_host;
     meta_used_vars := ["c_compiler"] |}.

(** An index with one build of the example variant's name, version and
    build number, whose build string carries the prefix of python 3.8. *)
Definition example_index : list PkgRecord :=
  [ {| pkg_name := "samtools"; pkg_version := "1.9";
       pkg_build := "py38_abc123"; pkg_build_number := 0;
       pkg_platform := "linux" |} ].

(** ** Vocabulary of the further properties *)

(** A text without a word: every character of it is whitespace. *)
Definition blank (s : string) : Prop :=
  Forall (fun ch => ch ∈ whitespace) (utf8_chars s).

(** The calls of the package test: the test itself and the question for
    the name of the image it was run in. *)
Definition is_test_call (ev : event) : bool :=
  match ev with
  | EvTestPackage _ _ | EvGetImageName _ _ => true
  | _ => false
  end.

Definition is_artifact_upload (ev : event) : bool :=
  match ev with
  | EvAnacondaUpload _ _ _ => true
  | _ => false
  end.

Definition is_image_upload (ev : event) : bool :=
  match ev with
  | EvMulledUpload _ _ _ => true
  | _ => false
  end.

(** Every call the computation [m] makes satisfies [P], however it ends. *)
Definition calls_only {A} (P : event -> Prop) (m : M A) : Prop :=
  forall tr tr' r, m tr = (tr', r) ->
    exists ext, tr' = tr ++ ext /\ Forall P ext.

(** The number of builds a run over [recipes] starts when the recipes
    [skipped] are passed over: one for each target of each other recipe. *)
Definition targets_started (recipe_targets : gmap string (list Target))
    (skipped recipes : list string) : nat :=
  sum_list
    (map (fun r =>
            if bool_decide (r ∈ skipped) then 0%nat
            else length (default [] (recipe_targets !! r)))
         recipes).

(** [s.strip('_')]-like step of [have_variant]: one leading underscore is
    dropped. *)
Definition strip_underscore (s : string) : string :=
  if startswith "_" s then drop_first s else s.

(** The exception a collaborator answered a call with, if it did. *)
Definition raised_by (ev : event) : option exn :=
  match ev with
  | EvDockerBuildRecipe _ _ _ (Raise e)
  | EvBuiltPackagePath _ _ (Raise e)
  | EvPathExists _ (Raise e)
  | EvRun _ _ (Raise e)
  | EvTestPackage _ (Raise e)
  | EvGetImageName _ (Raise e)
  | EvAnacondaUpload _ _ (Raise e)
  | EvMulledUpload _ _ (Raise e)
  | EvCondaRender _ (Raise e)
  | EvCondaRelease _ (Raise e) => Some e
  | _ => None
  end.

(** The exceptions the scheduler raises itself, or gets from a look-up in
    a dictionary, a list or the graph. *)
Definition is_lookup_error (e : exn) : bool :=
  match e with
  | ValueError | KeyError | IndexError | NetworkXError | NetworkXUnfeasible =>
      true
  | _ => false
  end.

(** An exception that comes out of [m] is a look-up error or was raised by
    the last call [m] made. *)
Definition raises_from_calls {A} (m : M A) : Prop :=
  forall tr tr' r, m tr = (tr', r) ->
    exists ext, tr' = tr ++ ext /\
      match r with
      | Ok _ => True
      | Raise e =>
          is_lookup_error e = true \/
          exists pre ev, ext = pre ++ [ev] /\ raised_by ev = Some e
      end.

(** A world in which the docker builder ends normally but leaves no
    package behind. *)
Definition no_package_world : World :=
  {| os_environ := [];
     abspath := fun path => path;
     docker_build_recipe := fun _ _ _ _ => Ok tt;
     built_package_path := fun _ recipe _ => Ok recipe;
     path_exists := fun _ _ => Ok false;
     run := fun _ _ _ => Ok tt;
     test_package := fun _ _ => Ok (0, "");
     get_image_name := fun _ _ => Ok "image";
     anaconda_upload := fun _ _ _ => Ok true;
     mulled_upload := fun _ _ _ => Ok true;
     conda_render := fun _ _ => Ok None;
     conda_release := fun _ _ => Ok tt;
     trim_build_only_deps := fun _ deps => deps;
     repodata := [] |}.

(** A world in which conda-build ends normally and the question for the
    path of the package it built fails with [CalledProcessError]. *)
Definition lost_package_world : World :=
  {| os_environ := [];
     abspath := fun path => path;
     docker_build_recipe := fun _ _ _ _ => Ok tt;
     built_package_path := fun _ _ _ => Raise CalledProcessError;
     path_exists := fun _ _ => Ok true;
     run := fun _ _ _ => Ok tt;
     test_package := fun _ _ => Ok (0, "");
     get_image_name := fun _ _ => Ok "image";
     anaconda_upload := fun _ _ _ => Ok true;
     mulled_upload := fun _ _ _ => Ok true;
     conda_render := fun _ _ => Ok None;
     conda_release := fun _ _ => Ok tt;
     trim_build_only_deps := fun _ deps => deps;
     repodata := [] |}.

(** A world in which every command that is run fails, [purge] included,
    and the docker builder works. *)
Definition no_command_world : World :=
  {| os_environ := [];
     abspath := fun path => path;
     docker_build_recipe := fun _ _ _ _ => Ok tt;
     built_package_path := fun _ recipe _ => Ok recipe;
     path_exists := fun _ _ => Ok true;
     run := fun _ _ _ => Raise CalledProcessError;
     test_package := fun _ _ => Ok (0, "");
     get_image_name := fun _ _ => Ok "image";
     anaconda_upload := fun _ _ _ => Ok true;
     mulled_upload := fun _ _ _ => Ok true;
     conda_render := fun _ _ => Ok None;
     conda_release := fun _ _ => Ok tt;
     trim_build_only_deps := fun _ deps => deps;
     repodata := [] |}.

(** The number of collaborator calls in the [try] block of [build] when
    none of them raises and the block is not left early: with the docker
    builder, the build, the path of the package, the test that it exists
    and the path for the log line; otherwise the build and the path for
    the log line. *)
Definition try_block_calls (docker_builder : bool) : nat :=
  if docker_builder then 4%nat else 2%nat.

(** The answers of [build] in a stretch of a run.  [run_log W opts tr ext
    log]: the calls [ext], made after the calls [tr], are those of one
    attempt for each entry of [log], in order.  The entry [(r, t, res)] is
    a call of [build] for the recipe [r] in the environment of the target
    [t], with the options of the run, that returned [res]; what follows it
    up to the next attempt starts no build and runs [purge] once. *)
Inductive run_log (W : World) (opts : Options)
    : trace -> trace -> list (string * Target * BuildResult) -> Prop :=
  | run_log_nil tr : run_log W opts tr [] []
  | run_log_cons tr r t res ext1 ext2 ext3 log :
      build W r (target_env t) (opt_testonly opts) (opt_mulled_test opts)
        (opt_channels opts) (opt_docker_builder opts) false tr
        = (tr ++ ext1, Ok res) ->
      marks ext2 = [MPurge] ->
      run_log W opts (tr ++ ext1 ++ ext2) ext3 log ->
      run_log W opts tr (ext1 ++ ext2 ++ ext3) ((r, t, res) :: log).

(** The targets for which [build] answered a failure. *)
Definition failures (log : list (string * Target * BuildResult))
    : list (string * Target) :=
  omap (fun entry => if success entry.2 then None else Some entry.1) log.

(** The characters of a build string: digits, ASCII letters, underscore
    and dot. *)
Definition allowed_char (c : ascii) : Prop :=
  let k := nat_of_ascii c in
  (48 <= k <= 57)%nat \/ (65 <= k <= 90)%nat \/ (97 <= k <= 122)%nat \/
  c = "_"%char \/ c = "."%char.

(** A build string is valid when it is not empty and has allowed
    characters only. *)
Definition valid_build_string (s : string) : Prop :=
  s <> "" /\ forall c, c ∈ list_ascii_of_string s -> allowed_char c.

(** A requirement of the variant, for build or host, that is blank. *)
Definition has_blank_requirement (meta : MetaData) : Prop :=
  exists dep,
    dep ∈ meta_requirements_build meta ++ meta_requirements_host meta /\
    blank dep.

(** The variants whose requirements are read: those that are not skipped
    and have neither a noarch match nor a package of their own build
    string in the index. *)
Definition reads_requirements (W : World) (skip_variant_keys : gset string)
    (meta : MetaData) : Prop :=
  ~ variant_skipped W skip_variant_keys meta /\
  ~ noarch_exists W meta /\
  forall p, same_package W linux_noarch meta p ->
    pkg_build p <> meta_build_id meta.


(* ===================================================================== *)
(** * Facts about the graph operations *)
(* ===================================================================== *)

Lemma elem_of_map {A B} (f : A -> B) (l : list A) (x : B) :
  x ∈ map f l <-> exists y, x = f y /\ y ∈ l.
Proof.
  rewrite list_elem_of_In, in_map_iff.
  split; intros (y & H1 & H2); exists y; split; try done;
    by apply list_elem_of_In.
Qed.

Section Reachability.

Context (g : DiGraph).

Lemma elem_of_expand x s :
  x ∈ expand g s <-> x ∈ s \/ exists a, a ∈ s /\ (a, x) ∈ edges g.
Proof.
  unfold expand. rewrite elem_of_union, elem_of_list_to_set, elem_of_map.
  split; intros [H | H]; auto; right.
  - destruct H as ([a b] & -> & H).
    apply list_elem_of_filter in H as [Ha Hin]. simpl in *. eauto.
  - destruct H as (a & Ha & Hin). exists (a, x). split; [done |].
    apply list_elem_of_filter. auto.
Qed.

Lemma expand_mono s : s ⊆ expand g s.
Proof. intros x Hx. apply elem_of_expand. auto. Qed.

Lemma expand_n_mono k s : s ⊆ expand_n g k s.
Proof.
  revert s. induction k as [| k IH]; intros s; simpl; [done |].
  etransitivity; [apply expand_mono | apply IH].
Qed.

Lemma expand_n_sound k s x :
  x ∈ expand_n g k s -> exists y, y ∈ s /\ rtc (has_edge g) y x.
Proof.
  revert s. induction k as [| k IH]; intros s; simpl.
  - intros Hx. exists x. split; [done | apply rtc_refl].
  - intros Hx. apply IH in Hx as (y & Hy & Hyx).
    apply elem_of_expand in Hy as [Hy | (a & Ha & Hay)].
    + eauto.
    + exists a. split; [done |]. eapply rtc_l; [exact Hay | exact Hyx].
Qed.

Lemma closed_expand s : closed g s -> expand g s = s.
Proof.
  intros Hc. apply set_eq. intros x. rewrite elem_of_expand.
  split; [| auto]. intros [H | (a & Ha & Hax)]; [done |]. eapply Hc; eauto.
Qed.

Lemma expand_fixed_closed s : expand g s = s -> closed g s.
Proof.
  intros He a b Hab Ha. rewrite <- He. apply elem_of_expand. eauto.
Qed.

Lemma expand_n_fixed k s : expand g s = s -> expand_n g k s = s.
Proof.
  intros He. induction k as [| k IH]; simpl; [done |]. by rewrite He.
Qed.

Lemma closed_rtc s a b : closed g s -> rtc (has_edge g) a b -> a ∈ s -> b ∈ s.
Proof.
  intros Hc Hr. induction Hr as [| a b c Hab _ IH]; [done |].
  intros Ha. apply IH. eapply Hc; eauto.
Qed.

(** Each round either adds a node or has reached a closed set. *)
Lemma expand_n_grows k s :
  closed g (expand_n g k s) \/ (size s + k <= size (expand_n g k s))%nat.
Proof.
  revert s. induction k as [| k IH]; intros s; simpl.
  - right. lia.
  - destruct (decide (expand g s = s)) as [He | Hne].
    + left. rewrite He, expand_n_fixed by done. by apply expand_fixed_closed.
    + destruct (IH (expand g s)) as [Hc | Hsz]; [by left | right].
      assert (size s < size (expand g s))%nat; [| lia].
      apply subset_size. split; [apply expand_mono |].
      intros Hsub. apply Hne. apply set_eq. intros x. split; [apply Hsub |].
      apply expand_mono.
Qed.

Lemma expand_n_within (ns : gset string) k s :
  (forall a b, (a, b) ∈ edges g -> b ∈ ns) -> s ⊆ ns -> expand_n g k s ⊆ ns.
Proof.
  intros Hns. revert s. induction k as [| k IH]; intros s Hs; simpl; [done |].
  apply IH. intros x Hx. apply elem_of_expand in Hx as [Hx | (a & _ & Hax)].
  - by apply Hs.
  - eapply Hns; eauto.
Qed.

Lemma size_list_to_set_le (l : list string) :
  (size (list_to_set l : gset string) <= length l)%nat.
Proof.
  induction l as [| x l IH]; simpl.
  - done.
  - rewrite size_union_alt.
    rewrite size_singleton.
    assert (size (list_to_set l ∖ {[x]} : gset string)
            <= size (list_to_set l : gset string))%nat; [| lia].
    apply subseteq_size. intros y Hy.
    by apply elem_of_difference in Hy as [Hy _].
Qed.

Lemma reachable_within src :
  well_formed g -> src ∈ nodes g ->
  reachable g src ⊆ list_to_set (nodes g).
Proof.
  intros [_ Hwf] Hsrc. apply expand_n_within.
  - intros a b Hab. apply elem_of_list_to_set. by apply (Hwf a b).
  - intros x Hx. apply elem_of_singleton in Hx as ->.
    by apply elem_of_list_to_set.
Qed.

Lemma reachable_closed src :
  well_formed g -> src ∈ nodes g -> closed g (reachable g src).
Proof.
  intros Hwf Hsrc.
  destruct (expand_n_grows (length (nodes g)) {[ src ]}) as [Hc | Hsz];
    [done | exfalso].
  rewrite size_singleton in Hsz.
  pose proof (subseteq_size _ _ (reachable_within src Hwf Hsrc)) as H1.
  pose proof (size_list_to_set_le (nodes g)) as H2.
  unfold reachable in H1. lia.
Qed.

(** [reachable] is reachability along the edges. *)
Lemma elem_of_reachable src x :
  well_formed g -> src ∈ nodes g ->
  x ∈ reachable g src <-> rtc (has_edge g) src x.
Proof.
  intros Hwf Hsrc. split.
  - intros Hx. apply expand_n_sound in Hx as (y & Hy & Hyx).
    by apply elem_of_singleton in Hy as ->.
  - intros Hr. eapply closed_rtc; [by apply reachable_closed | exact Hr |].
    apply expand_n_mono. by apply elem_of_singleton.
Qed.

(** [descendants] returns the nodes other than [src] that a path of at
    least one edge leads to from [src]. *)
Lemma elem_of_descendants src ds x :
  well_formed g -> descendants g src = Ok ds ->
  x ∈ ds <-> tc (has_edge g) src x /\ x <> src.
Proof.
  intros Hwf. unfold descendants. case_bool_decide as Hsrc; [| done].
  intros [= <-]. rewrite list_elem_of_filter, elem_of_reachable by done.
  split.
  - intros [[Hr Hne] _]. split; [| done].
    apply rtc_tc in Hr as [-> | Htc]; done.
  - intros [Htc Hne]. split; [split; [by apply tc_rtc | done] |].
    destruct Hwf as [_ Hwf]. clear Hne Hsrc.
    induction Htc as [a b Hab | a b c Hab _ IH]; [| done].
    by apply (Hwf a b).
Qed.

Lemma descendants_ok src :
  src ∈ nodes g -> exists ds, descendants g src = Ok ds.
Proof.
  intros Hsrc. unfold descendants. rewrite bool_decide_eq_true_2 by done. eauto.
Qed.

End Reachability.

Section Components.

Context (ug : DiGraph).
Hypothesis ug_wf : well_formed ug.
Hypothesis ug_sym : forall a b, (a, b) ∈ edges ug -> (b, a) ∈ edges ug.

Lemma rtc_undirected_sym a b :
  rtc (has_edge ug) a b -> rtc (has_edge ug) b a.
Proof.
  induction 1 as [| a b c Hab _ IH]; [apply rtc_refl |].
  eapply rtc_r; [exact IH |]. by apply ug_sym.
Qed.

Lemma closed_union s1 s2 : closed ug s1 -> closed ug s2 -> closed ug (s1 ∪ s2).
Proof.
  intros H1 H2 a b Hab Ha. apply elem_of_union in Ha as [Ha | Ha].
  - apply elem_of_union_l. eapply H1; eauto.
  - apply elem_of_union_r. eapply H2; eauto.
Qed.

(** The components found from the nodes [vs] are disjoint from each other
    and from the nodes seen before, and with these they cover [vs]. *)
Lemma components_from_spec vs seen :
  (forall v, v ∈ vs -> v ∈ nodes ug) -> closed ug seen ->
  let cs := components_from ug vs seen in
  NoDup (concat (map elements cs)) /\
  (forall x, x ∈ concat (map elements cs) -> (x ∉ seen) /\ (x ∈ nodes ug)) /\
  (forall x, x ∈ vs -> (x ∈ seen) \/ (x ∈ concat (map elements cs))) /\
  (forall c, c ∈ cs -> exists v, v ∈ vs /\ c = reachable ug v).
Proof.
  revert seen. induction vs as [| v vs IH]; intros seen Hvs Hseen; simpl.
  - split; [constructor |].
    split; [| split]; intros x Hx; by apply elem_of_nil in Hx.
  - assert (Hvs' : forall x, x ∈ vs -> x ∈ nodes ug).
    { intros x Hx. apply Hvs. by right. }
    assert (Hv : v ∈ nodes ug) by (apply Hvs; left).
    case_bool_decide as Hin.
    + destruct (IH seen Hvs' Hseen) as (Hnd & Hout & Hcov & Hcs).
      split; [done |]. split; [done |]. split.
      * intros x Hx. apply elem_of_cons in Hx as [-> | Hx]; auto.
      * intros c Hc. destruct (Hcs c Hc) as (w & Hw & ->).
        exists w. split; [by right | done].
    + set (c := reachable ug v).
      assert (Hc : closed ug c) by (by apply reachable_closed).
      destruct (IH (seen ∪ c) Hvs' (closed_union _ _ Hseen Hc))
        as (Hnd & Hout & Hcov & Hcs).
      assert (Hfresh : forall x, x ∈ c -> x ∉ seen).
      { intros x Hx Hxs. apply Hin.
        apply (closed_rtc ug seen x v Hseen); [| done].
        apply rtc_undirected_sym. by apply elem_of_reachable. }
      simpl. split; [| split; [| split]].
      * apply NoDup_app. split; [apply NoDup_elements |]. split; [| done].
        intros x Hx Hx'. apply elem_of_elements in Hx.
        apply Hout in Hx' as [Hx' _]. apply Hx'. by apply elem_of_union_r.
      * intros x Hx. apply elem_of_app in Hx as [Hx | Hx].
        -- apply elem_of_elements in Hx. split; [by apply Hfresh |].
           apply (reachable_within ug v ug_wf Hv) in Hx.
           by apply elem_of_list_to_set in Hx.
        -- apply Hout in Hx as [Hx Hn]. split; [| done].
           intros Hxs. apply Hx. by apply elem_of_union_l.
      * intros x Hx. rewrite elem_of_app, elem_of_elements.
        apply elem_of_cons in Hx as [-> | Hx].
        -- right. left. apply expand_n_mono. by apply elem_of_singleton.
        -- destruct (Hcov x Hx) as [Hs | Hr]; [| by right; right].
           apply elem_of_union in Hs as [Hs | Hs]; [by left | by right; left].
      * intros c' Hc'. apply elem_of_cons in Hc' as [-> | Hc'].
        -- exists v. split; [by left | done].
        -- destruct (Hcs c' Hc') as (w & Hw & ->).
           exists w. split; [by right | done].
Qed.

End Components.

Lemma elem_of_to_undirected_edges g a b :
  (a, b) ∈ edges (to_undirected g) <-> (a, b) ∈ edges g \/ (b, a) ∈ edges g.
Proof.
  unfold to_undirected. simpl. rewrite elem_of_app, elem_of_map.
  split; intros [H | H]; auto; right.
  - by destruct H as ([x y] & [= -> ->] & H).
  - by exists (b, a).
Qed.

Lemma to_undirected_wf g : well_formed g -> well_formed (to_undirected g).
Proof.
  intros [Hnd Hwf]. split; [done |]. intros a b Hab.
  apply elem_of_to_undirected_edges in Hab as [Hab | Hab];
    apply Hwf in Hab; simpl; tauto.
Qed.

Lemma to_undirected_sym g a b :
  (a, b) ∈ edges (to_undirected g) -> (b, a) ∈ edges (to_undirected g).
Proof. rewrite !elem_of_to_undirected_edges. tauto. Qed.

Lemma closed_empty g : closed g ∅.
Proof. intros a b _ Ha. by apply not_elem_of_empty in Ha. Qed.

(** The connected components partition the nodes. *)
Lemma connected_components_partition g :
  well_formed g ->
  concat (map elements (connected_components (to_undirected g))) ≡ₚ nodes g.
Proof.
  intros Hwf.
  destruct (components_from_spec (to_undirected g) (to_undirected_wf g Hwf)
              (to_undirected_sym g) (nodes g) ∅)
    as (Hnd & Hout & Hcov & _); [done | apply closed_empty |].
  apply NoDup_Permutation; [done | apply Hwf |].
  intros x. split.
  - intros Hx. by apply Hout in Hx as [_ Hx].
  - intros Hx. destruct (Hcov x Hx) as [Hs | Hc]; [| done].
    by apply not_elem_of_empty in Hs.
Qed.

(** Each component is the set of nodes connected to one of its nodes. *)
Lemma connected_components_connected g c :
  well_formed g -> c ∈ connected_components (to_undirected g) ->
  exists v, v ∈ nodes g /\
    forall x, x ∈ c <-> rtc (has_edge (to_undirected g)) v x.
Proof.
  intros Hwf Hc.
  destruct (components_from_spec (to_undirected g) (to_undirected_wf g Hwf)
              (to_undirected_sym g) (nodes g) ∅)
    as (_ & _ & _ & Hcs); [done | apply closed_empty |].
  destruct (Hcs c Hc) as (v & Hv & ->). exists v. split; [done |].
  intros x. apply elem_of_reachable; [by apply to_undirected_wf | done].
Qed.

Section TopologicalSort.

Context (g : DiGraph).

Lemma has_pred_in_true rem n :
  has_pred_in g rem n = true <-> exists m, m ∈ rem /\ (m, n) ∈ edges g.
Proof.
  unfold has_pred_in. rewrite existsb_exists. split.
  - intros (m & Hm & Hmn). apply bool_decide_eq_true in Hmn.
    exists m. split; [by apply list_elem_of_In | done].
  - intros (m & Hm & Hmn). exists m. split; [by apply list_elem_of_In |].
    by apply bool_decide_eq_true.
Qed.

Lemma has_pred_in_false rem n :
  has_pred_in g rem n = false <-> forall m, m ∈ rem -> (m, n) ∉ edges g.
Proof.
  rewrite <- not_true_iff_false, has_pred_in_true. split.
  - intros H m Hm Hmn. apply H. eauto.
  - intros H (m & Hm & Hmn). by apply (H m).
Qed.

Lemma remove_Permutation (n : string) (rem : list string) :
  NoDup rem -> n ∈ rem -> n :: filter (fun m => m <> n) rem ≡ₚ rem.
Proof.
  intros Hnd Hn. apply NoDup_Permutation; [| done |].
  - constructor; [| by apply NoDup_filter].
    rewrite list_elem_of_filter. tauto.
  - intros x. rewrite elem_of_cons, list_elem_of_filter.
    destruct (decide (x = n)) as [-> | Hne]; [tauto |]. tauto.
Qed.

Lemma topo_loop_step fuel r rem :
  topo_loop g (S fuel) (r :: rem) =
  match List.find (fun n => negb (has_pred_in g (r :: rem) n)) (r :: rem) with
  | None => Raise NetworkXUnfeasible
  | Some n => rmap (cons n) (topo_loop g fuel (filter (fun m => m <> n) (r :: rem)))
  end.
Proof. reflexivity. Qed.

(** What [topological_sort] returns is a permutation of the nodes that
    respects the edges. *)
Lemma topo_loop_sound fuel rem l :
  NoDup rem -> topo_loop g fuel rem = Ok l -> l ≡ₚ rem /\ topo_ordered g l.
Proof.
  revert rem l. induction fuel as [| fuel IH]; intros rem l Hnd.
  - destruct rem; simpl; [| done]. intros [= <-]. by split.
  - destruct rem as [| r rem]; [simpl; intros [= <-]; by split |].
    rewrite topo_loop_step.
    destruct (List.find (fun n => negb (has_pred_in g (r :: rem) n))
                (r :: rem)) as [n |] eqn:Hfind; [| done].
    apply find_some in Hfind as [Hn Hsrc]. apply list_elem_of_In in Hn.
    apply negb_true_iff in Hsrc.
    destruct (topo_loop g fuel _) as [l' |] eqn:Hl'; [| done].
    simpl. intros [= <-].
    apply IH in Hl' as [Hperm Hord]; [| by apply NoDup_filter].
    assert (Hp : n :: l' ≡ₚ r :: rem).
    { rewrite Hperm. by apply remove_Permutation. }
    split; [done |]. split; [| done].
    intros y Hy. rewrite Hp in Hy.
    by apply (proj1 (has_pred_in_false _ _) Hsrc).
Qed.

(** Among a non-empty set of nodes of an acyclic graph, every node is
    reached from one that has no predecessor in the set. *)
Lemma exists_source rem :
  acyclic g ->
  forall y, y ∈ rem ->
  exists s, s ∈ rem /\ has_pred_in g rem s = false /\ rtc (has_edge g) s y.
Proof.
  intros Hacy. induction rem as [| x rem IH]; intros y Hy.
  - by apply elem_of_nil in Hy.
  - assert (Hcons : forall s, has_pred_in g rem s = false ->
              (x, s) ∉ edges g -> has_pred_in g (x :: rem) s = false).
    { intros s Hs Hxs. apply has_pred_in_false. intros m Hm.
      apply elem_of_cons in Hm as [-> | Hm]; [done |].
      by apply (proj1 (has_pred_in_false _ _) Hs). }
    assert (Hx : exists s, s ∈ x :: rem /\
              has_pred_in g (x :: rem) s = false /\ rtc (has_edge g) s x).
    { destruct (has_pred_in g rem x) eqn:Hpx.
      - apply has_pred_in_true in Hpx as (p & Hp & Hpx).
        destruct (IH p Hp) as (s & Hs & Hsrc & Hsp).
        exists s. split; [by right |]. split.
        + apply Hcons; [done |]. intros Hxs. apply (Hacy x).
          eapply tc_rtc_r; [| eapply rtc_r; [exact Hsp | exact Hpx]].
          by apply tc_once.
        + eapply rtc_r; eauto.
      - exists x. split; [by left |]. split; [| apply rtc_refl].
        apply Hcons; [done |]. intros Hxx. apply (Hacy x). by apply tc_once. }
    apply elem_of_cons in Hy as [-> | Hy]; [done |].
    destruct (IH y Hy) as (s & Hs & Hsrc & Hsy).
    destruct (decide ((x, s) ∈ edges g)) as [Hxs | Hxs].
    + destruct Hx as (s0 & Hs0 & Hsrc0 & Hs0x).
      exists s0. split; [done |]. split; [done |].
      etransitivity; [exact Hs0x |]. eapply rtc_l; eauto.
    + exists s. split; [by right |]. split; [by apply Hcons | done].
Qed.

(** On an acyclic graph [topological_sort] does not fail. *)
Lemma topo_loop_complete fuel rem :
  acyclic g -> (length rem <= fuel)%nat ->
  exists l, topo_loop g fuel rem = Ok l.
Proof.
  intros Hacy. revert rem. induction fuel as [| fuel IH]; intros rem Hlen.
  - destruct rem; simpl in *; [eauto | lia].
  - destruct rem as [| r rem]; [simpl; eauto |].
    rewrite topo_loop_step.
    destruct (List.find (fun n => negb (has_pred_in g (r :: rem) n))
                (r :: rem)) as [n |] eqn:Hfind.
    + apply find_some in Hfind as [Hn _]. apply list_elem_of_In in Hn.
      destruct (IH (filter (fun m => m <> n) (r :: rem))) as [l Hl].
      { pose proof (length_filter_lt (fun m => m <> n) (r :: rem) n Hn) as H.
        simpl in *. assert (~ n <> n) by tauto. specialize (H ltac:(done)).
        lia. }
      rewrite Hl. simpl. eauto.
    + exfalso.
      destruct (exists_source (r :: rem) Hacy r) as (s & Hs & Hsrc & _);
        [by left |].
      apply list_elem_of_In in Hs.
      pose proof (find_none _ _ Hfind s Hs) as H. cbv beta in H.
      by rewrite Hsrc in H.
Qed.

End TopologicalSort.

Lemma topo_ordered_app g l1 l2 : topo_ordered g (l1 ++ l2) -> topo_ordered g l2.
Proof. induction l1 as [| x l1 IH]; simpl; [done | tauto]. Qed.

(** On a well-formed acyclic graph [topological_sort] returns every node
    once, each after all its predecessors. *)
Lemma topological_sort_spec g :
  well_formed g -> acyclic g ->
  exists l, topological_sort g = Ok l /\ l ≡ₚ nodes g /\
    forall l1 b l2 a, l = l1 ++ b :: l2 -> (a, b) ∈ edges g ->
      a ∈ l1 /\ a ∉ b :: l2.
Proof.
  intros [Hnd Hwf] Hacy.
  destruct (topo_loop_complete g (length (nodes g)) (nodes g) Hacy) as [l Hl];
    [done |].
  exists l. split; [done |].
  destruct (topo_loop_sound g _ _ _ Hnd Hl) as [Hperm Hord].
  split; [done |]. intros l1 b l2 a -> Hab.
  apply topo_ordered_app in Hord. destruct Hord as [Hb _].
  assert (Hnot : a ∉ b :: l2) by (intros Ha; by apply (Hb a)).
  split; [| done].
  assert (Ha : a ∈ l1 ++ b :: l2).
  { rewrite Hperm. by apply (Hwf a b). }
  apply elem_of_app in Ha as [Ha | Ha]; done.
Qed.

Lemma subgraph_wf g ns : well_formed g -> well_formed (subgraph g ns).
Proof.
  intros [Hnd Hwf]. split; simpl; [by apply NoDup_filter |].
  intros a b Hab. apply list_elem_of_filter in Hab as [[Ha Hb] Hab].
  apply Hwf in Hab as [Ha' Hb']. simpl in *.
  rewrite !list_elem_of_filter. tauto.
Qed.

Lemma subgraph_acyclic g ns : acyclic g -> acyclic (subgraph g ns).
Proof.
  intros Hacy n Hn. apply (Hacy n). revert Hn.
  apply (tc_congruence (fun x => x)). intros a b Hab.
  by apply list_elem_of_filter in Hab as [_ Hab].
Qed.

Lemma elem_of_subgraph_nodes g ns x :
  x ∈ nodes (subgraph g ns) <-> x ∈ ns /\ x ∈ nodes g.
Proof. simpl. by rewrite list_elem_of_filter. Qed.

(* ===================================================================== *)
(** * Facts about slicing and sorting *)
(* ===================================================================== *)

Lemma concat_Permutation {A} (l1 l2 : list (list A)) :
  l1 ≡ₚ l2 -> concat l1 ≡ₚ concat l2.
Proof.
  induction 1 as [| x l1 l2 _ IH | x y l | l1 l2 l3 _ IH1 _ IH2]; simpl.
  - done.
  - by rewrite IH.
  - rewrite !app_assoc. by rewrite (Permutation_app_comm y x).
  - by rewrite IH1.
Qed.

Lemma concat_map_Permutation {A B} (f h : A -> list B) (l : list A) :
  (forall x, f x ≡ₚ h x) -> concat (map f l) ≡ₚ concat (map h l).
Proof.
  intros Hfh. induction l as [| x l IH]; simpl; [done |].
  by rewrite Hfh, IH.
Qed.

Lemma concat_map_singleton {A} (l : list A) :
  concat (map (fun x => [x]) l) = l.
Proof. induction l as [| x l IH]; simpl; [done | by rewrite IH]. Qed.

Lemma elem_of_concat {A} (ls : list (list A)) (x : A) :
  x ∈ concat ls <-> exists l, l ∈ ls /\ x ∈ l.
Proof.
  rewrite list_elem_of_In, in_concat.
  split; intros (l & H1 & H2); exists l; split; by apply list_elem_of_In.
Qed.

(** In a duplicate-free concatenation an element lies in one piece only. *)
Lemma NoDup_concat_lookup {A} (ls : list (list A)) i j a b x :
  NoDup (concat ls) -> ls !! i = Some a -> ls !! j = Some b ->
  x ∈ a -> x ∈ b -> i = j.
Proof.
  revert i j. induction ls as [| l ls IH]; intros i j Hnd Hi Hj Ha Hb;
    [done |].
  simpl in Hnd. apply NoDup_app in Hnd as (_ & Hdisj & Hnd).
  assert (Hin : forall k c, ls !! k = Some c -> x ∈ c -> x ∈ concat ls).
  { intros k c Hk Hc. apply elem_of_concat. exists c.
    split; [| done]. by eapply list_elem_of_lookup_2. }
  destruct i as [| i], j as [| j]; simpl in *.
  - done.
  - injection Hi as <-. exfalso. eapply Hdisj; eauto.
  - injection Hj as <-. exfalso. eapply Hdisj; eauto.
  - f_equal. eauto.
Qed.

Lemma every_nil {A} n w : every n w ([] : list A) = [].
Proof. reflexivity. Qed.

Lemma every_partition_S {A} m (l : list A) :
  concat (map (fun i => every (S m) i l) (seq 0 (S m))) ≡ₚ l.
Proof.
  induction l as [| x l IH].
  - generalize (seq 0 (S m)). intros s.
    induction s as [| i s IHs]; simpl; done.
  - change (seq 0 (S m)) with (0%nat :: seq 1 m).
    rewrite <- seq_shift, map_cons, map_map. simpl.
    replace (m - 0)%nat with m by lia. constructor.
    etransitivity; [| exact IH].
    rewrite seq_S, map_app, concat_app. simpl.
    rewrite app_nil_r. apply Permutation_app_comm.
Qed.

Section Every.

Context {A : Type} (n : nat).
Hypothesis n_pos : (1 <= n)%nat.

Lemma every_cons_0 (x : A) l : every n 0 (x :: l) = x :: every n (n - 1) l.
Proof. reflexivity. Qed.

Lemma every_cons_S (x : A) w l : every n (S w) (x :: l) = every n w l.
Proof. reflexivity. Qed.

(** The [n] slices [l[0::n]], ..., [l[n-1::n]] together hold the elements
    of [l]. *)
Lemma every_partition (l : list A) :
  concat (map (fun i => every n i l) (seq 0 n)) ≡ₚ l.
Proof.
  destruct n as [| m]; [lia |]. apply every_partition_S.
Qed.

(** The element at position [w + q * n] is in the slice [l[w::n]]. *)
Lemma every_lookup (l : list A) w q u :
  l !! (w + q * n)%nat = Some u -> u ∈ every n w l.
Proof.
  revert w q. induction l as [| x l IH]; intros w q Hu; [done |].
  destruct w as [| w].
  - rewrite every_cons_0. destruct q as [| q].
    + simpl in Hu. injection Hu as ->. by left.
    + right. apply (IH (n - 1)%nat q).
      replace (0 + S q * n)%nat with (S (n - 1 + q * n)) in Hu by lia.
      exact Hu.
  - rewrite every_cons_S. apply (IH w q). exact Hu.
Qed.

End Every.

Lemma list_leb_total l1 l2 : list_leb l1 l2 = true \/ list_leb l2 l1 = true.
Proof.
  revert l2. induction l1 as [| x l1 IH]; intros [| y l2]; simpl; auto.
  rewrite (String.compare_antisym y x).
  destruct (String.compare x y); simpl; auto.
Qed.

#[global] Instance list_le_total : Total list_le.
Proof. intros l1 l2. apply list_leb_total. Qed.

#[global] Instance str_le_total : Total str_le.
Proof. intros a b. apply String.leb_total. Qed.

Lemma sorted_str_Permutation l : sorted_str l ≡ₚ l.
Proof. apply merge_sort_Permutation. Qed.

Lemma sorted_lists_Permutation l : sorted_lists l ≡ₚ l.
Proof. apply merge_sort_Permutation. Qed.

(* ===================================================================== *)
(** * The shards *)
(* ===================================================================== *)

Lemma concat_concat {A} (ls : list (list (list A))) :
  concat (map (@concat A) ls) = concat (concat ls).
Proof.
  induction ls as [| l ls IH]; simpl; [done |].
  by rewrite concat_app, IH.
Qed.

Lemma lookup_map_seq {B} (f : nat -> B) (n w : nat) :
  (w < n)%nat -> map f (seq 0 n) !! w = Some (f w).
Proof.
  intros Hw. change (map f (seq 0 n)) with (f <$> seq 0 n).
  by rewrite list_lookup_fmap, lookup_seq_lt.
Qed.

Lemma map_range {B} (f : Z -> B) (n : Z) :
  map f (range n) = map (fun k => f (Z.of_nat k)) (seq 0 (Z.to_nat n)).
Proof.
  unfold range, seqZ. generalize (seq 0 (Z.to_nat n)). intros s.
  induction s as [| k s IH]; simpl; [done |].
  rewrite <- IH. f_equal. f_equal. lia.
Qed.

(** The units hold every node of the graph once. *)
Lemma subdags_partition testonly dag :
  well_formed dag -> concat (subdags_of testonly dag) ≡ₚ nodes dag.
Proof.
  intros Hwf. unfold subdags_of. destruct testonly.
  - rewrite (concat_Permutation _ _ (sorted_lists_Permutation _)).
    by rewrite concat_map_singleton.
  - rewrite (concat_Permutation _ _ (sorted_lists_Permutation _)).
    rewrite (concat_map_Permutation _ elements)
      by (intros c; apply sorted_str_Permutation).
    by apply connected_components_partition.
Qed.

Lemma chunks_of_small n units :
  n < Z.of_nat (length units) ->
  chunks_of n units =
  map (fun k => concat (every (Z.to_nat n) k units)) (seq 0 (Z.to_nat n)).
Proof.
  intros Hn. unfold chunks_of. rewrite (proj2 (Z.ltb_lt _ _) Hn).
  rewrite map_range. unfold slice_step.
  apply map_ext. intros k. by rewrite Nat2Z.id.
Qed.

Lemma chunks_of_large n units :
  Z.of_nat (length units) <= n -> chunks_of n units = units.
Proof.
  intros Hn. unfold chunks_of. by rewrite (proj2 (Z.ltb_ge _ _) Hn).
Qed.

(** Chunking keeps every node. *)
Lemma chunks_partition n units :
  1 <= n -> concat (chunks_of n units) ≡ₚ concat units.
Proof.
  intros Hn. destruct (Z_lt_le_dec n (Z.of_nat (length units))) as [Hlt | Hge].
  - rewrite chunks_of_small by done.
    rewrite <- (map_map (fun k => every (Z.to_nat n) k units) (@concat string)).
    rewrite concat_concat. apply concat_Permutation.
    apply every_partition. lia.
  - by rewrite chunks_of_large.
Qed.

Lemma chunks_length n units :
  1 <= n -> Z.of_nat (length (chunks_of n units)) <= n.
Proof.
  intros Hn. destruct (Z_lt_le_dec n (Z.of_nat (length units))) as [Hlt | Hge].
  - rewrite chunks_of_small by done. rewrite length_map, length_seq. lia.
  - by rewrite chunks_of_large.
Qed.

Lemma index_nonneg {A} (l : list A) (i : Z) x :
  0 <= i -> l !! Z.to_nat i = Some x -> index l i = Ok x.
Proof.
  intros Hi Hx. unfold index.
  pose proof (lookup_lt_Some _ _ _ Hx) as Hlt.
  rewrite (proj2 (Z.ltb_ge _ _) Hi).
  rewrite (proj2 (Z.leb_le _ _) Hi).
  rewrite (proj2 (Z.ltb_lt i (Z.of_nat (length l)))) by lia.
  simpl. by rewrite Hx.
Qed.

(** For an index in range, [select_subdag] returns the subgraph of the
    chunk at that index, or nothing when there are fewer chunks. *)
Lemma select_subdag_in_range testonly dag n i :
  0 <= i < n ->
  select_subdag testonly dag n i =
  Ok (subgraph dag <$>
        chunks_of n (subdags_of testonly dag) !! Z.to_nat i).
Proof.
  intros [Hi Hin]. unfold select_subdag.
  rewrite (proj2 (Z.leb_gt _ _) Hin).
  destruct (chunks_of n (subdags_of testonly dag) !! Z.to_nat i)
    as [c |] eqn:Hc.
  - pose proof (lookup_lt_Some _ _ _ Hc) as Hlt.
    rewrite (proj2 (Z.leb_gt _ _)) by lia.
    by rewrite (index_nonneg _ _ c).
  - apply lookup_ge_None in Hc.
    by rewrite (proj2 (Z.leb_le _ _)) by lia.
Qed.

Lemma shard_nodes_in_range testonly dag n i :
  0 <= i < n ->
  shard_nodes testonly dag n i =
  match chunks_of n (subdags_of testonly dag) !! Z.to_nat i with
  | Some c => filter (fun x => x ∈ c) (nodes dag)
  | None => []
  end.
Proof.
  intros Hi. unfold shard_nodes. rewrite select_subdag_in_range by done.
  by destruct (chunks_of n (subdags_of testonly dag) !! Z.to_nat i).
Qed.

Lemma well_formedb_spec g : well_formedb g = true -> well_formed g.
Proof.
  unfold well_formedb. intros H. apply andb_true_iff in H as [Hnd He].
  apply bool_decide_eq_true in Hnd. split; [done |].
  intros a b Hab. rewrite forallb_forall in He.
  apply list_elem_of_In in Hab. apply He in Hab.
  apply andb_true_iff in Hab as [Ha Hb].
  apply bool_decide_eq_true in Ha, Hb. done.
Qed.

(** C3.  For a well-formed graph, a shard count [n >= 1] and either value of
    the test-only flag: selecting a shard with index in [0, n) never fails;
    the node sets of the shards [0 .. n-1] cover the nodes of the graph and
    are pairwise disjoint; the units are sorted, and are the single nodes
    under test-only, the connected components of the undirected graph
    otherwise; when [n] is smaller than the number of units, the unit at
    sorted position [k] lies in shard [k mod n], and otherwise shard [k] is
    the unit at position [k]. *)
Theorem shards_partition (testonly : bool) (dag : DiGraph) (n : Z) :
  well_formed dag -> 1 <= n ->
  let units := subdags_of testonly dag in
  (forall i, 0 <= i < n -> exists r, select_subdag testonly dag n i = Ok r) /\
  (forall x, x ∈ nodes dag <->
     exists i, 0 <= i < n /\ x ∈ shard_nodes testonly dag n i) /\
  (forall i j x, 0 <= i < n -> 0 <= j < n ->
     x ∈ shard_nodes testonly dag n i -> x ∈ shard_nodes testonly dag n j ->
     i = j) /\
  Sorted list_le units /\
  (testonly = true ->
     forall u, u ∈ units <-> exists v, v ∈ nodes dag /\ u = [v]) /\
  (testonly = false ->
     forall u, u ∈ units ->
       Sorted str_le u /\
       exists v, v ∈ nodes dag /\
         forall x, x ∈ u <-> rtc (has_edge (to_undirected dag)) v x) /\
  (n < Z.of_nat (length units) ->
     forall k u x, units !! k = Some u -> x ∈ u ->
       x ∈ shard_nodes testonly dag n (Z.of_nat k mod n)) /\
  (Z.of_nat (length units) <= n ->
     forall k u x, units !! k = Some u ->
       x ∈ shard_nodes testonly dag n (Z.of_nat k) <-> x ∈ u).
Proof.
  intros Hwf Hn units.
  set (chunks := chunks_of n units).
  assert (Hunits : concat units ≡ₚ nodes dag) by (by apply subdags_partition).
  assert (Hchunks : concat chunks ≡ₚ nodes dag).
  { unfold chunks. by rewrite chunks_partition. }
  assert (Hnd : NoDup (concat chunks)).
  { rewrite Hchunks. apply Hwf. }
  assert (Hshard : forall i c x, 0 <= i < n ->
            chunks !! Z.to_nat i = Some c ->
            x ∈ shard_nodes testonly dag n i <-> x ∈ c).
  { intros i c x Hi Hc. rewrite shard_nodes_in_range by done.
    fold units. fold chunks. rewrite Hc, list_elem_of_filter.
    split; [tauto |]. intros Hx. split; [done |].
    rewrite <- Hchunks. apply elem_of_concat. exists c.
    split; [| done]. by eapply list_elem_of_lookup_2. }
  assert (Hempty : forall i x, 0 <= i < n ->
            chunks !! Z.to_nat i = None ->
            x ∉ shard_nodes testonly dag n i).
  { intros i x Hi Hc. rewrite shard_nodes_in_range by done.
    fold units. fold chunks. rewrite Hc. apply not_elem_of_nil. }
  split; [| split; [| split; [| split; [| split; [| split; [| split]]]]]].
  - intros i Hi. rewrite select_subdag_in_range by done. eauto.
  - intros x. split.
    + intros Hx. rewrite <- Hchunks in Hx.
      apply elem_of_concat in Hx as (c & Hc & Hx).
      apply list_elem_of_lookup in Hc as [k Hk].
      pose proof (lookup_lt_Some _ _ _ Hk) as Hlt.
      pose proof (chunks_length n units Hn) as Hlen. fold chunks in Hlen.
      exists (Z.of_nat k). split; [lia |].
      apply (Hshard _ c); [lia | by rewrite Nat2Z.id | done].
    + intros (i & Hi & Hx). rewrite shard_nodes_in_range in Hx by done.
      destruct (chunks_of _ _ !! _); [| by apply elem_of_nil in Hx].
      by apply list_elem_of_filter in Hx as [_ Hx].
  - intros i j x Hi Hj Hxi Hxj.
    destruct (chunks !! Z.to_nat i) as [ci |] eqn:Hci;
      [| by apply Hempty in Hxi].
    destruct (chunks !! Z.to_nat j) as [cj |] eqn:Hcj;
      [| by apply Hempty in Hxj].
    apply (Hshard _ ci) in Hxi; [| done | done].
    apply (Hshard _ cj) in Hxj; [| done | done].
    pose proof (NoDup_concat_lookup chunks _ _ ci cj x Hnd Hci Hcj Hxi Hxj).
    lia.
  - unfold units, subdags_of. destruct testonly; apply Sorted_merge_sort; apply _.
  - intros ->. intros u. unfold units, subdags_of.
    rewrite (sorted_lists_Permutation _), elem_of_map.
    split; intros (v & H1 & H2); exists v; done.
  - intros ->. intros u Hu. unfold units, subdags_of in Hu.
    rewrite (sorted_lists_Permutation _), elem_of_map in Hu.
    destruct Hu as (c & -> & Hc). split.
    + apply Sorted_merge_sort. apply _.
    + destruct (connected_components_connected dag c Hwf Hc) as (v & Hv & Hcv).
      exists v. split; [done |]. intros x.
      rewrite (sorted_str_Permutation _), elem_of_elements. apply Hcv.
  - intros Hlt k u x Hk Hx.
    assert (Hmod : 0 <= Z.of_nat k mod n < n) by (apply Z.mod_pos_bound; lia).
    assert (Hc : chunks !! Z.to_nat (Z.of_nat k mod n) =
                 Some (concat (every (Z.to_nat n)
                                 (Z.to_nat (Z.of_nat k mod n)) units))).
    { unfold chunks. rewrite chunks_of_small by done.
      apply (lookup_map_seq (fun w => concat (every (Z.to_nat n) w units))).
      lia. }
    apply (proj2 (Hshard _ _ x Hmod Hc)).
    apply elem_of_concat. exists u. split; [| done].
    apply every_lookup with (q := Z.to_nat (Z.of_nat k / n)); [lia |].
    replace (Z.to_nat (Z.of_nat k mod n) +
             Z.to_nat (Z.of_nat k / n) * Z.to_nat n)%nat with k; [done |].
    pose proof (Z.div_mod (Z.of_nat k) n ltac:(lia)).
    pose proof (Z.div_pos (Z.of_nat k) n ltac:(lia) ltac:(lia)). nia.
  - intros Hge k u x Hk.
    pose proof (lookup_lt_Some _ _ _ Hk) as Hlt.
    apply Hshard; [lia |]. unfold chunks. rewrite chunks_of_large by done.
    by rewrite Nat2Z.id.
Qed.

Lemma shards_partition_witness :
  well_formed example_dag /\ 1 <= 2 /\
  forall x, x ∈ nodes example_dag <->
    exists i, 0 <= i < 2 /\ x ∈ shard_nodes false example_dag 2 i.
Proof.
  assert (H : well_formed example_dag)
    by (apply well_formedb_spec; reflexivity).
  split; [exact H |]. split; [lia |].
  exact (proj1 (proj2 (shards_partition false example_dag 2 H ltac:(lia)))).
Defined.

(** The scenario of the specification: with two shards the units [A] and
    [D] go to shard 0 and the unit [B, C] to shard 1; index 2 is refused. *)
Example shards_of_example :
  subdags_of false example_dag = [["A"]; ["B"; "C"]; ["D"]] /\
  shard_nodes false example_dag 2 0 = ["A"; "D"] /\
  shard_nodes false example_dag 2 1 = ["B"; "C"] /\
  select_subdag false example_dag 2 2 = Raise ValueError.
Proof. vm_compute. done. Qed.

(* ===================================================================== *)
(** * Facts about computations *)
(* ===================================================================== *)

Lemma bind_inv {A B} (m : M A) (f : A -> M B) tr tr' r :
  bind m f tr = (tr', r) ->
  (exists a tr1, m tr = (tr1, Ok a) /\ f a tr1 = (tr', r)) \/
  (exists e, m tr = (tr', Raise e) /\ r = Raise e).
Proof.
  unfold bind. destruct (m tr) as [tr1 [a | e]]; intros H.
  - left. eauto.
  - right. injection H as <- <-. eauto.
Qed.

Lemma bind_ok_inv {A B} (m : M A) (f : A -> M B) tr tr' b :
  bind m f tr = (tr', Ok b) ->
  exists a tr1, m tr = (tr1, Ok a) /\ f a tr1 = (tr', Ok b).
Proof.
  intros H. apply bind_inv in H as [H | (e & _ & H)]; [done | discriminate].
Qed.

Lemma call_inv {A} (ask : trace -> result A) ev tr tr' r :
  call ask ev tr = (tr', r) -> tr' = tr ++ [ev r] /\ r = ask tr.
Proof. unfold call. by intros [= <- <-]. Qed.

Lemma lift_inv {A} (x : result A) tr tr' r :
  lift x tr = (tr', r) -> tr' = tr /\ r = x.
Proof. unfold lift. by intros [= <- <-]. Qed.

Lemma ret_inv {A} (a : A) tr tr' r :
  ret a tr = (tr', r) -> tr' = tr /\ r = Ok a.
Proof. unfold ret. by intros [= <- <-]. Qed.

Lemma marks_app tr1 tr2 : marks (tr1 ++ tr2) = marks tr1 ++ marks tr2.
Proof. apply omap_app. Qed.

Lemma failed_uploads_app (tr1 tr2 : trace) :
  omap failed_upload_of (tr1 ++ tr2) =
  omap failed_upload_of tr1 ++ omap failed_upload_of tr2.
Proof. apply omap_app. Qed.

(** Case analysis on the scrutinee of an innermost [match] of the goal. *)
Ltac destruct_innermost :=
  match goal with
  | |- context [match ?x with _ => _ end] =>
      lazymatch x with
      | context [match _ with _ => _ end] => fail
      | _ => destruct x eqn:?
      end
  end.

Section BuildFacts.

Context (W : World).

Lemma build_cmd_not_purge testonly channels recipe :
  ["conda"; "build"] ++ build_args_of testonly ++
    channel_args_of channels ++ [recipe] <> purge_cmd.
Proof. destruct testonly; simpl; unfold purge_cmd; intros [=]. Qed.

Lemma marks_build_run testonly channels recipe e r :
  marks [EvRun (["conda"; "build"] ++ build_args_of testonly ++
                  channel_args_of channels ++ [recipe]) e r] = [MAttempt].
Proof.
  unfold marks. cbn [omap list_omap mark_of].
  by rewrite (bool_decide_eq_false_2 _ (build_cmd_not_purge _ _ _)).
Qed.

(** What a call of [build] adds to the trace: exactly one start of a
    build, no purge and no upload. *)
Lemma build_trace recipe e testonly mulled_test channels docker dis tr tr' r :
  build W recipe e testonly mulled_test channels docker dis tr = (tr', r) ->
  exists ext, tr' = tr ++ ext /\ marks ext = [MAttempt] /\
    Forall (fun ev => is_upload ev = false) ext.
Proof.
  unfold build, build_try, bind, try_except, call, ret.
  cbn [find_handler].
  repeat (destruct_innermost; cbn beta iota zeta);
    intros [= <- <-];
    rewrite <- ?app_assoc; eexists; (split; [reflexivity |]);
    cbn [app]; rewrite ?marks_app, ?marks_build_run;
    (split; [reflexivity |]); by repeat constructor.
Qed.

End BuildFacts.

Section LoopFacts.

Context (W : World) (opts : Options) (subdag : DiGraph).
Context (recipe2name : gmap string string).
Context (recipe_targets : gmap string (list Target)).

Lemma purge_inv tr tr' r :
  purge W tr = (tr', r) ->
  tr' = tr ++ [EvRun purge_cmd None r] /\ r = run W tr purge_cmd None.
Proof. unfold purge. intros H. by apply call_inv in H. Qed.

Lemma marks_purge r : marks [EvRun purge_cmd None r] = [MPurge].
Proof.
  unfold marks. cbn [omap list_omap mark_of].
  by rewrite bool_decide_eq_true_2.
Qed.

(** The uploads touch nothing but the list of failed uploads, which gets
    the package when the artifact upload reports failure, and only then. *)
Lemma upload_build_spec st t res tr tr' r :
  upload_build W opts st t res tr = (tr', r) ->
  exists ext, tr' = tr ++ ext /\ marks ext = [] /\
    match r with
    | Ok st' =>
        failed st' = failed st /\
        built_recipes st' = built_recipes st /\
        skipped_recipes st' = skipped_recipes st /\
        all_success st' = all_success st /\
        skip_dependent st' = skip_dependent st /\
        failed_uploads st' = failed_uploads st ++ omap failed_upload_of ext /\
        (opt_anaconda_upload opts = true ->
           exists o, EvAnacondaUpload (target_pkg t) (opt_label opts) (Ok o)
                     ∈ ext) /\
        (forall tgt, opt_mulled_upload_target opts = Some tgt ->
           str_truthy tgt = true ->
           exists o, EvMulledUpload (mulled_image res) tgt (Ok o) ∈ ext)
    | Raise _ => True
    end.
Proof.
  unfold upload_build, bind, call, ret.
  repeat (destruct_innermost; cbn beta iota zeta);
    intros [= <- <-]; rewrite <- ?app_assoc;
    eexists; (split; [reflexivity || (symmetry; apply app_nil_r) |]);
    (split; [reflexivity |]); try done;
    repeat match goal with
           | H : negb ?a = _ |- _ => destruct a; try discriminate H; clear H
           end;
    cbn; rewrite ?app_nil_r;
    repeat split; try done;
    try (intros _; eexists; apply list_elem_of_here);
    intros tgt' [= <-] Htgt; try congruence;
    eexists; rewrite ?elem_of_cons; eauto.
Qed.

(** The ledger after a failure of [recipe]: the entries of the descendants
    [ds] have [recipe] appended, the others are as before. *)
Lemma fold_ledger_append_spec ds m recipe n :
  let m' := fold_left (fun m' d => ledger_append m' d recipe) ds m in
  (n ∉ ds -> m' !! n = m !! n) /\
  (n ∈ ds -> exists k, (1 <= k)%nat /\
     m' !! n = Some (default [] (m !! n) ++ replicate k recipe)).
Proof.
  revert m. induction ds as [| d ds IH]; intros m; simpl.
  - split; [done |]. intros Hn. by apply elem_of_nil in Hn.
  - destruct (IH (ledger_append m d recipe)) as [IH1 IH2]. split.
    + intros Hn. apply not_elem_of_cons in Hn as [Hne Hn].
      rewrite IH1 by done. unfold ledger_append.
      by rewrite lookup_insert_ne.
    + intros Hn. destruct (decide (n ∈ ds)) as [Hin | Hnin].
      * destruct (IH2 Hin) as (k & Hk & ->).
        unfold ledger_append. destruct (decide (d = n)) as [-> | Hne].
        -- rewrite lookup_insert_eq. simpl. exists (S k). split; [lia |].
           by rewrite <- app_assoc.
        -- rewrite lookup_insert_ne by done. eauto.
      * apply elem_of_cons in Hn as [-> | Hn]; [| done].
        rewrite IH1 by done. unfold ledger_append.
        rewrite lookup_insert_eq. exists 1%nat. split; [lia | done].
Qed.

(** One pass of the loop over the targets.  When it returns, the build was
    started once and the purge followed; the recipe is either recorded as
    failed, with its descendants blocked, or left unmarked, with the
    uploads done. *)
Lemma attempt_target_spec recipe name st ok t tr tr' r :
  attempt_target W opts subdag recipe name (st, ok) t tr = (tr', r) ->
  exists ext, tr' = tr ++ ext /\
    match r with
    | Ok (st', ok') =>
        marks ext = [MAttempt; MPurge] /\
        built_recipes st' = built_recipes st /\
        skipped_recipes st' = skipped_recipes st /\
        failed_uploads st' = failed_uploads st ++ omap failed_upload_of ext /\
        ((ok' = false /\ all_success st' = false /\
          failed st' = failed st ++ [(recipe, t)] /\
          Forall (fun ev => is_upload ev = false) ext /\
          exists ds, descendants subdag name = Ok ds /\
            skip_dependent st' =
            fold_left (fun m n => ledger_append m n recipe) ds
              (skip_dependent st))
         \/
         (ok' = ok /\ all_success st' = all_success st /\
          failed st' = failed st /\
          skip_dependent st' = skip_dependent st /\
          (opt_testonly opts = false -> opt_anaconda_upload opts = true ->
             exists o, EvAnacondaUpload (target_pkg t) (opt_label opts) (Ok o)
                       ∈ ext)))
    | Raise _ => marks ext = [MAttempt] \/ marks ext = [MAttempt; MPurge]
    end.
Proof.
  unfold attempt_target. cbn [fst snd]. intros H.
  apply bind_inv in H as [(res & tr1 & Hb & H) | (e & Hb & ->)].
  2: { apply build_trace in Hb as (ext & -> & Hm & _). eauto. }
  apply build_trace in Hb as (ext1 & -> & Hm1 & Hup1).
  assert (Hfu1 : omap failed_upload_of ext1 = []).
  { clear -Hup1. induction Hup1 as [| ev l Hev _ IH]; [done |].
    cbn. rewrite IH. by destruct ev. }
  apply bind_inv in H as [(st2 & tr2 & Hmid & H) | (e & Hmid & ->)].
  - assert (Hmid' : exists ext2, tr2 = (tr ++ ext1) ++ ext2 /\ marks ext2 = [] /\
              built_recipes st2 = built_recipes st /\
              skipped_recipes st2 = skipped_recipes st /\
              failed_uploads st2 =
                failed_uploads st ++ omap failed_upload_of ext2 /\
              ((success res = false /\ ext2 = [] /\ all_success st2 = false /\
                failed st2 = failed st ++ [(recipe, t)] /\
                exists ds, descendants subdag name = Ok ds /\
                  skip_dependent st2 =
                  fold_left (fun m n => ledger_append m n recipe) ds
                    (skip_dependent st))
               \/
               (success res = true /\ all_success st2 = all_success st /\
                failed st2 = failed st /\
                skip_dependent st2 = skip_dependent st /\
                (opt_testonly opts = false ->
                 opt_anaconda_upload opts = true ->
                 exists o, EvAnacondaUpload (target_pkg t) (opt_label opts)
                             (Ok o) ∈ ext2)))).
    { destruct (success res) eqn:Hs; cbn [negb] in Hmid.
      - destruct (opt_testonly opts) eqn:Hto; cbn [negb] in Hmid.
        + apply ret_inv in Hmid as [-> [= ->]]. exists [].
          rewrite app_nil_r. cbn. rewrite app_nil_r, andb_true_r.
          repeat split; try done. right. repeat split; done.
        + apply upload_build_spec in Hmid
            as (ext2 & -> & Hm2 & Hf & Hb & Hsk & Has & Hsd & Hfu & Han & _).
          exists ext2. cbn in *. rewrite andb_true_r in Has.
          repeat split; try done. right. repeat split; done.
      - apply lift_inv in Hmid as [-> Hrf]. unfold record_failure in Hrf.
        destruct (descendants subdag name) as [ds |] eqn:Hds; [| done].
        injection Hrf as ->. exists []. rewrite app_nil_r. cbn.
        rewrite app_nil_r, andb_false_r.
        repeat split; try done. left. repeat split; try done. eauto. }
    destruct Hmid' as (ext2 & -> & Hm2 & Hbu & Hsk & Hfu & Hcase).
    apply bind_inv in H as [(u & tr3 & Hp & H) | (e & Hp & ->)].
    + apply purge_inv in Hp as [-> _]. apply ret_inv in H as [-> ->].
      exists (ext1 ++ ext2 ++ [EvRun purge_cmd None (Ok u)]).
      split; [by rewrite <- !app_assoc |].
      rewrite !marks_app, Hm1, Hm2, marks_purge. split; [done |].
      split; [done |]. split; [done |]. split.
      { rewrite !failed_uploads_app, Hfu1, Hfu. cbn. by rewrite app_nil_r. }
      destruct Hcase as [(Hs & -> & Has & Hf & Hds) | (Hs & Has & Hf & Hsd & Han)].
      * left. rewrite Hs, andb_false_r. repeat split; try done.
        rewrite app_nil_l. apply Forall_app. split; [done |].
        by repeat constructor.
      * right. rewrite Hs, andb_true_r. repeat split; try done.
        intros H1 H2. destruct (Han H1 H2) as [o Ho]. exists o.
        rewrite !elem_of_app. auto.
    + apply purge_inv in Hp as [-> _].
      exists (ext1 ++ ext2 ++ [EvRun purge_cmd None (Raise e)]).
      split; [by rewrite <- !app_assoc |].
      rewrite !marks_app, Hm1, Hm2, marks_purge. by right.
  - assert (exists ext2, tr' = (tr ++ ext1) ++ ext2 /\ marks ext2 = [])
      as (ext2 & -> & Hm2).
    { destruct (success res); cbn [negb] in Hmid.
      - destruct (opt_testonly opts); cbn [negb] in Hmid.
        + by apply ret_inv in Hmid as [_ [=]].
        + apply upload_build_spec in Hmid as (ext2 & -> & Hm2 & _). eauto.
      - apply lift_inv in Hmid as [-> _]. exists []. by rewrite app_nil_r. }
    exists (ext1 ++ ext2). split; [by rewrite <- app_assoc |].
    rewrite marks_app, Hm1, Hm2. by left.
Qed.

Lemma ledger_blocked_trans recipe ds m m1 m2 :
  ledger_blocked recipe ds m m1 -> ledger_blocked recipe ds m1 m2 ->
  ledger_blocked recipe ds m m2.
Proof.
  intros H1 H2 n. destruct (H1 n) as [H1a H1b], (H2 n) as [H2a H2b]. split.
  - intros Hn. by rewrite H2a, H1a.
  - intros Hn. destruct (H1b Hn) as (k1 & Hk1 & E1).
    destruct (H2b Hn) as (k2 & Hk2 & E2). exists (k1 + k2)%nat.
    split; [lia |]. rewrite E2, E1. simpl.
    by rewrite <- app_assoc, replicate_add.
Qed.

Lemma purged_attempts_snoc k :
  purged_attempts k ++ [MAttempt; MPurge] = purged_attempts (S k).
Proof. induction k as [| k IH]; simpl; [done |]. by rewrite IH. Qed.

Lemma purged_attempts_add j k :
  purged_attempts j ++ purged_attempts k = purged_attempts (j + k).
Proof. induction j as [| j IH]; simpl; [done |]. by rewrite IH. Qed.

(** The loop over the targets of one recipe.  [fts] are the targets whose
    build failed. *)
Lemma attempt_targets_spec recipe name ts st ok tr tr' r :
  attempt_targets W opts subdag recipe name (st, ok) ts tr = (tr', r) ->
  exists ext, tr' = tr ++ ext /\
    match r with
    | Ok (st', ok') =>
        marks ext = purged_attempts (length ts) /\
        built_recipes st' = built_recipes st /\
        skipped_recipes st' = skipped_recipes st /\
        failed_uploads st' = failed_uploads st ++ omap failed_upload_of ext /\
        exists fts,
          failed st' = failed st ++ map (pair recipe) fts /\
          (forall t, t ∈ fts -> t ∈ ts) /\
          ok' = ok && bool_decide (fts = []) /\
          all_success st' = all_success st && bool_decide (fts = []) /\
          ((fts = [] /\ skip_dependent st' = skip_dependent st) \/
           (fts <> [] /\ exists ds, descendants subdag name = Ok ds /\
              ledger_blocked recipe ds (skip_dependent st)
                (skip_dependent st'))) /\
          (opt_testonly opts = false -> opt_anaconda_upload opts = true ->
           forall t, t ∈ ts -> t ∈ fts \/
             exists o, EvAnacondaUpload (target_pkg t) (opt_label opts) (Ok o)
                       ∈ ext)
    | Raise _ =>
        exists k, marks ext = purged_attempts k ++ [MAttempt] \/
                  marks ext = purged_attempts (S k)
    end.
Proof.
  revert st ok tr. induction ts as [| t ts IH]; intros st ok tr; simpl.
  - intros H. apply ret_inv in H as [-> ->]. exists []. rewrite app_nil_r.
    split; [done |]. cbn. rewrite app_nil_r. do 4 (split; [done |]).
    exists []. cbn. rewrite app_nil_r, !andb_true_r.
    split; [done |]. split; [intros t Ht; by apply elem_of_nil in Ht |].
    split; [done |]. split; [done |]. split; [by left |].
    intros _ _ t Ht. by apply elem_of_nil in Ht.
  - intros H. apply bind_inv in H as [([st1 ok1] & tr1 & Hhd & H) | (e & Hhd & ->)].
    2: { apply attempt_target_spec in Hhd as (ext & -> & Hm). exists ext.
         split; [done |]. exists 0%nat. simpl. exact Hm. }
    apply attempt_target_spec in Hhd
      as (ext1 & -> & Hm1 & Hb1 & Hs1 & Hfu1 & Hcase).
    apply IH in H as (ext2 & -> & H). exists (ext1 ++ ext2).
    split; [by rewrite <- app_assoc |].
    destruct r as [[st' ok'] | e].
    2: { destruct H as [k [H | H]]; exists (S k); rewrite marks_app, Hm1, H.
         - by left.
         - by right. }
    destruct H as (Hm2 & Hb2 & Hs2 & Hfu2 & fts & Hf2 & Hsub & Hok & Has & Hled & Hup).
    rewrite marks_app, Hm1, Hm2. split; [done |].
    split; [congruence |]. split; [congruence |].
    split. { rewrite Hfu2, Hfu1, failed_uploads_app. by rewrite <- app_assoc. }
    destruct Hcase as [(-> & Has1 & Hf1 & Hnoup & ds & Hds & Hled1)
                      | (-> & Has1 & Hf1 & Hled1 & Hup1)].
    + exists (t :: fts). rewrite Hf2, Hf1, <- app_assoc. split; [done |].
      split. { intros x Hx. apply elem_of_cons in Hx as [-> | Hx];
               [by left | right; by apply Hsub]. }
      rewrite (bool_decide_eq_false_2 (t :: fts = [])) by done.
      rewrite !andb_false_r. split; [by rewrite Hok |].
      split; [by rewrite Has, Has1 |]. split.
      * right. split; [done |].
        assert (Hb1' : ledger_blocked recipe ds (skip_dependent st)
                         (skip_dependent st1)).
        { intros n. rewrite Hled1. apply fold_ledger_append_spec. }
        destruct Hled as [[-> ->] | (_ & ds' & Hds' & Hb')].
        -- exists ds. by split.
        -- rewrite Hds in Hds'. injection Hds' as <-.
           exists ds. split; [done |]. by eapply ledger_blocked_trans.
      * intros H1 H2 x Hx. apply elem_of_cons in Hx as [-> | Hx].
        -- left. by left.
        -- destruct (Hup H1 H2 x Hx) as [Hin | [o Ho]].
           ++ left. by right.
           ++ right. exists o. apply elem_of_app. by right.
    + exists fts. rewrite Hf2, Hf1. split; [done |].
      split. { intros x Hx. right. by apply Hsub. }
      split; [done |]. split; [by rewrite Has, Has1 |]. split.
      * rewrite <- Hled1. exact Hled.
      * intros H1 H2 x Hx. apply elem_of_cons in Hx as [-> | Hx].
        -- right. destruct (Hup1 H1 H2) as [o Ho]. exists o.
           apply elem_of_app. by left.
        -- destruct (Hup H1 H2 x Hx) as [Hin | [o Ho]]; [by left |].
           right. exists o. apply elem_of_app. by right.
Qed.

(** One pass of the loop over the recipes. *)
Lemma process_recipe_spec st r tr tr' res :
  process_recipe W opts subdag recipe2name recipe_targets st r tr = (tr', res) ->
  exists ext, tr' = tr ++ ext /\
    match res with
    | Ok st' => step opts subdag recipe2name recipe_targets st r ext st'
    | Raise _ =>
        exists k, marks ext = purged_attempts k \/
                  marks ext = purged_attempts k ++ [MAttempt]
    end.
Proof.
  unfold process_recipe, map_get. intros H.
  apply bind_inv in H as [(name & tr1 & Hn & H) | (e & Hn & ->)].
  2: { apply lift_inv in Hn as [-> _]. exists []. rewrite app_nil_r.
       split; [done |]. exists 0%nat. by left. }
  apply lift_inv in Hn as [-> Hn].
  destruct (recipe2name !! r) as [name' |] eqn:Hname; [| done].
  injection Hn as ->.
  destruct (skip_dependent st !! name') as [blockers |] eqn:Hskip.
  - apply ret_inv in H as [-> ->]. exists []. rewrite app_nil_r.
    split; [done |]. by eapply step_skip.
  - apply bind_inv in H as [(ts & tr1 & Hts & H) | (e & Hts & ->)].
    2: { apply lift_inv in Hts as [-> _]. exists []. rewrite app_nil_r.
         split; [done |]. exists 0%nat. by left. }
    apply lift_inv in Hts as [-> Hts].
    destruct (recipe_targets !! r) as [ts' |] eqn:Htargets; [| done].
    injection Hts as ->.
    apply bind_inv in H as [([st1 ok1] & tr1 & Hat & H) | (e & Hat & ->)].
    2: { apply attempt_targets_spec in Hat as (ext & -> & k & Hm).
         exists ext. split; [done |]. destruct Hm as [Hm | Hm].
         - exists k. by right.
         - exists (S k). by left. }
    apply attempt_targets_spec in Hat
      as (ext & -> & Hm & Hb & Hs & Hfu & fts & Hf & Hsub & Hok & Has & Hled & Hup).
    apply ret_inv in H as [-> ->]. exists ext. split; [done |].
    cbn [fst snd]. rewrite andb_true_l in Hok. subst ok1.
    eapply (step_attempt _ _ _ _ _ _ name' ts' fts); try done.
    + by destruct (bool_decide (fts = [])).
    + destruct (bool_decide (fts = [])); simpl; [| by rewrite Hf].
      by rewrite Hf.
    + destruct (bool_decide (fts = [])); simpl; [by rewrite Hb |].
      by rewrite Hb, app_nil_r.
    + by destruct (bool_decide (fts = [])).
    + by destruct (bool_decide (fts = [])).
    + by destruct (bool_decide (fts = [])).
Qed.

(** The loop over the recipes: when it completes, it made the passes for
    the recipes in order; when a collaborator raises, every build started
    before was purged, and at most the last one was not. *)
Lemma process_recipes_spec recipes st tr tr' res :
  process_recipes W opts subdag recipe2name recipe_targets st recipes tr
    = (tr', res) ->
  exists ext, tr' = tr ++ ext /\
    match res with
    | Ok st' => steps opts subdag recipe2name recipe_targets st recipes ext st'
    | Raise _ =>
        exists k, marks ext = purged_attempts k \/
                  marks ext = purged_attempts k ++ [MAttempt]
    end.
Proof.
  revert st tr. induction recipes as [| r rs IH]; intros st tr; simpl.
  - intros H. apply ret_inv in H as [-> ->]. exists []. rewrite app_nil_r.
    split; [done | constructor].
  - intros H. apply bind_inv in H as [(st1 & tr1 & Hr & H) | (e & Hr & ->)].
    2: { by apply process_recipe_spec in Hr. }
    apply process_recipe_spec in Hr as (ext1 & -> & Hstep).
    apply IH in H as (ext2 & -> & H). exists (ext1 ++ ext2).
    split; [by rewrite <- app_assoc |]. destruct res as [st' | e].
    + by econstructor.
    + assert (Hm1 : exists j, marks ext1 = purged_attempts j).
      { destruct Hstep; [by exists 0%nat | eauto]. }
      destruct Hm1 as [j Hj]. destruct H as [k [H | H]];
        exists (j + k)%nat; rewrite marks_app, Hj, H.
      * left. apply purged_attempts_add.
      * right. by rewrite app_assoc, purged_attempts_add.
Qed.

End LoopFacts.

(* ===================================================================== *)
(** * Facts about completed runs of the loop *)
(* ===================================================================== *)

Section StepFacts.

Context (opts : Options) (subdag : DiGraph).
Context (recipe2name : gmap string string).
Context (recipe_targets : gmap string (list Target)).

Local Abbreviation step := (step opts subdag recipe2name recipe_targets).
Local Abbreviation steps := (steps opts subdag recipe2name recipe_targets).

(** What a pass adds to the three lists: the recipe goes to exactly one of
    built, skipped and failed. *)
Lemma step_lists st r ext st' :
  step st r ext st' ->
  exists bs ss fs,
    built_recipes st' = built_recipes st ++ bs /\
    skipped_recipes st' = skipped_recipes st ++ ss /\
    failed st' = failed st ++ fs /\
    ((bs = [r] /\ ss = [] /\ fs = []) \/
     (bs = [] /\ ss = [r] /\ fs = []) \/
     (bs = [] /\ ss = [] /\ fs <> [] /\ forall x, x ∈ fs -> x.1 = r)).
Proof.
  intros [name blockers Hn Hs | name ts fts ext' st'' Hn Hs Hts Hm Hsk Hf Hsub Hb _ _ _ _].
  - exists [], [r], []. cbn. rewrite !app_nil_r. auto 10.
  - destruct fts as [| t fts].
    + exists [r], [], []. rewrite Hb, Hsk, Hf. cbn.
      rewrite !app_nil_r. auto 10.
    + exists [], [], (map (pair r) (t :: fts)). rewrite Hb, Hsk, Hf. cbn.
      rewrite !app_nil_r. split; [done |]. split; [done |]. split; [done |].
      right. right. repeat split; try done.
      intros x Hx. change ((r, t) :: map (pair r) fts)
        with (map (pair r) (t :: fts)) in Hx.
      apply elem_of_map in Hx as (y & -> & _). done.
Qed.

Lemma steps_app_inv l1 l2 st ext st' :
  steps st (l1 ++ l2) ext st' ->
  exists ext1 st1 ext2,
    ext = ext1 ++ ext2 /\ steps st l1 ext1 st1 /\ steps st1 l2 ext2 st'.
Proof.
  revert st ext. induction l1 as [| r l1 IH]; intros st ext H; simpl in H.
  - exists [], st, ext. split; [done |]. split; [constructor | done].
  - inversion H as [| ? ? e1 s1 ? e2 ? Hstep Hrest]; subst.
    apply IH in Hrest as (e21 & s2 & e22 & -> & H1 & H2).
    exists (e1 ++ e21), s2, e22. split; [by rewrite app_assoc |].
    split; [by econstructor | done].
Qed.

(** In a completed run every build that was started was purged before the
    next call of conda-build. *)
Lemma steps_marks st rs ext st' :
  steps st rs ext st' -> exists k, marks ext = purged_attempts k.
Proof.
  induction 1 as [| st r ext1 st1 rs ext2 st2 Hstep _ [k IH]].
  - by exists 0%nat.
  - assert (exists j, marks ext1 = purged_attempts j) as [j Hj].
    { destruct Hstep; [by exists 0%nat | eauto]. }
    exists (j + k)%nat. rewrite marks_app, Hj, IH. apply purged_attempts_add.
Qed.

(** The failed uploads are the artifact uploads that reported failure. *)
Lemma steps_failed_uploads st rs ext st' :
  steps st rs ext st' ->
  failed_uploads st' = failed_uploads st ++ omap failed_upload_of ext.
Proof.
  induction 1 as [| st r ext1 st1 rs ext2 st2 Hstep _ IH].
  - by rewrite app_nil_r.
  - rewrite IH, failed_uploads_app, app_assoc. f_equal.
    destruct Hstep; [cbn; by rewrite app_nil_r | done].
Qed.

(** The three lists after a completed run: every recipe of the run is in
    one of them, and in one only when no recipe occurs twice. *)
Lemma steps_lists st rs ext st' :
  steps st rs ext st' ->
  exists bs ss fs,
    built_recipes st' = built_recipes st ++ bs /\
    skipped_recipes st' = skipped_recipes st ++ ss /\
    failed st' = failed st ++ fs /\
    (forall r, r ∈ rs <-> r ∈ bs \/ r ∈ ss \/ r ∈ map fst fs) /\
    (NoDup rs -> forall r,
       (r ∈ bs -> (r ∉ ss) /\ (r ∉ map fst fs)) /\
       (r ∈ ss -> r ∉ map fst fs)).
Proof.
  induction 1 as [| st r ext1 st1 rs ext2 st2 Hstep _ IH].
  - exists [], [], []. rewrite !app_nil_r. repeat split; try done.
    + intros Hr. by apply elem_of_nil in Hr.
    + intros [Hr | [Hr | Hr]]; by apply elem_of_nil in Hr.
    + intros Hr. by apply elem_of_nil in Hr.
    + intros Hr. by apply elem_of_nil in Hr.
    + intros Hr. by apply elem_of_nil in Hr.
  - destruct IH as (bs2 & ss2 & fs2 & Hb2 & Hs2 & Hf2 & Hall & Hdisj).
    apply step_lists in Hstep
      as (bs1 & ss1 & fs1 & Hb1 & Hs1 & Hf1 & Hcase).
    exists (bs1 ++ bs2), (ss1 ++ ss2), (fs1 ++ fs2).
    rewrite Hb2, Hb1, Hs2, Hs1, Hf2, Hf1, <- !app_assoc.
    split; [done |]. split; [done |]. split; [done |].
    assert (Hfst : forall x, x ∈ map fst fs1 -> x = r).
    { intros x Hx. apply elem_of_map in Hx as (y & -> & Hy).
      destruct Hcase as [(_ & _ & ->) | [(_ & _ & ->) | (_ & _ & _ & H)]];
        try by apply elem_of_nil in Hy. by apply H. }
    assert (Hone : r ∈ bs1 \/ r ∈ ss1 \/ r ∈ map fst fs1).
    { destruct Hcase as [(-> & _) | [(_ & -> & _) | (_ & _ & Hne & H)]].
      - left. by left.
      - right. left. by left.
      - right. right. destruct fs1 as [| [x t] fs1]; [done |].
        rewrite <- (H (x, t)) by left. by left. }
    split.
    + intros x. rewrite elem_of_cons, Hall, map_app, !elem_of_app. split.
      * intros [-> | H]; [| tauto]. tauto.
      * intros H. destruct (decide (x = r)) as [-> | Hne]; [by left | right].
        destruct H as [[H | H] | [[H | H] | [H | H]]]; try tauto;
          exfalso; apply Hne.
        -- destruct Hcase as [(-> & _) | [(-> & _) | (-> & _)]];
             [by apply list_elem_of_singleton in H | by apply elem_of_nil in H ..].
        -- destruct Hcase as [(_ & -> & _) | [(_ & -> & _) | (_ & -> & _)]];
             [by apply elem_of_nil in H | by apply list_elem_of_singleton in H
             | by apply elem_of_nil in H].
        -- by apply Hfst.
    + intros Hnd x. apply NoDup_cons in Hnd as [Hr Hnd].
      specialize (Hdisj Hnd x). rewrite map_app, !elem_of_app.
      assert (Hfresh : x = r ->
                (x ∉ bs2) /\ (x ∉ ss2) /\ (x ∉ map fst fs2)).
      { intros ->. repeat split; intros Hin; apply Hr, Hall; tauto. }
      assert (Hb : x ∈ bs1 -> x = r /\ ss1 = [] /\ fs1 = []).
      { intros Hx. destruct Hcase as [(-> & -> & ->) | [(-> & _) | (-> & _)]];
          [by apply list_elem_of_singleton in Hx | by apply elem_of_nil in Hx ..]. }
      assert (Hs : x ∈ ss1 -> x = r /\ bs1 = [] /\ fs1 = []).
      { intros Hx. destruct Hcase as [(_ & -> & _) | [(-> & -> & ->) | (_ & -> & _)]];
          [by apply elem_of_nil in Hx | by apply list_elem_of_singleton in Hx
          | by apply elem_of_nil in Hx]. }
      assert (Hf : x ∈ map fst fs1 -> x = r /\ bs1 = [] /\ ss1 = []).
      { intros Hx. split; [by apply Hfst |].
        destruct Hcase as [(_ & _ & ->) | [(_ & _ & ->) | (-> & -> & _)]];
          [by apply elem_of_nil in Hx .. | done]. }
      split.
      * intros [Hx | Hx].
        -- destruct (Hb Hx) as (-> & -> & ->).
           destruct (Hfresh eq_refl) as (_ & H2 & H3). cbn.
           split; intros [H | H]; try done; by apply elem_of_nil in H.
        -- destruct Hdisj as [Hd _]. destruct (Hd Hx) as [H2 H3].
           split; intros [H | H]; try done.
           ++ destruct (Hs H) as (-> & _).
              destruct (Hfresh eq_refl) as (H1 & _). by apply H1.
           ++ destruct (Hf H) as (-> & _).
              destruct (Hfresh eq_refl) as (H1 & _). by apply H1.
      * intros [Hx | Hx].
        -- destruct (Hs Hx) as (-> & -> & ->).
           destruct (Hfresh eq_refl) as (_ & _ & H3). cbn.
           intros [H | H]; [by apply elem_of_nil in H | done].
        -- destruct Hdisj as [_ Hd]. intros [H | H]; [| by apply Hd].
           destruct (Hf H) as (-> & _).
           destruct (Hfresh eq_refl) as (_ & H2 & _). by apply H2.
Qed.

Lemma steps_mono st rs ext st' :
  steps st rs ext st' ->
  (forall x, x ∈ built_recipes st -> x ∈ built_recipes st') /\
  (forall x, x ∈ skipped_recipes st -> x ∈ skipped_recipes st') /\
  (forall x, x ∈ failed st -> x ∈ failed st').
Proof.
  intros H. apply steps_lists in H as (bs & ss & fs & -> & -> & -> & _).
  repeat split; intros x Hx; apply elem_of_app; by left.
Qed.

Lemma ledger_blocked_mono r ds m m' n l :
  ledger_blocked r ds m m' -> m !! n = Some l ->
  exists l', m' !! n = Some (l ++ l').
Proof.
  intros H Hl. destruct (H n) as [H1 H2].
  destruct (decide (n ∈ ds)) as [Hin | Hnin].
  - destruct (H2 Hin) as (k & _ & ->). rewrite Hl. simpl. eauto.
  - rewrite H1, Hl by done. exists []. by rewrite app_nil_r.
Qed.

(** The ledger only grows: a name stays blocked, with its blockers. *)
Lemma step_ledger_mono st r ext st' n l :
  step st r ext st' -> skip_dependent st !! n = Some l ->
  exists l', skip_dependent st' !! n = Some (l ++ l').
Proof.
  intros [name blockers Hn Hs
         | name ts fts ext' st'' Hn Hs Hts Hm Hsk Hf Hsub Hb _ _ Hled _] Hl.
  - exists []. by rewrite app_nil_r.
  - destruct Hled as [[_ ->] | (_ & ds & _ & Hbl)].
    + exists []. by rewrite app_nil_r.
    + by eapply ledger_blocked_mono.
Qed.

Lemma steps_ledger_mono st rs ext st' n l :
  steps st rs ext st' -> skip_dependent st !! n = Some l ->
  exists l', skip_dependent st' !! n = Some (l ++ l').
Proof.
  intros H. revert l.
  induction H as [| st r ext1 st1 rs ext2 st2 Hstep _ IH]; intros l Hl.
  - exists []. by rewrite app_nil_r.
  - destruct (step_ledger_mono _ _ _ _ _ _ Hstep Hl) as [l1 Hl1].
    destruct (IH _ Hl1) as [l2 Hl2]. exists (l1 ++ l2).
    by rewrite app_assoc.
Qed.

(** A failure recorded during a pass blocks every descendant of the
    recipe's name, with the recipe as a blocker. *)
Lemma step_ledger_propagate st r ext st' b t :
  step st r ext st' -> (b, t) ∈ failed st' ->
  (b, t) ∈ failed st \/
  (b = r /\
   forall name ds n, recipe2name !! b = Some name ->
     descendants subdag name = Ok ds -> n ∈ ds ->
     exists l, skip_dependent st' !! n = Some l /\ b ∈ l).
Proof.
  intros [name blockers Hn Hs
         | name ts fts ext' st'' Hn Hs Hts Hm Hsk Hf Hsub Hb _ _ Hled _] Hin.
  - by left.
  - rewrite Hf in Hin. apply elem_of_app in Hin as [Hin | Hin]; [by left |].
    right. apply elem_of_map in Hin as (t' & [= -> ->] & Ht').
    split; [done |]. intros name' ds' n Hn' Hds' Hnds.
    rewrite Hn in Hn'. injection Hn' as <-.
    destruct Hled as [[-> _] | (_ & ds & Hds & Hbl)];
      [by apply elem_of_nil in Ht' |].
    rewrite Hds in Hds'. injection Hds' as <-.
    destruct (Hbl n) as [_ H2]. destruct (H2 Hnds) as (k & Hk & ->).
    eexists. split; [done |]. apply elem_of_app. right.
    destruct k as [| k]; [lia |]. by left.
Qed.

Lemma steps_ledger_propagate st rs ext st' b t :
  steps st rs ext st' -> (b, t) ∈ failed st' ->
  (b, t) ∈ failed st \/
  (b ∈ rs /\
   forall name ds n, recipe2name !! b = Some name ->
     descendants subdag name = Ok ds -> n ∈ ds ->
     exists l, skip_dependent st' !! n = Some l /\ b ∈ l).
Proof.
  induction 1 as [| st r ext1 st1 rs ext2 st2 Hstep Hrest IH]; intros Hin.
  - by left.
  - destruct (IH Hin) as [Hin1 | [Hb Hprop]].
    + destruct (step_ledger_propagate _ _ _ _ _ _ Hstep Hin1)
        as [Hin0 | [-> Hprop]]; [by left | right].
      split; [by left |]. intros name ds n Hname Hds Hn.
      destruct (Hprop name ds n Hname Hds Hn) as (l & Hl & Hbl).
      destruct (steps_ledger_mono _ _ _ _ _ _ Hrest Hl) as [l' Hl'].
      exists (l ++ l'). split; [done |]. apply elem_of_app. by left.
    + right. split; [by right | done].
Qed.

(** Every blocker in the ledger is a recipe with a failed build, recorded
    under a descendant of its name. *)
Lemma step_ledger_provenance st r ext st' n l x :
  step st r ext st' -> skip_dependent st' !! n = Some l -> x ∈ l ->
  (exists l0, skip_dependent st !! n = Some l0 /\ x ∈ l0) \/
  (exists t name ds, (x, t) ∈ failed st' /\ recipe2name !! x = Some name /\
     descendants subdag name = Ok ds /\ n ∈ ds).
Proof.
  intros [name blockers Hn Hs
         | name ts fts ext' st'' Hn Hs Hts Hm Hsk Hf Hsub Hb _ _ Hled _] Hl Hx.
  - left. eauto.
  - destruct Hled as [[_ E] | (Hne & ds & Hds & Hbl)].
    + left. rewrite E in Hl. eauto.
    + destruct (Hbl n) as [H1 H2].
      destruct (decide (n ∈ ds)) as [Hin | Hnin].
      * destruct (H2 Hin) as (k & _ & E). rewrite E in Hl.
        injection Hl as <-. apply elem_of_app in Hx as [Hx | Hx].
        -- left. destruct (skip_dependent st !! n) as [l0 |]; [eauto |].
           by apply elem_of_nil in Hx.
        -- right. apply elem_of_replicate in Hx as [-> _].
           destruct fts as [| t fts]; [done |].
           exists t, name, ds. rewrite Hf. repeat split; try done.
           apply elem_of_app. right. by left.
      * left. rewrite H1 in Hl by done. eauto.
Qed.

Lemma steps_ledger_provenance st rs ext st' n l x :
  steps st rs ext st' -> skip_dependent st' !! n = Some l -> x ∈ l ->
  (exists l0, skip_dependent st !! n = Some l0 /\ x ∈ l0) \/
  (exists t name ds, (x, t) ∈ failed st' /\ recipe2name !! x = Some name /\
     descendants subdag name = Ok ds /\ n ∈ ds).
Proof.
  intros H. revert l.
  induction H as [| st r ext1 st1 rs ext2 st2 Hstep Hrest IH]; intros l Hl Hx.
  - left. eauto.
  - destruct (IH l Hl Hx) as [(l1 & Hl1 & Hx1) | H]; [| by right].
    destruct (step_ledger_provenance _ _ _ _ _ _ _ Hstep Hl1 Hx1)
      as [H | (t & name & ds & Hf & H)]; [by left | right].
    exists t, name, ds. split; [| done].
    by apply (steps_mono _ _ _ _ Hrest).
Qed.

(** With artifact uploads enabled, every target of every recipe of the run
    was uploaded, unless the recipe was skipped or the target's build
    failed. *)
Lemma steps_uploads st rs ext st' r ts t :
  steps st rs ext st' ->
  opt_testonly opts = false -> opt_anaconda_upload opts = true ->
  r ∈ rs -> recipe_targets !! r = Some ts -> t ∈ ts ->
  r ∈ skipped_recipes st' \/ (r, t) ∈ failed st' \/
  exists o, EvAnacondaUpload (target_pkg t) (opt_label opts) (Ok o) ∈ ext.
Proof.
  intros H Hto Hau. revert r ts t.
  induction H as [| st r0 ext1 st1 rs ext2 st2 Hstep Hrest IH];
    intros r ts t Hr Hts Ht.
  - by apply elem_of_nil in Hr.
  - destruct (steps_mono _ _ _ _ Hrest) as (_ & Hsk & Hfl).
    apply elem_of_cons in Hr as [-> | Hr].
    + destruct Hstep as [name blockers Hn Hs
        | name ts' fts ext' st'' Hn Hs Hts' Hm Hsk' Hf Hsub Hb _ _ Hled Hup].
      * left. apply Hsk. cbn. apply elem_of_app. right. by left.
      * rewrite Hts in Hts'. injection Hts' as <-.
        destruct (Hup Hto Hau t Ht) as [Hin | [o Ho]].
        -- right. left. apply Hfl. rewrite Hf. apply elem_of_app. right.
           apply elem_of_map. eauto.
        -- right. right. exists o. apply elem_of_app. by left.
    + destruct (IH r ts t Hr Hts Ht) as [H | [H | [o Ho]]]; auto.
      right. right. exists o. apply elem_of_app. by right.
Qed.

(** No name is in the ledger with an empty list of blockers. *)
Lemma steps_ledger_nonempty st rs ext st' :
  steps st rs ext st' ->
  (forall n l, skip_dependent st !! n = Some l -> l <> []) ->
  forall n l, skip_dependent st' !! n = Some l -> l <> [].
Proof.
  induction 1 as [| st r ext1 st1 rs ext2 st2 Hstep _ IH]; intros Hne;
    [done |].
  apply IH. intros n l Hl.
  destruct Hstep as [name blockers Hn Hs
    | name ts fts ext' st'' Hn Hs Hts Hm Hsk Hf Hsub Hb _ _ Hled _].
  - by eapply Hne.
  - destruct Hled as [[_ E] | (_ & ds & _ & Hbl)].
    + rewrite E in Hl. by eapply Hne.
    + destruct (Hbl n) as [H1 H2].
      destruct (decide (n ∈ ds)) as [Hin | Hnin].
      * destruct (H2 Hin) as (k & Hk & E). rewrite E in Hl.
        injection Hl as <-. destruct k as [| k]; [lia |].
        intros Hnil. apply app_eq_nil in Hnil as [_ Hnil]. done.
      * rewrite H1 in Hl by done. by eapply Hne.
Qed.

End StepFacts.

Section RunFacts.

Context (W : World) (opts : Options).

Lemma process_recipes_app subdag recipe2name recipe_targets l1 l2 st tr :
  process_recipes W opts subdag recipe2name recipe_targets st (l1 ++ l2) tr =
  match process_recipes W opts subdag recipe2name recipe_targets st l1 tr with
  | (tr1, Ok st1) =>
      process_recipes W opts subdag recipe2name recipe_targets st1 l2 tr1
  | (tr1, Raise e) => (tr1, Raise e)
  end.
Proof.
  revert st tr. induction l1 as [| r l1 IH]; intros st tr; simpl; [done |].
  unfold bind at 1 2.
  destruct (process_recipe W opts subdag recipe2name recipe_targets st r tr)
    as [tr1 [st1 | e]]; [apply IH | done].
Qed.

(** [build_recipes] either ends before the loop, having called no
    collaborator, or runs the loop on the recipes of the selected subgraph
    from the initial accumulators. *)
Lemma build_recipes_inv recipe_targets dag name2recipes n i tr tr' res :
  build_recipes W opts recipe_targets dag name2recipes n i tr = (tr', res) ->
  (tr' = tr /\ (res = Ok (true, None) \/ exists e, res = Raise e)) \/
  (exists subdag recipes res0,
     select_subdag (opt_testonly opts) dag n i = Ok (Some subdag) /\
     recipes_in_order subdag name2recipes = Ok recipes /\
     process_recipes W opts subdag (recipe2name_of name2recipes)
       recipe_targets initial recipes tr = (tr', res0) /\
     res = match res0 with
           | Ok st => Ok (summary st, Some st)
           | Raise e => Raise e
           end).
Proof.
  unfold build_recipes. destruct (negb (Nx.truthy dag)).
  { intros H. apply ret_inv in H as [-> ->]. left. auto. }
  intros H. apply bind_inv in H as [(sel & tr1 & Hsel & H) | (e & Hsel & ->)].
  2: { apply lift_inv in Hsel as [-> _]. left. eauto. }
  apply lift_inv in Hsel as [-> Hsel]. destruct sel as [subdag |].
  2: { apply ret_inv in H as [-> ->]. left. auto. }
  apply bind_inv in H as [(recipes & tr1 & Hrec & H) | (e & Hrec & ->)].
  2: { apply lift_inv in Hrec as [-> _]. left. eauto. }
  apply lift_inv in Hrec as [-> Hrec]. right.
  apply bind_inv in H as [(st & tr1 & Hrun & H) | (e & Hrun & ->)].
  - apply ret_inv in H as [-> ->]. exists subdag, recipes, (Ok st). auto.
  - exists subdag, recipes, (Raise e). auto.
Qed.

End RunFacts.

(* ===================================================================== *)
(** * The build order *)
(* ===================================================================== *)

Lemma rmapM_ok {A B} (f : A -> result B) (l : list A) (ys : list B) :
  rmapM f l = Ok ys <-> Forall2 (fun x y => f x = Ok y) l ys.
Proof.
  revert ys. induction l as [| x l IH]; intros ys; simpl.
  - split; [intros [= <-]; constructor | by inversion 1].
  - destruct (f x) as [y | e] eqn:Hfx; simpl.
    + destruct (rmapM f l) as [ys' | e] eqn:Hl; simpl.
      * split.
        -- intros [= <-]. constructor; [done | by apply IH].
        -- inversion 1 as [| ? y' ? ys'' Hy Hys]; subst.
           rewrite Hfx in Hy. injection Hy as <-.
           apply IH in Hys. by injection Hys as <-.
      * split; [done |]. inversion 1 as [| ? y' ? ys'' Hy Hys]; subst.
        by apply IH in Hys.
    + split; [done |]. inversion 1 as [| ? y' ? ys'' Hy Hys]; subst.
      by rewrite Hfx in Hy.
Qed.

Lemma rmapM_total {A B} (f : A -> result B) (l : list A) :
  (forall x, x ∈ l -> exists y, f x = Ok y) -> exists ys, rmapM f l = Ok ys.
Proof.
  induction l as [| x l IH]; intros Hf; simpl; [eauto |].
  destruct (Hf x) as [y ->]; [by left |].
  destruct IH as [ys ->]; [intros z Hz; apply Hf; by right |].
  simpl. eauto.
Qed.

Lemma dict_lookup_elem_of {V} (d : dict string V) k v :
  dict_lookup d k = Some v -> (k, v) ∈ d.
Proof.
  induction d as [| [k' v'] d IH]; simpl; [done |].
  destruct (String.eqb_spec k' k) as [-> | Hne].
  - intros [= ->]. by left.
  - intros H. right. by apply IH.
Qed.

Lemma elem_of_dict_lookup {V} (d : dict string V) k v :
  NoDup (map fst d) -> (k, v) ∈ d -> dict_lookup d k = Some v.
Proof.
  induction d as [| [k' v'] d IH]; simpl; intros Hnd Hin.
  - by apply elem_of_nil in Hin.
  - apply NoDup_cons in Hnd as [Hk Hnd].
    apply elem_of_cons in Hin as [[= -> ->] | Hin].
    + by rewrite String.eqb_refl.
    + destruct (String.eqb_spec k' k) as [-> | Hne]; [| by apply IH].
      exfalso. apply Hk. apply elem_of_map. by exists (k, v).
Qed.

Lemma NoDup_concat_elem {A} (ls : list (list A)) l :
  NoDup (concat ls) -> l ∈ ls -> NoDup l.
Proof.
  induction ls as [| l' ls IH]; simpl; intros Hnd Hl.
  - by apply elem_of_nil in Hl.
  - apply NoDup_app in Hnd as (H1 & _ & H2).
    apply elem_of_cons in Hl as [-> | Hl]; [done | by apply IH].
Qed.

Section Name2Recipes.

Context (d : dict string (list string)).
Hypothesis d_ok : name2recipes_ok d.

(** A recipe is listed under one name only. *)
Lemma name2recipes_functional n1 l1 n2 l2 x :
  (n1, l1) ∈ d -> (n2, l2) ∈ d -> x ∈ l1 -> x ∈ l2 -> n1 = n2.
Proof.
  destruct d_ok as [_ Hnd]. intros H1 H2 Hx1 Hx2.
  apply list_elem_of_lookup in H1 as [i Hi], H2 as [j Hj].
  assert (Hi' : map snd d !! i = Some l1).
  { change (map snd d) with (snd <$> d). by rewrite list_lookup_fmap, Hi. }
  assert (Hj' : map snd d !! j = Some l2).
  { change (map snd d) with (snd <$> d). by rewrite list_lookup_fmap, Hj. }
  pose proof (NoDup_concat_lookup _ _ _ _ _ _ Hnd Hi' Hj' Hx1 Hx2) as ->.
  rewrite Hi in Hj. by injection Hj.
Qed.

Lemma name2recipes_NoDup n l : (n, l) ∈ d -> NoDup l.
Proof.
  destruct d_ok as [_ Hnd]. intros H.
  apply (NoDup_concat_elem _ _ Hnd). apply elem_of_map. by exists (n, l).
Qed.

(** The recipes of distinct package names, listed name after name, are
    pairwise distinct. *)
Lemma concat_recipes_NoDup packages lists :
  NoDup packages ->
  Forall2 (fun n l => dict_get d n = Ok l) packages lists ->
  NoDup (concat lists).
Proof.
  intros Hnd H. induction H as [| n l packages lists Hn Hrest IH]; simpl.
  - constructor.
  - apply NoDup_cons in Hnd as [Hfresh Hnd]. apply NoDup_app.
    unfold dict_get in Hn.
    destruct (dict_lookup d n) as [l0 |] eqn:Hl; [| done].
    injection Hn as ->. apply dict_lookup_elem_of in Hl.
    split; [by eapply name2recipes_NoDup |]. split; [| by apply IH].
    intros x Hx Hx'. apply elem_of_concat in Hx' as (l' & Hl' & Hx').
    clear IH. induction Hrest as [| n' l'' packages lists Hn' H' IH'].
    + by apply elem_of_nil in Hl'.
    + apply not_elem_of_cons in Hfresh as [Hne Hfresh].
      apply NoDup_cons in Hnd as [_ Hnd].
      apply elem_of_cons in Hl' as [-> | Hl']; [| by apply IH'].
      unfold dict_get in Hn'.
      destruct (dict_lookup d n') as [l0 |] eqn:Hl0; [| done].
      injection Hn' as ->. apply dict_lookup_elem_of in Hl0.
      apply Hne. by eapply name2recipes_functional.
Qed.

End Name2Recipes.

Lemma fold_insert_lookup (l : list string) (k : string)
    (m : gmap string string) (r : string) :
  fold_left (fun m' i => <[ i := k ]> m') l m !! r =
  if bool_decide (r ∈ l) then Some k else m !! r.
Proof.
  revert m. induction l as [| i l IH]; intros m; simpl; [done |].
  rewrite IH. destruct (decide (r ∈ l)) as [Hin | Hnin].
  - rewrite !bool_decide_eq_true_2; [done | by right | done].
  - rewrite (bool_decide_eq_false_2 (r ∈ l)) by done.
    destruct (decide (i = r)) as [-> | Hne].
    + rewrite lookup_insert_eq. by rewrite bool_decide_eq_true_2 by left.
    + rewrite lookup_insert_ne by done.
      rewrite bool_decide_eq_false_2; [done |].
      intros H. apply elem_of_cons in H as [-> | H]; done.
Qed.

Lemma recipe2name_fold (d : dict string (list string))
    (m : gmap string string) (r n0 : string) :
  (forall n l, (n, l) ∈ d -> r ∈ l -> n = n0) ->
  fold_left (fun m kv => fold_left (fun m' i => <[ i := kv.1 ]> m') kv.2 m) d m
    !! r =
  if bool_decide (Exists (fun kv => r ∈ kv.2) d) then Some n0 else m !! r.
Proof.
  revert m. induction d as [| [n l] d IH]; intros m Hfun; cbn [fold_left].
  - rewrite bool_decide_eq_false_2; [done | by inversion 1].
  - cbn [fst snd]. rewrite IH by (intros n' l' H; apply Hfun; by right).
    rewrite fold_insert_lookup.
    destruct (decide (Exists (fun kv => r ∈ kv.2) d)) as [Hex | Hnex].
    + rewrite !bool_decide_eq_true_2; [done | | done].
      by apply Exists_cons_tl.
    + rewrite (bool_decide_eq_false_2 _ Hnex).
      destruct (decide (r ∈ l)) as [Hin | Hnin].
      * rewrite !bool_decide_eq_true_2; [| by apply Exists_cons_hd | done].
        f_equal. apply (Hfun n l); [by left | done].
      * rewrite !bool_decide_eq_false_2; [done | | done].
        rewrite Exists_cons. simpl. tauto.
Qed.

(** [recipe2name] maps a recipe to the name it is listed under. *)
Lemma recipe2name_of_spec (d : dict string (list string)) r n :
  name2recipes_ok d ->
  recipe2name_of d !! r = Some n <-> exists l, (n, l) ∈ d /\ r ∈ l.
Proof.
  intros Hok. unfold recipe2name_of.
  destruct (decide (Exists (fun kv => r ∈ kv.2) d)) as [Hex | Hnex].
  - pose proof Hex as Hex'. apply Exists_exists in Hex' as ([n0 l0] & Hin & Hr).
    simpl in Hr.
    rewrite (recipe2name_fold d ∅ r n0)
      by (intros n' l' H1 H2; by eapply name2recipes_functional).
    rewrite bool_decide_eq_true_2 by done. split.
    + intros [= <-]. eauto.
    + intros (l & Hl & Hrl). f_equal.
      by eapply name2recipes_functional.
  - rewrite (recipe2name_fold d ∅ r n).
    + rewrite bool_decide_eq_false_2 by done. rewrite lookup_empty.
      split; [done |]. intros (l & Hl & Hrl). exfalso. apply Hnex.
      apply Exists_exists. by exists (n, l).
    + intros n' l' H1 H2. exfalso. apply Hnex.
      apply Exists_exists. by exists (n', l').
Qed.

(** ** Order of occurrence in a list *)

Lemma before_elem_of {A} (l : list A) a b :
  before l a b -> a ∈ l /\ b ∈ l.
Proof.
  intros (l1 & l2 & l3 & ->). rewrite !elem_of_app, !elem_of_cons.
  rewrite !elem_of_app, !elem_of_cons. tauto.
Qed.

Lemma NoDup_split_unique {A} (l1 l1' l2 l2' : list A) x :
  NoDup (l1 ++ x :: l2) -> l1 ++ x :: l2 = l1' ++ x :: l2' ->
  l1 = l1' /\ l2 = l2'.
Proof.
  revert l1'. induction l1 as [| y l1 IH]; intros l1' Hnd Heq.
  - destruct l1' as [| y' l1']; simpl in *.
    + by injection Heq.
    + injection Heq as <- ->. apply NoDup_cons in Hnd as [Hx _].
      exfalso. apply Hx. apply elem_of_app. right. by left.
  - destruct l1' as [| y' l1']; simpl in *.
    + injection Heq as -> <-. apply NoDup_cons in Hnd as [Hx _].
      exfalso. apply Hx. apply elem_of_app. right. by left.
    + injection Heq as <- Heq. apply NoDup_cons in Hnd as [_ Hnd].
      destruct (IH l1' Hnd Heq) as [-> ->]. done.
Qed.

(** In a duplicate-free list, what occurs before [b] is in the part of the
    list in front of [b]. *)
Lemma before_in_prefix {A} (pre post : list A) a b :
  NoDup (pre ++ b :: post) -> before (pre ++ b :: post) a b -> a ∈ pre.
Proof.
  intros Hnd (l1 & l2 & l3 & Heq).
  assert (Heq' : pre ++ b :: post = (l1 ++ a :: l2) ++ b :: l3).
  { rewrite <- app_assoc. exact Heq. }
  destruct (NoDup_split_unique _ _ _ _ _ Hnd Heq') as [-> _].
  apply elem_of_app. right. by left.
Qed.

Lemma before_trans {A} (l : list A) a b c :
  NoDup l -> before l a b -> before l b c -> before l a c.
Proof.
  intros Hnd (l1 & l2 & l3 & E1) (m1 & m2 & m3 & E2).
  assert (E : (l1 ++ a :: l2) ++ b :: l3 = m1 ++ b :: m2 ++ c :: m3).
  { rewrite <- app_assoc. simpl. congruence. }
  assert (Hnd' : NoDup ((l1 ++ a :: l2) ++ b :: l3)).
  { rewrite <- app_assoc. simpl. by rewrite <- E1. }
  destruct (NoDup_split_unique _ _ _ _ _ Hnd' E) as [_ ->].
  exists l1, (l2 ++ b :: m2), m3. rewrite E1.
  rewrite <- (app_assoc l2). done.
Qed.

Lemma before_irrefl {A} (l : list A) a : NoDup l -> ~ before l a a.
Proof.
  intros Hnd (l1 & l2 & l3 & ->).
  apply NoDup_app in Hnd as (_ & _ & Hnd).
  apply NoDup_cons in Hnd as [Ha _]. apply Ha.
  apply elem_of_app. right. by left.
Qed.

(** In the order [topological_sort] returns, the tail of every edge comes
    before its head. *)
Lemma topo_ordered_before g l a b :
  topo_ordered g l -> (a, b) ∈ edges g -> a ∈ l -> b ∈ l -> before l a b.
Proof.
  induction l as [| x l IH]; intros Hord Hab Ha Hb.
  - by apply elem_of_nil in Ha.
  - destruct Hord as [Hx Hord].
    assert (Hxb : x <> b).
    { intros ->. by apply (Hx a). }
    apply elem_of_cons in Hb as [-> | Hb]; [done |].
    apply elem_of_cons in Ha as [-> | Ha].
    + apply list_elem_of_split in Hb as (l2 & l3 & ->).
      by exists [], l2, l3.
    + destruct (IH Hord Hab Ha Hb) as (l1 & l2 & l3 & ->).
      by exists (x :: l1), l2, l3.
Qed.

Lemma topological_sort_before g l :
  well_formed g -> topological_sort g = Ok l ->
  l ≡ₚ nodes g /\ NoDup l /\
  forall a b, has_edge g a b -> before l a b.
Proof.
  intros [Hnd Hwf] Hl.
  destruct (topo_loop_sound g _ _ _ Hnd Hl) as [Hperm Hord].
  split; [done |]. split; [by rewrite Hperm |].
  intros a b Hab. destruct (Hwf a b Hab) as [Ha Hb].
  apply (topo_ordered_before g); by rewrite ?Hperm.
Qed.

(** When [topological_sort] succeeds, the graph has no cycle. *)
Lemma acyclicb_spec g : well_formed g -> acyclicb g = true -> acyclic g.
Proof.
  intros Hwf. unfold acyclicb.
  destruct (topological_sort g) as [l |] eqn:Hl; [intros _ | done].
  destruct (topological_sort_before g l Hwf Hl) as (_ & Hnd & Hbefore).
  assert (Htc : forall a b, tc (has_edge g) a b -> before l a b).
  { intros a b Hab. induction Hab as [a b Hab | a b c Hab _ IH].
    - by apply Hbefore.
    - eapply before_trans; [done | by apply Hbefore | done]. }
  intros n Hn. apply (before_irrefl l n Hnd). by apply Htc.
Qed.

Lemma concat_before {A B} (R : A -> list B -> Prop) xs ls a b la lb ra rb :
  Forall2 R xs ls -> NoDup xs -> before xs a b ->
  (forall l, R a l -> l = la) -> (forall l, R b l -> l = lb) ->
  ra ∈ la -> rb ∈ lb -> before (concat ls) ra rb.
Proof.
  intros HR Hnd (x1 & x2 & x3 & ->) Ha Hb Hra Hrb.
  apply Forall2_app_inv_l in HR as (L1 & L' & _ & HR & ->).
  apply Forall2_cons_inv_l in HR as (la' & L'' & HRa & HR & ->).
  apply Forall2_app_inv_l in HR as (L2 & L''' & _ & HR & ->).
  apply Forall2_cons_inv_l in HR as (lb' & L3 & HRb & _ & ->).
  apply Ha in HRa as ->. apply Hb in HRb as ->.
  apply list_elem_of_split in Hra as (a1 & a2 & ->).
  apply list_elem_of_split in Hrb as (b1 & b2 & ->).
  exists (concat L1 ++ a1), (a2 ++ concat L2 ++ b1), (b2 ++ concat L3).
  rewrite !concat_app. simpl. rewrite !concat_app. simpl.
  by rewrite <- !app_assoc.
Qed.

(** The recipes in build order: no recipe twice, and the recipes of a
    package before the recipes of the packages that depend on it. *)
Lemma recipes_in_order_spec subdag d recipes :
  well_formed subdag -> name2recipes_ok d ->
  recipes_in_order subdag d = Ok recipes ->
  exists packages lists,
    topological_sort subdag = Ok packages /\
    packages ≡ₚ nodes subdag /\
    (forall a b, has_edge subdag a b -> before packages a b) /\
    Forall2 (fun n l => dict_get d n = Ok l) packages lists /\
    recipes = concat lists /\
    NoDup recipes /\
    (forall a b la lb ra rb, has_edge subdag a b ->
       dict_get d a = Ok la -> dict_get d b = Ok lb ->
       ra ∈ la -> rb ∈ lb -> before recipes ra rb).
Proof.
  intros Hwf Hok. unfold recipes_in_order.
  destruct (topological_sort subdag) as [packages |] eqn:Hsort; [| done].
  simpl. destruct (rmapM (dict_get d) packages) as [lists |] eqn:Hlists;
    [| done].
  simpl. intros [= <-]. apply rmapM_ok in Hlists.
  destruct (topological_sort_before _ _ Hwf Hsort) as (Hperm & Hnd & Hbefore).
  exists packages, lists. repeat split; try done.
  - by eapply concat_recipes_NoDup.
  - intros a b la lb ra rb Hab Hla Hlb Hra Hrb.
    eapply (concat_before _ packages lists a b la lb); try done.
    + by apply Hbefore.
    + intros l Hl. cbv beta in Hl. congruence.
    + intros l Hl. cbv beta in Hl. congruence.
Qed.

(** On an acyclic graph whose packages all have recipes listed, the build
    order exists. *)
Lemma recipes_in_order_total subdag d :
  well_formed subdag -> acyclic subdag ->
  (forall n, n ∈ nodes subdag -> is_Some (dict_lookup d n)) ->
  exists recipes, recipes_in_order subdag d = Ok recipes.
Proof.
  intros Hwf Hacy Hall.
  destruct (topological_sort_spec subdag Hwf Hacy) as (l & Hl & Hperm & _).
  unfold recipes_in_order. rewrite Hl. simpl.
  destruct (rmapM_total (dict_get d) l) as [lists ->]; [| simpl; eauto].
  intros n Hn. rewrite Hperm in Hn. destruct (Hall n Hn) as [v Hv].
  exists v. unfold dict_get. by rewrite Hv.
Qed.

Lemma select_subdag_subgraph testonly dag n i subdag :
  select_subdag testonly dag n i = Ok (Some subdag) ->
  exists c, subdag = subgraph dag c.
Proof.
  unfold select_subdag. destruct (n <=? i); [done |].
  destruct (_ <=? i); [done |].
  destruct (index _ i) as [c |]; [| done]. simpl. intros [= <-]. eauto.
Qed.

Lemma recipe_name_in_subdag subdag d recipes r name :
  well_formed subdag -> name2recipes_ok d ->
  recipes_in_order subdag d = Ok recipes ->
  r ∈ recipes -> recipe2name_of d !! r = Some name ->
  name ∈ nodes subdag /\ exists l, dict_lookup d name = Some l /\ r ∈ l.
Proof.
  intros Hwf Hok Hrec Hr Hname.
  destruct (recipes_in_order_spec _ _ _ Hwf Hok Hrec)
    as (packages & lists & _ & Hperm & _ & Hall & -> & _).
  apply elem_of_concat in Hr as (l & Hl & Hr).
  apply list_elem_of_lookup in Hl as [j Hj].
  destruct (Forall2_lookup_r _ _ _ _ _ Hall Hj) as (p & Hp & Hget).
  unfold dict_get in Hget.
  destruct (dict_lookup d p) as [l' |] eqn:Hlook; [| done].
  injection Hget as ->.
  assert (Hp' : recipe2name_of d !! r = Some p).
  { apply recipe2name_of_spec; [done |]. exists l.
    split; [by apply dict_lookup_elem_of | done]. }
  rewrite Hname in Hp'. injection Hp' as ->. split.
  - rewrite <- Hperm. by eapply list_elem_of_lookup_2.
  - eauto.
Qed.

Section InitialRuns.

Context (opts : Options) (subdag : DiGraph).
Context (recipe2name : gmap string string).
Context (recipe_targets : gmap string (list Target)).

(** After a completed run from the initial accumulators, the recipes dealt
    with are those of the run, each in one list only when none occurs
    twice. *)
Lemma steps_initial rs ext st' :
  steps opts subdag recipe2name recipe_targets initial rs ext st' ->
  (forall r, r ∈ rs <-> dealt_with st' r) /\
  (NoDup rs -> forall r,
     (r ∈ built_recipes st' ->
        (r ∉ skipped_recipes st') /\ forall t, (r, t) ∉ failed st') /\
     (r ∈ skipped_recipes st' -> forall t, (r, t) ∉ failed st')).
Proof.
  intros H. apply steps_lists in H
    as (bs & ss & fs & Hb & Hs & Hf & Hall & Hdisj).
  simpl in Hb, Hs, Hf. subst bs ss fs.
  assert (Hfst : forall r, r ∈ map fst (failed st') <->
                   exists t, (r, t) ∈ failed st').
  { intros r. rewrite elem_of_map. split.
    - intros ([r' t] & -> & H). eauto.
    - intros [t H]. by exists (r, t). }
  split.
  - intros r. rewrite Hall, Hfst. done.
  - intros Hnd r. destruct (Hdisj Hnd r) as [H1 H2]. split.
    + intros Hr. destruct (H1 Hr) as [H3 H4]. split; [done |].
      intros t Ht. apply H4, Hfst. eauto.
    + intros Hr t Ht. apply (H2 Hr), Hfst. eauto.
Qed.

End InitialRuns.

(* ===================================================================== *)
(** * Properties of the build scheduler *)
(* ===================================================================== *)

(** C5, as stated, fails: when the artifact upload raises, the error ends
    the run and the build that was started is not purged. *)
Lemma purge_missing_when_upload_raises :
  let run :=
    build_recipes
      (example_world (Raise (OtherException "ConnectionError")) (Ok true)
         (Ok (Some [])) [])
      (example_opts true None) good_targets example_graph
      example_name2recipes 1 0 [] in
  run.2 = Raise (OtherException "ConnectionError") /\
  marks run.1 = [MAttempt].
Proof. vm_compute. done. Qed.

(** C6, as the code has it.  For a target whose build succeeds in a run
    that is not test-only and has a distribution target for test images,
    the image upload is called and its answer is not looked at: whatever
    it reports, the recipe is not marked as failed, nothing is added to the
    skip ledger, and the list of failed uploads receives nothing but the
    package of a failed artifact upload. *)
Theorem image_upload_answer_ignored (W : World) (opts : Options)
    (subdag : DiGraph) (recipe name tgt : string) (st st' : Sched)
    (ok ok' : bool) (t : Target) (res : BuildResult) (tr tr1 tr' : trace) :
  build W recipe (target_env t) (opt_testonly opts) (opt_mulled_test opts)
    (opt_channels opts) (opt_docker_builder opts) false tr = (tr1, Ok res) ->
  success res = true ->
  opt_testonly opts = false ->
  opt_mulled_upload_target opts = Some tgt -> str_truthy tgt = true ->
  attempt_target W opts subdag recipe name (st, ok) t tr
    = (tr', Ok (st', ok')) ->
  exists ext answer,
    tr' = tr ++ ext /\
    EvMulledUpload (mulled_image res) tgt (Ok answer) ∈ ext /\
    failed st' = failed st /\
    skip_dependent st' = skip_dependent st /\
    ok' = ok /\
    all_success st' = all_success st /\
    failed_uploads st' = failed_uploads st ++ omap failed_upload_of ext /\
    forall pkg, pkg ∈ omap failed_upload_of ext ->
      exists label, EvAnacondaUpload pkg label (Ok false) ∈ ext.
Proof.
  intros Hb Hs Hto Htgt Htruthy H.
  unfold attempt_target in H. cbn [fst snd] in H.
  apply bind_ok_inv in H as (res' & tr1' & Hb' & H).
  rewrite Hb in Hb'. injection Hb' as <- <-.
  apply build_trace in Hb as (ext1 & -> & _ & Hup1).
  assert (Hfu1 : omap failed_upload_of ext1 = []).
  { clear -Hup1. induction Hup1 as [| ev l Hev _ IH]; [done |].
    cbn. rewrite IH. by destruct ev. }
  rewrite Hs, Hto in H. cbn [negb] in H.
  apply bind_ok_inv in H as (st2 & tr2 & Hupl & H).
  apply upload_build_spec in Hupl
    as (ext2 & -> & _ & Hf & _ & _ & Has & Hsd & Hfu & _ & Himg).
  destruct (Himg tgt Htgt Htruthy) as [answer Hans].
  apply bind_ok_inv in H as (u & tr3 & Hp & H).
  apply purge_inv in Hp as [-> _]. apply ret_inv in H as [-> [= -> ->]].
  exists (ext1 ++ ext2 ++ [EvRun purge_cmd None (Ok u)]), answer.
  split; [by rewrite <- !app_assoc |].
  split; [rewrite !elem_of_app; auto |].
  cbn in Hf, Has, Hsd, Hfu. rewrite andb_true_r in Has.
  split; [done |]. split; [done |]. split; [by rewrite andb_true_r |].
  split; [done |]. split.
  { rewrite !failed_uploads_app, Hfu1, Hfu. cbn. by rewrite app_nil_r. }
  intros pkg Hpkg. apply list_elem_of_omap in Hpkg as (ev & Hev & Hf').
  destruct ev as [| | | | | | pkg' label [[|] |] | | |]; try done.
  injection Hf' as ->. eauto.
Qed.

Lemma image_upload_answer_ignored_witness :
  let W := example_world (Ok true) (Ok false) (Ok (Some [])) [] in
  let opts := example_opts true (Some "biocontainers") in
  exists tr1 res tr' st' ok',
    build W "recipes/a" (target_env target_py27) (opt_testonly opts)
      (opt_mulled_test opts) (opt_channels opts) (opt_docker_builder opts)
      false [] = (tr1, Ok res) /\
    success res = true /\
    attempt_target W opts example_graph "recipes/a" "a" (initial, true)
      target_py27 [] = (tr', Ok (st', ok')) /\
    exists ext answer,
      tr' = [] ++ ext /\
      EvMulledUpload (mulled_image res) "biocontainers" (Ok answer) ∈ ext /\
      failed st' = failed initial /\
      skip_dependent st' = skip_dependent initial /\
      ok' = true /\
      all_success st' = all_success initial /\
      failed_uploads st' = failed_uploads initial ++ omap failed_upload_of ext /\
      forall pkg, pkg ∈ omap failed_upload_of ext ->
        exists label, EvAnacondaUpload pkg label (Ok false) ∈ ext.
Proof.
  intros W opts.
  destruct (build W "recipes/a" (target_env target_py27) (opt_testonly opts)
              (opt_mulled_test opts) (opt_channels opts)
              (opt_docker_builder opts) false []) as [tr1 res] eqn:Hb.
  vm_compute in Hb. injection Hb as <- <-.
  destruct (attempt_target W opts example_graph "recipes/a" "a"
              (initial, true) target_py27 []) as [tr' r] eqn:Ha.
  pose proof Ha as Ha'. vm_compute in Ha'. injection Ha' as <- <-.
  eexists _, _, _, _, _. split; [reflexivity |]. split; [reflexivity |].
  split; [exact Ha |].
  exact (image_upload_answer_ignored W opts example_graph "recipes/a" "a"
           "biocontainers" initial _ true _ target_py27 _ [] _ _
           eq_refl eq_refl eq_refl eq_refl eq_refl Ha).
Defined.

(** C6, as stated, fails: a test-image upload that reports failure leaves
    no failed-upload entry, and the run reports success. *)
Lemma image_upload_failure_not_recorded :
  let run :=
    build_recipes (example_world (Ok true) (Ok false) (Ok (Some [])) [])
      (example_opts true (Some "biocontainers")) good_targets example_graph
      example_name2recipes 1 0 [] in
  EvMulledUpload (Some "quay.io/biocontainers/pkg:1.0--0") "biocontainers"
    (Ok false) ∈ run.1 /\
  exists st, run.2 = Ok (true, Some st) /\ failed_uploads st = [].
Proof.
  vm_compute. split; [| eauto].
  do 6 apply list_elem_of_further. apply list_elem_of_here.
Qed.

(** What a completed run of [build_recipes] that went through the loop
    consists of. *)
Lemma build_recipes_completed W opts recipe_targets dag name2recipes n i
    tr tr' b st' :
  build_recipes W opts recipe_targets dag name2recipes n i tr
    = (tr', Ok (b, Some st')) ->
  exists subdag recipes ext,
    select_subdag (opt_testonly opts) dag n i = Ok (Some subdag) /\
    recipes_in_order subdag name2recipes = Ok recipes /\
    tr' = tr ++ ext /\
    process_recipes W opts subdag (recipe2name_of name2recipes)
      recipe_targets initial recipes tr = (tr ++ ext, Ok st') /\
    steps opts subdag (recipe2name_of name2recipes) recipe_targets
      initial recipes ext st' /\
    b = summary st'.
Proof.
  intros H. apply build_recipes_inv in H
    as [[_ [[=] | [e [=]]]] | (subdag & recipes & res0 & Hsel & Hrec & Hloop & Hres)].
  destruct res0 as [st |]; [| done]. injection Hres as -> ->.
  pose proof Hloop as Hloop'.
  apply process_recipes_spec in Hloop' as (ext & -> & Hsteps).
  exists subdag, recipes, ext. auto 10.
Qed.

Lemma NoDup_by_computation {A} `{EqDecision A} (l : list A) :
  bool_decide (NoDup l) = true -> NoDup l.
Proof. apply bool_decide_eq_true_1. Qed.

Lemma example_graph_wf : well_formed example_graph.
Proof. apply well_formedb_spec. reflexivity. Qed.

Lemma example_name2recipes_ok : name2recipes_ok example_name2recipes.
Proof. split; apply NoDup_by_computation; reflexivity. Qed.

(** The scenario of the specification: a recipe with two targets, of which
    the first builds and the second does not.  The second target is
    reported as failed, the recipe is not in the built set, the package of
    the first target was uploaded, the workspace was purged twice, and the
    recipe that depends on it was skipped. *)
Example partial_failure_scenario :
  let run :=
    build_recipes (example_world (Ok true) (Ok true) (Ok (Some [])) [])
      (example_opts true None) example_targets example_graph
      example_name2recipes 1 0 [] in
  marks run.1 = [MAttempt; MPurge; MAttempt; MPurge] /\
  EvAnacondaUpload "pkg-py27.tar.bz2" None (Ok true) ∈ run.1 /\
  exists st, run.2 = Ok (false, Some st) /\
    failed st = [("recipes/a", target_py35)] /\
    built_recipes st = [] /\
    skipped_recipes st = ["recipes/b"] /\
    skip_dependent st !! "b" = Some ["recipes/a"].
Proof.
  vm_compute. split; [done |]. split.
  - do 5 apply list_elem_of_further. apply list_elem_of_here.
  - eexists. split; [reflexivity |]. done.
Qed.

Lemma recipes_in_order_acyclic subdag d recipes :
  well_formed subdag -> recipes_in_order subdag d = Ok recipes ->
  acyclic subdag.
Proof.
  intros Hwf H. apply acyclicb_spec; [done |]. unfold acyclicb.
  unfold recipes_in_order in H.
  by destruct (topological_sort subdag).
Qed.

Lemma initial_ledger_empty n : skip_dependent initial !! n = None.
Proof. apply lookup_empty. Qed.

Lemma tc_acyclic_ne g a b : acyclic g -> tc (has_edge g) a b -> b <> a.
Proof. intros Hacy Hab ->. by apply (Hacy a). Qed.

Lemma dict_get_ok {V} (d : dict string V) k v :
  dict_get d k = Ok v <-> dict_lookup d k = Some v.
Proof.
  unfold dict_get. destruct (dict_lookup d k); split; congruence.
Qed.

(** C1.  For an acyclic graph and any shard of it: the topological sort of
    the shard succeeds and lists its package names with every name after
    the names it depends on; the recipes are taken name by name in that
    order, each name giving its recipes in the order they are listed; and
    when the turn of a recipe comes, every recipe of every package its
    package depends on within the shard has been dealt with (built,
    skipped, or recorded as failed), while the recipe itself has not. *)
Theorem recipes_attempted_in_dependency_order (W : World) (opts : Options)
    (recipe_targets : gmap string (list Target)) (dag : DiGraph)
    (name2recipes : dict string (list string)) (n i : Z) (subdag : DiGraph) :
  well_formed dag -> acyclic dag -> name2recipes_ok name2recipes ->
  (forall x, x ∈ nodes dag -> is_Some (dict_lookup name2recipes x)) ->
  select_subdag (opt_testonly opts) dag n i = Ok (Some subdag) ->
  exists packages lists recipes,
    topological_sort subdag = Ok packages /\
    packages ≡ₚ nodes subdag /\
    (forall a b, has_edge subdag a b -> before packages a b) /\
    Forall2 (fun p l => dict_lookup name2recipes p = Some l) packages lists /\
    recipes = concat lists /\
    recipes_in_order subdag name2recipes = Ok recipes /\
    forall pre rb post tr tr1 st1 a b la ra,
      recipes = pre ++ rb :: post ->
      process_recipes W opts subdag (recipe2name_of name2recipes)
        recipe_targets initial pre tr = (tr1, Ok st1) ->
      recipe2name_of name2recipes !! rb = Some b ->
      has_edge subdag a b ->
      dict_lookup name2recipes a = Some la -> ra ∈ la ->
      dealt_with st1 ra /\ ~ dealt_with st1 rb.
Proof.
  intros Hwf Hacy Hok Hall Hsel.
  destruct (select_subdag_subgraph _ _ _ _ _ Hsel) as [c ->].
  set (subdag := subgraph dag c) in *.
  assert (Hswf : well_formed subdag) by (by apply subgraph_wf).
  assert (Hsacy : acyclic subdag) by (by apply subgraph_acyclic).
  destruct (recipes_in_order_total subdag name2recipes Hswf Hsacy)
    as [recipes Hrec].
  { intros x Hx. apply Hall. by apply elem_of_subgraph_nodes in Hx as [_ Hx]. }
  destruct (recipes_in_order_spec _ _ _ Hswf Hok Hrec)
    as (packages & lists & Hsort & Hperm & Hbefore & Hlists & -> & Hnd & Hord).
  exists packages, lists, (concat lists).
  do 3 (split; [done |]). split.
  { eapply Forall2_impl; [exact Hlists |]. intros p l. apply dict_get_ok. }
  do 2 (split; [done |]).
  intros pre rb post tr tr1 st1 a b la ra Heq Hpre Hb Hab Hla Hra.
  assert (Hrb : rb ∈ concat lists).
  { rewrite Heq. apply elem_of_app. right. by left. }
  destruct (recipe_name_in_subdag _ _ _ _ _ Hswf Hok Hrec Hrb Hb)
    as (_ & lb & Hlb & Hrblb).
  assert (Hbef : before (concat lists) ra rb).
  { apply (Hord a b la lb); try done; by apply dict_get_ok. }
  rewrite Heq in Hbef, Hnd.
  pose proof (before_in_prefix _ _ _ _ Hnd Hbef) as Hin.
  apply process_recipes_spec in Hpre as (ext & _ & Hsteps).
  destruct (steps_initial _ _ _ _ _ _ _ Hsteps) as [Hdealt _].
  split; [by apply Hdealt |].
  intros Hd. apply Hdealt in Hd.
  apply NoDup_app in Hnd as (_ & Hdisj & _). apply (Hdisj rb Hd). by left.
Qed.

Lemma example_graph_acyclic : acyclic example_graph.
Proof. apply acyclicb_spec; [exact example_graph_wf | reflexivity]. Qed.

Lemma example_graph_listed x :
  x ∈ nodes example_graph -> is_Some (dict_lookup example_name2recipes x).
Proof.
  intros Hx. simpl in Hx.
  apply elem_of_cons in Hx as [-> | Hx]; [by eexists |].
  apply elem_of_cons in Hx as [-> | Hx]; [by eexists |].
  by apply elem_of_nil in Hx.
Qed.

Lemma recipes_attempted_in_dependency_order_witness :
  let W := example_world (Ok true) (Ok true) (Ok (Some [])) [] in
  let opts := example_opts true None in
  well_formed example_graph /\ acyclic example_graph /\
  name2recipes_ok example_name2recipes /\
  (forall x, x ∈ nodes example_graph ->
     is_Some (dict_lookup example_name2recipes x)) /\
  select_subdag (opt_testonly opts) example_graph 1 0 = Ok (Some example_graph) /\
  exists packages lists recipes,
    topological_sort example_graph = Ok packages /\
    packages ≡ₚ nodes example_graph /\
    (forall a b, has_edge example_graph a b -> before packages a b) /\
    Forall2 (fun p l => dict_lookup example_name2recipes p = Some l)
      packages lists /\
    recipes = concat lists /\
    recipes_in_order example_graph example_name2recipes = Ok recipes /\
    forall pre rb post tr tr1 st1 a b la ra,
      recipes = pre ++ rb :: post ->
      process_recipes W opts example_graph
        (recipe2name_of example_name2recipes) example_targets initial pre tr
        = (tr1, Ok st1) ->
      recipe2name_of example_name2recipes !! rb = Some b ->
      has_edge example_graph a b ->
      dict_lookup example_name2recipes a = Some la -> ra ∈ la ->
      dealt_with st1 ra /\ ~ dealt_with st1 rb.
Proof.
  intros W opts.
  split; [exact example_graph_wf |].
  split; [exact example_graph_acyclic |].
  split; [exact example_name2recipes_ok |].
  split; [exact example_graph_listed |].
  assert (Hsel : select_subdag (opt_testonly opts) example_graph 1 0
                 = Ok (Some example_graph)) by (vm_compute; reflexivity).
  split; [exact Hsel |].
  exact (recipes_attempted_in_dependency_order W opts example_targets
           example_graph example_name2recipes 1 0 example_graph
           example_graph_wf example_graph_acyclic example_name2recipes_ok
           example_graph_listed Hsel).
Defined.

(* ===================================================================== *)
(** * Facts about the pinning-state classifier *)
(* ===================================================================== *)

Section ClassifierFacts.

Context (W : World) (skip_variant_keys : gset string).

Lemma filter_accepts_spec {A} `{EqDecision A} (f : option A) (x : A) :
  filter_accepts f x = true <-> forall y, f = Some y -> x = y.
Proof.
  destruct f as [y |]; simpl.
  - rewrite bool_decide_eq_true. split; [by intros -> ? [= ->] | auto].
  - split; [done | auto].
Qed.

Lemma elem_of_get_package_data name version build build_number platform p :
  p ∈ get_package_data W name version build build_number platform <->
  p ∈ repodata W /\ pkg_name p = name /\ pkg_version p = version /\
  (forall b, build = Some b -> pkg_build p = b) /\
  (forall k, build_number = Some k -> pkg_build_number p = k) /\
  pkg_platform p ∈ platform.
Proof.
  unfold get_package_data, pkg_matches.
  rewrite list_elem_of_In, filter_In, <- list_elem_of_In.
  rewrite !andb_true_iff, !bool_decide_eq_true, !filter_accepts_spec.
  tauto.
Qed.

Lemma skipped_spec meta :
  meta_skip meta || skip_for_variants W meta skip_variant_keys = true <->
  variant_skipped W skip_variant_keys meta.
Proof.
  unfold variant_skipped, skip_for_variants.
  rewrite orb_true_iff, negb_true_iff, bool_decide_eq_false.
  split; (intros [H | H]; [by left | right]).
  - rewrite disjoint_intersection_L in H.
    apply set_choose_L in H as [key Hkey].
    apply elem_of_intersection in Hkey as [H1 H2]. eauto.
  - destruct H as (key & H1 & H2). intros Hdisj.
    by apply (proj1 (elem_of_disjoint _ _) Hdisj key).
Qed.

Lemma noarch_spec meta :
  have_noarch_python_build_number W meta = true <-> noarch_exists W meta.
Proof.
  unfold have_noarch_python_build_number, noarch_exists, same_package.
  case_bool_decide as Hna; simpl.
  - destruct (get_package_data W _ _ None _ ["noarch"]) as [| p l] eqn:Hq.
    + split; [done |]. intros (_ & p & (Hp & Hn & Hv & Hpl) & Hbn).
      assert (Hin : p ∈ get_package_data W (meta_name meta)
                      (meta_version meta) None
                      (Some (meta_build_number meta)) ["noarch"]).
      { apply elem_of_get_package_data. repeat split; try done.
        by intros k [= <-]. }
      rewrite Hq in Hin. by apply elem_of_nil in Hin.
    + split; [intros _ | done]. split; [done |]. exists p.
      assert (Hin : p ∈ get_package_data W (meta_name meta)
                      (meta_version meta) None
                      (Some (meta_build_number meta)) ["noarch"]).
      { rewrite Hq. by left. }
      apply elem_of_get_package_data in Hin
        as (Hp & Hn & Hv & _ & Hbn & Hpl).
      repeat split; try done. by apply Hbn.
  - split; [done |]. by intros [H _].
Qed.


(** [have_variant] raises only when there is no exact match and a
    requirement is blank; otherwise it decides [variant_exists]. *)
Lemma have_variant_spec meta have :
  have_variant W meta = Ok have ->
  have = true <-> variant_exists W meta.
Proof.
  unfold have_variant, variant_exists, same_package.
  destruct (get_package_data W _ _ (Some _) None linux_noarch)
    as [| p l] eqn:Hexact.
  - destruct (build_deps_of meta) as [deps |] eqn:Hdeps; [| done].
    simpl. intros [= <-]. rewrite existsb_exists. split.
    + intros (build & Hin & Heq). right.
      apply in_map_iff in Hin as (p & <- & Hp).
      apply list_elem_of_In, elem_of_get_package_data in Hp
        as (Hp & Hn & Hv & _ & Hbn & Hpl).
      apply String.eqb_eq in Heq. exists deps, p.
      repeat split; try done. by apply Hbn.
    + intros [(p & (Hp & Hn & Hv & Hpl) & Hb)
             | (deps' & p & [= <-] & (Hp & Hn & Hv & Hpl) & Hbn & Htrim)].
      * exfalso.
        assert (Hin : p ∈ get_package_data W (meta_name meta)
                        (meta_version meta) (Some (meta_build_id meta))
                        None linux_noarch).
        { apply elem_of_get_package_data. repeat split; try done.
          by intros b' [= <-]. }
        rewrite Hexact in Hin. by apply elem_of_nil in Hin.
      * exists (pkg_build p). split; [| by apply String.eqb_eq].
        apply in_map. apply list_elem_of_In, elem_of_get_package_data.
        repeat split; try done. by intros k [= <-].
  - intros [= <-]. split; [intros _ | done]. left. exists p.
    assert (Hin : p ∈ get_package_data W (meta_name meta)
                    (meta_version meta) (Some (meta_build_id meta))
                    None linux_noarch).
    { rewrite Hexact. by left. }
    apply elem_of_get_package_data in Hin as (Hp & Hn & Hv & Hb & _ & Hpl).
    repeat split; try done. by apply Hb.
Qed.


Lemma variant_flag_total meta :
  (exists deps, build_deps_of meta = Ok deps) ->
  exists flag, variant_flag W skip_variant_keys meta = Ok flag.
Proof.
  intros [deps Hdeps]. unfold variant_flag.
  destruct (_ || _); [eauto |].
  destruct (have_noarch_python_build_number W meta); [eauto |].
  unfold have_variant. destruct (get_package_data W _ _ (Some _) None _).
  - rewrite Hdeps. simpl. destruct (existsb _ _); [eauto |].
    destruct (will_build_variant W meta); eauto.
  - simpl. eauto.
Qed.

Lemma fold_lor flags acc :
  fold_left Z.lor flags acc = Z.lor acc (foldr Z.lor 0 flags).
Proof.
  revert acc. induction flags as [| f flags IH]; intros acc; simpl.
  - by rewrite Z.lor_0_r.
  - by rewrite IH, Z.lor_assoc.
Qed.

Lemma variant_flags_spec metas acc :
  match variant_flags W skip_variant_keys acc metas with
  | Ok st =>
      exists flags,
        Forall2 (fun m f => variant_flag W skip_variant_keys m = Ok f)
          metas flags /\
        st = Z.lor acc (foldr Z.lor 0 flags)
  | Raise e =>
      exists meta, meta ∈ metas /\
        variant_flag W skip_variant_keys meta = Raise e
  end.
Proof.
  revert acc. induction metas as [| m metas IH]; intros acc; simpl.
  - exists []. split; [constructor | by rewrite Z.lor_0_r].
  - destruct (variant_flag W skip_variant_keys m) as [f | e] eqn:Hf; simpl.
    + specialize (IH (Z.lor acc f)).
      destruct (variant_flags W skip_variant_keys (Z.lor acc f) metas).
      * destruct IH as (flags & Hall & ->). exists (f :: flags).
        split; [by constructor |]. simpl. by rewrite Z.lor_assoc.
      * destruct IH as (meta & Hin & Hr). exists meta. split; [by right | done].
    + exists m. split; [by left | done].
Qed.

End ClassifierFacts.

(* ===================================================================== *)
(** * Properties of the pinning-state classifier *)
(* ===================================================================== *)

Lemma find_handler_render (e : exn) :
  find_handler (A := option (option (list MetaData)))
    [ (is_RecipeError, ret None); (is_Exception, ret None) ] e =
  if is_Exception e then Some (ret None) else None.
Proof. by destruct e. Qed.

(** The characters [has_invalid_build_string] accepts are the digits, the
    ASCII letters, the underscore and the dot. *)
Lemma allowed_build_string_character_spec (c : ascii) :
  allowed_build_string_character c = true <->
  let k := nat_of_ascii c in
  (48 <= k <= 57)%nat \/ (65 <= k <= 90)%nat \/ (97 <= k <= 122)%nat \/
  c = "_"%char \/ c = "."%char.
Proof.
  unfold allowed_build_string_character, is_digit, is_ascii_upper,
    is_ascii_lower.
  rewrite !orb_true_iff, !andb_true_iff, !Nat.leb_le, !Ascii.eqb_eq.
  cbv zeta. tauto.
Qed.

(** The classification of the two example variants against the example
    index: the variant without a python requirement exists already, the
    one that requires python needs a bump. *)
Example check_example :
  let W := example_world (Ok true) (Ok true)
             (Ok (Some [example_meta [] []; example_meta ["python >=3"] []]))
             example_index in
  (check W "recipes/samtools" true ∅ []).2
    = Ok (Z.lor HAVE BUMP, "recipes/samtools").
Proof. vm_compute. reflexivity. Qed.

Lemma forallb_false_exists {A} (f : A -> bool) (l : list A) :
  forallb f l = false -> exists x, x ∈ l /\ f x = false.
Proof.
  induction l as [| x l IH]; simpl; [done |].
  destruct (f x) eqn:Hx; simpl.
  - intros H. destruct (IH H) as (y & Hy & Hfy). exists y.
    split; [by right | done].
  - intros _. exists x. split; [by left | done].
Qed.

(** C10.  A variant that is not skipped, has no noarch match and for which
    [have_variant] finds no match gets BUMPED when the index holds no build
    of its name and version; and a variant gets BUMP only when the index
    holds a build of its name and version whose build number is at least
    the variant's. *)
Theorem no_existing_build_gives_bumped (W : World)
    (skip_variant_keys : gset string) (meta : MetaData) :
  (~ variant_skipped W skip_variant_keys meta -> ~ noarch_exists W meta ->
   have_variant W meta = Ok false ->
   get_package_data W (meta_name meta) (meta_version meta) None None
     linux_noarch = [] ->
   variant_flag W skip_variant_keys meta = Ok BUMPED) /\
  (variant_flag W skip_variant_keys meta = Ok BUMP ->
   exists p, same_package W linux_noarch meta p /\
     meta_build_number meta <= pkg_build_number p).
Proof.
  split.
  - intros Hns Hnna Hhave Hempty. unfold variant_flag.
    rewrite <- skipped_spec in Hns. apply not_true_is_false in Hns.
    rewrite <- noarch_spec in Hnna. apply not_true_is_false in Hnna.
    rewrite Hns, Hnna, Hhave. simpl.
    unfold will_build_variant. by rewrite Hempty.
  - unfold variant_flag. destruct (_ || _); [done |].
    destruct (have_noarch_python_build_number W meta); [done |].
    destruct (have_variant W meta) as [[|] |]; [done | | done]. simpl.
    destruct (will_build_variant W meta) eqn:Hwb; [done |]. intros _.
    unfold will_build_variant in Hwb.
    apply forallb_false_exists in Hwb as (k & Hk & Hlt).
    apply elem_of_map in Hk as (p & -> & Hp).
    apply elem_of_get_package_data in Hp as (Hp & Hn & Hv & _ & _ & Hpl).
    exists p. split; [by repeat split |]. by apply Z.ltb_ge.
Qed.

Lemma no_existing_build_gives_bumped_witness :
  let W := example_world (Ok true) (Ok true) (Ok (Some [])) [] in
  let meta := example_meta ["python >=3"] [] in
  ~ variant_skipped W ∅ meta /\ ~ noarch_exists W meta /\
  have_variant W meta = Ok false /\
  get_package_data W (meta_name meta) (meta_version meta) None None
    linux_noarch = [] /\
  variant_flag W ∅ meta = Ok BUMPED.
Proof.
  intros W meta.
  assert (H1 : ~ variant_skipped W ∅ meta).
  { intros [H | (key & H & _)]; [done | by apply not_elem_of_empty in H]. }
  assert (H2 : ~ noarch_exists W meta) by (by intros [H _]).
  split; [exact H1 |]. split; [exact H2 |].
  split; [reflexivity |]. split; [reflexivity |].
  exact (proj1 (no_existing_build_gives_bumped W ∅ meta) H1 H2
           eq_refl eq_refl).
Defined.

(** [dep.split()[0].replace('-', '_')] of the build and host requirements:
    a name is among the build dependencies when a requirement has it as
    its first word, hyphens folded. *)
Lemma elem_of_build_deps meta deps name :
  build_deps_of meta = Ok deps ->
  name ∈ deps <->
  exists dep,
    dep ∈ meta_requirements_build meta ++ meta_requirements_host meta /\
    dep_name dep = Ok name.
Proof.
  unfold build_deps_of. intros H. apply rmapM_ok in H.
  split.
  - intros Hn. apply list_elem_of_lookup in Hn as [j Hj].
    destruct (Forall2_lookup_r _ _ _ _ _ H Hj) as (dep & Hdep & Hname).
    exists dep. split; [by eapply list_elem_of_lookup_2 | done].
  - intros (dep & Hdep & Hname). apply list_elem_of_lookup in Hdep as [j Hj].
    destruct (Forall2_lookup_l _ _ _ _ _ H Hj) as (name' & Hn & Hname').
    rewrite Hname in Hname'. injection Hname' as <-.
    by eapply list_elem_of_lookup_2.
Qed.

Lemma trimmed_py38_without_python deps :
  "python" ∉ deps -> trimmed_build_id deps "py38_abc123" = "abc123".
Proof.
  intros H. unfold trimmed_build_id.
  change (legacy_groupdict "py38_abc123") with
    [("numpy", None); ("python", Some "py38"); ("perl", None);
     ("lua", None); ("r_base", None); ("mro_base", @None string)].
  cbn [fold_left fst snd]. by rewrite (bool_decide_eq_false_2 _ H).
Qed.

Lemma trimmed_py38_with_python deps :
  "python" ∈ deps -> trimmed_build_id deps "py38_abc123" = "py38_abc123".
Proof.
  intros H. unfold trimmed_build_id.
  change (legacy_groupdict "py38_abc123") with
    [("numpy", None); ("python", Some "py38"); ("perl", None);
     ("lua", None); ("r_base", None); ("mro_base", @None string)].
  cbn [fold_left fst snd]. by rewrite (bool_decide_eq_true_2 _ H).
Qed.

(** C8.  For a variant whose build string is [abc123], the build string
    [py38_abc123] of the index is equal to it after normalization, and so
    counts as HAVE, when no build or host requirement of the variant has
    the name python; when one has, it is not equal after normalization, and
    the variant is not HAVE when every build of its name and version in the
    index has that build string. *)
Theorem legacy_python_prefix (W : World) (meta : MetaData)
    (deps : list string) :
  build_deps_of meta = Ok deps ->
  meta_build_id meta = "abc123" ->
  let declares_python :=
    exists dep,
      dep ∈ meta_requirements_build meta ++ meta_requirements_host meta /\
      dep_name dep = Ok "python" in
  (~ declares_python ->
   trimmed_build_id deps "py38_abc123" = meta_build_id meta /\
   forall p, same_package W linux_noarch meta p ->
     pkg_build_number p = meta_build_number meta ->
     pkg_build p = "py38_abc123" -> have_variant W meta = Ok true) /\
  (declares_python ->
   trimmed_build_id deps "py38_abc123" <> meta_build_id meta /\
   ((forall p, same_package W linux_noarch meta p ->
       pkg_build p = "py38_abc123") ->
    have_variant W meta = Ok false)).
Proof.
  intros Hdeps Hid declares_python.
  assert (Hpy : "python" ∈ deps <-> declares_python)
    by (by apply elem_of_build_deps).
  split.
  - intros Hno. rewrite <- Hpy in Hno. split.
    + rewrite Hid. by apply trimmed_py38_without_python.
    + intros p Hsame Hbn Hbuild.
      destruct (have_variant W meta) as [have | e] eqn:Hhave.
      * f_equal. apply (have_variant_spec W meta have Hhave). right.
        exists deps, p. repeat split; try done; try apply Hsame.
        rewrite Hbuild, Hid. by apply trimmed_py38_without_python.
      * exfalso. unfold have_variant in Hhave.
        destruct (get_package_data W _ _ (Some _) None _); [| done].
        by rewrite Hdeps in Hhave.
  - intros Hyes. rewrite <- Hpy in Hyes. split.
    + rewrite Hid, trimmed_py38_with_python by done. done.
    + intros Hall.
      destruct (have_variant W meta) as [have | e] eqn:Hhave.
      * f_equal. destruct have; [exfalso | done].
        assert (Hex : variant_exists W meta)
          by (by apply (have_variant_spec W meta true Hhave)).
        destruct Hex as [(p & Hsame & Hb)
                        | (deps' & p & Hd & Hsame & Hbn & Htrim)].
        -- rewrite (Hall p Hsame), Hid in Hb. done.
        -- rewrite Hdeps in Hd. injection Hd as <-.
           rewrite (Hall p Hsame), Hid in Htrim.
           by rewrite trimmed_py38_with_python in Htrim.
      * exfalso. unfold have_variant in Hhave.
        destruct (get_package_data W _ _ (Some _) None _); [| done].
        by rewrite Hdeps in Hhave.
Qed.

Lemma legacy_python_prefix_witness :
  let W := example_world (Ok true) (Ok true) (Ok (Some [])) example_index in
  let plain := example_meta [] [] in
  let pinned := example_meta ["python >=3"] [] in
  build_deps_of plain = Ok [] /\ meta_build_id plain = "abc123" /\
  build_deps_of pinned = Ok ["python"] /\ meta_build_id pinned = "abc123" /\
  trimmed_build_id [] "py38_abc123" = meta_build_id plain /\
  trimmed_build_id ["python"] "py38_abc123" <> meta_build_id pinned.
Proof.
  intros W plain pinned.
  split; [reflexivity |]. split; [reflexivity |].
  split; [reflexivity |]. split; [reflexivity |]. split.
  - refine (proj1 (proj1 (legacy_python_prefix W plain [] eq_refl eq_refl) _)).
    intros (dep & Hdep & _). by apply elem_of_nil in Hdep.
  - refine (proj1 (proj2 (legacy_python_prefix W pinned ["python"]
                            eq_refl eq_refl) _)).
    exists "python >=3". split; [by left | reflexivity].
Defined.

(** The two variants against the example index: the build [py38_abc123]
    counts for the variant without a python requirement only. *)
Example have_variant_example :
  let W := example_world (Ok true) (Ok true) (Ok (Some [])) example_index in
  have_variant W (example_meta [] []) = Ok true /\
  have_variant W (example_meta ["python >=3"] []) = Ok false /\
  have_variant W (example_meta [] ["python"]) = Ok false.
Proof. vm_compute. done. Qed.

(* ===================================================================== *)
(** * Errors raised by collaborators *)
(* ===================================================================== *)

Section ErrorFacts.

Context (W : World) (opts : Options).

(** An error raised by the call that runs conda-build. *)
Lemma build_tool_error recipe e testonly mulled_test channels docker dis tr exc :
  build_tool_answer W recipe e testonly channels docker dis tr = Raise exc ->
  build W recipe e testonly mulled_test channels docker dis tr =
  (tr ++ [build_tool_event W recipe e testonly channels docker dis (Raise exc)],
   if is_build_failure exc
   then Ok {| success := false; mulled_image := None |}
   else Raise exc).
Proof.
  unfold build_tool_answer, build_tool_event, build, build_try.
  destruct docker; intros H; unfold bind, try_except, call, ret;
    rewrite H; cbn [find_handler]; by destruct (is_build_failure exc).
Qed.

Lemma attempt_targets_app subdag recipe name pre post acc tr :
  attempt_targets W opts subdag recipe name acc (pre ++ post) tr =
  match attempt_targets W opts subdag recipe name acc pre tr with
  | (tr1, Ok acc1) => attempt_targets W opts subdag recipe name acc1 post tr1
  | (tr1, Raise e) => (tr1, Raise e)
  end.
Proof.
  revert acc tr. induction pre as [| t pre IH]; intros acc tr; simpl; [done |].
  unfold bind at 1 2.
  destruct (attempt_target W opts subdag recipe name acc t tr)
    as [tr1 [acc1 | e]]; [apply IH | done].
Qed.

(** An error that comes out of [build], for whichever target of whichever
    recipe, ends the run there. *)
Lemma build_error_ends_run recipe_targets dag name2recipes n i tr
    subdag recipes pre r post tr1 st1 name tpre t tpost tr2 acc tr3 exc :
  Nx.truthy dag = true ->
  select_subdag (opt_testonly opts) dag n i = Ok (Some subdag) ->
  recipes_in_order subdag name2recipes = Ok recipes ->
  recipes = pre ++ r :: post ->
  process_recipes W opts subdag (recipe2name_of name2recipes) recipe_targets
    initial pre tr = (tr1, Ok st1) ->
  recipe2name_of name2recipes !! r = Some name ->
  skip_dependent st1 !! name = None ->
  recipe_targets !! r = Some (tpre ++ t :: tpost) ->
  attempt_targets W opts subdag r name (st1, true) tpre tr1 = (tr2, Ok acc) ->
  build W r (target_env t) (opt_testonly opts) (opt_mulled_test opts)
    (opt_channels opts) (opt_docker_builder opts) false tr2
    = (tr3, Raise exc) ->
  build_recipes W opts recipe_targets dag name2recipes n i tr
    = (tr3, Raise exc).
Proof.
  intros Hdag Hsel Hrec -> Hpre Hname Hskip Hts Htpre Hbuild.
  unfold build_recipes. rewrite Hdag. cbn [negb].
  unfold bind at 1. unfold lift at 1. rewrite Hsel.
  unfold bind at 1. unfold lift at 1. rewrite Hrec.
  unfold bind at 1. rewrite process_recipes_app, Hpre.
  cbn [process_recipes]. unfold bind at 1.
  unfold process_recipe, map_get. unfold bind at 1. unfold lift at 1.
  rewrite Hname, Hskip. unfold bind at 1. unfold lift at 1. rewrite Hts.
  unfold bind at 1. rewrite attempt_targets_app, Htpre.
  cbn [attempt_targets]. unfold bind at 1.
  unfold attempt_target. unfold bind at 1. by rewrite Hbuild.
Qed.

(** An error raised by the renderer. *)
Lemma check_render_error recipe keep_metas skip_variant_keys tr exc :
  conda_render W tr recipe = Raise exc ->
  check W recipe keep_metas skip_variant_keys tr =
  (tr ++ [EvCondaRender recipe (Raise exc)],
   if is_Exception exc then Ok (FAIL, recipe) else Raise exc).
Proof.
  intros H. unfold check, bind, try_except, call, ret. rewrite H.
  rewrite find_handler_render. by destruct (is_Exception exc).
Qed.

End ErrorFacts.

(** C7, as stated, fails for the render step: an error of the renderer that
    is not a [RecipeError] does not come out of [check]; it is turned into
    FAIL like the expected ones. *)
Lemma unexpected_render_error_absorbed :
  check
    (example_world (Ok true) (Ok true) (Raise (OtherException "ValueError")) [])
    "recipes/a" false ∅ [] =
  ([EvCondaRender "recipes/a" (Raise (OtherException "ValueError"))],
   Ok (FAIL, "recipes/a")).
Proof. reflexivity. Qed.

(** An error of the build tool that is not an expected one does end the
    run of the scheduler, before the cleanup and before the second recipe. *)
Example unexpected_build_error_ends_run :
  build_recipes docker_down_world docker_opts good_targets example_graph
    example_name2recipes 1 0 [] =
  ([EvDockerBuildRecipe "recipes/a" "--no-build-id --no-anaconda-upload"
      [("CONDA_PY", "27")] (Raise (OtherException "OSError"))],
   Raise (OtherException "OSError")).
Proof. vm_compute. reflexivity. Qed.
(* ===================================================================== *)
(** * Further properties of [build] *)
(* ===================================================================== *)

Lemma calls_only_ret {A} P (a : A) : calls_only P (ret a).
Proof.
  intros tr tr' r [= <- <-]. exists []. by rewrite app_nil_r.
Qed.

Lemma calls_only_lift {A} P (x : result A) : calls_only P (lift x).
Proof.
  intros tr tr' r [= <- <-]. exists []. by rewrite app_nil_r.
Qed.

Lemma calls_only_call {A} (P : event -> Prop) (ask : trace -> result A) ev :
  (forall r, P (ev r)) -> calls_only P (call ask ev).
Proof.
  intros H tr tr' r [= <- <-]. eexists. split; [done |]. by constructor.
Qed.

Lemma calls_only_bind {A B} P (m : M A) (f : A -> M B) :
  calls_only P m -> (forall a, calls_only P (f a)) -> calls_only P (bind m f).
Proof.
  intros Hm Hf tr tr' r H.
  apply bind_inv in H as [(a & tr1 & H1 & H2) | (e & H1 & _)].
  - apply Hm in H1 as (ext1 & -> & HP1). apply Hf in H2 as (ext2 & -> & HP2).
    exists (ext1 ++ ext2). split; [by rewrite app_assoc |].
    by apply Forall_app.
  - by apply Hm in H1.
Qed.

Lemma calls_only_try_except {A} P (m : M A) clauses :
  calls_only P m ->
  (forall c, c ∈ clauses -> calls_only P c.2) ->
  calls_only P (try_except m clauses).
Proof.
  intros Hm Hc tr tr' r. unfold try_except.
  destruct (m tr) as [tr1 [a | e]] eqn:H1.
  - intros [= <- <-]. by apply Hm in H1.
  - apply Hm in H1 as (ext1 & -> & HP1).
    assert (Hh : forall h, find_handler clauses e = Some h -> calls_only P h).
    { clear -Hc. induction clauses as [| [caught h0] cl IH]; [done |].
      simpl. intros h. destruct (caught e).
      - intros [= <-]. apply (Hc (caught, h0)). by left.
      - apply IH. intros c Hin. apply Hc. by right. }
    destruct (find_handler clauses e) as [h |] eqn:Hfind.
    + intros H2. apply (Hh h eq_refl) in H2 as (ext2 & -> & HP2).
      exists (ext1 ++ ext2). split; [by rewrite app_assoc |].
      by apply Forall_app.
    + intros [= <- <-]. eauto.
Qed.

Lemma calls_only_mono {A} (P Q : event -> Prop) (m : M A) :
  (forall ev, P ev -> Q ev) -> calls_only P m -> calls_only Q m.
Proof.
  intros HPQ Hm tr tr' r H. apply Hm in H as (ext & -> & HP).
  exists ext. split; [done |]. eapply Forall_impl; [exact HP | exact HPQ].
Qed.

Section FurtherBuildFacts.

Context (W : World).

(** The calls of the [try] block of [build]. *)
Lemma build_try_calls (P : event -> Prop) recipe e testonly channels docker dis :
  (forall ev, is_upload ev = false -> is_test_call ev = false -> P ev) ->
  calls_only P (build_try W recipe e testonly channels docker dis).
Proof.
  intros HP. unfold build_try. destruct docker.
  - apply calls_only_bind; [apply calls_only_call; intros; by apply HP |].
    intros _. apply calls_only_bind;
      [apply calls_only_call; intros; by apply HP |].
    intros pkg. apply calls_only_bind;
      [apply calls_only_call; intros; by apply HP |].
    intros found. destruct (negb found); [apply calls_only_ret |].
    apply calls_only_bind; [apply calls_only_call; intros; by apply HP |].
    intros _. apply calls_only_ret.
  - apply calls_only_bind; [apply calls_only_call; intros; by apply HP |].
    intros _. apply calls_only_bind;
      [apply calls_only_call; intros; by apply HP |].
    intros _. apply calls_only_ret.
Qed.

End FurtherBuildFacts.

(** X1.  Without [mulled_test], [build] never calls the package test nor
    asks for an image name, however it ends, and a result it returns
    carries no image. *)
Theorem build_without_mulled_test (W : World) (recipe : string) (e : env)
    (testonly : bool) (channels : list string) (docker dis : bool)
    (tr : trace) :
  let run := build W recipe e testonly false channels docker dis tr in
  (exists ext, run.1 = tr ++ ext /\
     Forall (fun ev => is_test_call ev = false) ext) /\
  match run.2 with
  | Ok res => mulled_image res = None
  | Raise _ => True
  end.
Proof.
  intros run. subst run. split.
  - destruct (build W recipe e testonly false channels docker dis tr)
      as [tr' r] eqn:Hrun. cbn [fst].
    revert Hrun. generalize tr tr' r.
    change (calls_only (fun ev => is_test_call ev = false)
              (build W recipe e testonly false channels docker dis)).
    unfold build. apply calls_only_bind.
    + apply calls_only_try_except.
      * apply build_try_calls. auto.
      * intros c Hc. apply list_elem_of_singleton in Hc as ->.
        apply calls_only_ret.
    + intros [res |]; apply calls_only_ret.
  - unfold build, bind, try_except.
    destruct (build_try W recipe e testonly channels docker dis tr)
      as [tr1 [[res |] | exc]] eqn:Htry; cbn [negb snd ret]; try done.
    + revert Htry. unfold build_try, bind, call, ret.
      repeat (destruct_innermost; cbn beta iota zeta); by intros [= <- <-].
    + cbn [find_handler]. destruct (is_build_failure exc); done.
Qed.

(** Membership in a trace that is written out. *)
Ltac elem_of_trace H :=
  repeat (apply elem_of_cons in H as [H | H];
          [try discriminate H; try (injection H as ? ?; subst) |]);
  try (by apply elem_of_nil in H).

(** X2.  A result [build] returns is a failure without image, or a
    success; with [mulled_test], a success means that the package test was
    the call before last and answered exit code 0 without the text
    "Unexpected exit code", and the image is the one named by the last call;
    and a package test that was run decides the result. *)
Theorem build_result_tested (W : World) (recipe : string) (e : env)
    (testonly mulled_test : bool) (channels : list string)
    (docker dis : bool) (tr tr' : trace) (res : BuildResult) :
  build W recipe e testonly mulled_test channels docker dis tr
    = (tr', Ok res) ->
  exists ext, tr' = tr ++ ext /\
    (success res = false -> mulled_image res = None) /\
    (mulled_test = true -> success res = true ->
       exists pre path out img,
         ext = pre ++ [EvTestPackage path (Ok (0, out));
                       EvGetImageName path (Ok img)] /\
         contains "Unexpected exit code" out = false /\
         mulled_image res = Some img) /\
    (forall path rc out,
       EvTestPackage path (Ok (rc, out)) ∈ ext ->
       success res =
       (rc =? 0) && negb (contains "Unexpected exit code" out)).
Proof.
  unfold build, build_try, bind, try_except, call, ret.
  cbn [find_handler].
  repeat (destruct_innermost; cbn beta iota zeta);
    intros [= <- <-]; rewrite <- ?app_assoc; cbn [app];
    (eexists; split; [reflexivity || (symmetry; apply app_nil_r) |]);
    cbn [success mulled_image];
    (split; [done |]); split;
    try (intros path rc out Hin; elem_of_trace Hin; cbn [fst snd] in *;
         congruence);
    intros Hm Hs; subst; try discriminate;
    match goal with
    | H : (?a.1 =? 0) && negb (contains _ ?a.2) = true |- _ =>
        destruct a as [rc out]; cbn [fst snd] in H;
        apply andb_true_iff in H as [Hrc Hout];
        apply Z.eqb_eq in Hrc as ->; apply negb_true_iff in Hout
    end.
  - eexists [_; _; _; _; _], _, _, _. split; [reflexivity | by split].
  - eexists [_; _; _], _, _, _. split; [reflexivity | by split].
Qed.

Lemma build_result_tested_witness :
  let W := example_world (Ok true) (Ok true) (Ok (Some [])) [] in
  exists tr' res,
    build W "recipes/a" (target_env target_py27) false true ["bioconda"]
      false false [] = (tr', Ok res) /\
    success res = true /\
    exists ext, tr' = [] ++ ext /\
      (success res = false -> mulled_image res = None) /\
      (true = true -> success res = true ->
         exists pre path out img,
           ext = pre ++ [EvTestPackage path (Ok (0, out));
                         EvGetImageName path (Ok img)] /\
           contains "Unexpected exit code" out = false /\
           mulled_image res = Some img) /\
      (forall path rc out,
         EvTestPackage path (Ok (rc, out)) ∈ ext ->
         success res =
         (rc =? 0) && negb (contains "Unexpected exit code" out)).
Proof.
  intros W.
  destruct (build W "recipes/a" (target_env target_py27) false true
              ["bioconda"] false false []) as [tr' r] eqn:Hrun.
  pose proof Hrun as Hrun'. vm_compute in Hrun'. injection Hrun' as <- <-.
  eexists _, _. split; [exact Hrun |]. split; [reflexivity |].
  exact (build_result_tested W "recipes/a" (target_env target_py27) false
           true ["bioconda"] false false [] _ _ Hrun).
Defined.

(** X3.  When [os.path.exists] answers that the package the docker
    builder should have produced is not there, [build] reports a failure
    without image, although the container ended normally; the check is the
    last call made, so the package is not tested. *)
Theorem build_without_package (W : World) (recipe : string) (e : env)
    (testonly mulled_test : bool) (channels : list string)
    (docker dis : bool) (tr tr' : trace) (r : result BuildResult)
    (ext : trace) (pkg : string) :
  build W recipe e testonly mulled_test channels docker dis tr = (tr', r) ->
  tr' = tr ++ ext ->
  EvPathExists pkg (Ok false) ∈ ext ->
  r = Ok {| success := false; mulled_image := None |} /\
  docker = true /\
  exists dir args denv,
    ext = [EvDockerBuildRecipe dir args denv (Ok tt);
           EvBuiltPackagePath recipe e (Ok pkg);
           EvPathExists pkg (Ok false)].
Proof.
  unfold build, build_try, bind, try_except, call, ret.
  cbn [find_handler].
  repeat (destruct_innermost; cbn beta iota zeta);
    intros [= <- <-]; rewrite <- ?app_assoc; cbn [app];
    intros Hext; try apply app_inv_head in Hext; subst ext;
    intros Hin; elem_of_trace Hin;
    try match goal with H : negb false = false |- _ => discriminate H end.
  all: split; [done |]; split; [done |].
  all: match goal with u : unit |- _ => destruct u end.
  all: by eexists _, _, _.
Qed.

Lemma build_without_package_witness :
  let run :=
    ([EvDockerBuildRecipe "recipes/a" "--no-build-id --no-anaconda-upload" []
        (Ok tt);
      EvBuiltPackagePath "recipes/a" [] (Ok "recipes/a");
      EvPathExists "recipes/a" (Ok false)],
     Ok {| success := false; mulled_image := None |}) in
  build no_package_world "recipes/a" [] false true [] true false [] = run /\
  EvPathExists "recipes/a" (Ok false) ∈ run.1 /\
  run.2 = Ok {| success := false; mulled_image := None |} /\
  true = true /\
  exists dir args denv,
    run.1 = [EvDockerBuildRecipe dir args denv (Ok tt);
             EvBuiltPackagePath "recipes/a" [] (Ok "recipes/a");
             EvPathExists "recipes/a" (Ok false)].
Proof.
  intros run.
  assert (Hrun : build no_package_world "recipes/a" [] false true [] true
                   false [] = run) by reflexivity.
  assert (Hin : EvPathExists "recipes/a" (Ok false) ∈ run.1)
    by (do 2 apply list_elem_of_further; apply list_elem_of_here).
  split; [exact Hrun |]. split; [exact Hin |].
  exact (build_without_package no_package_world "recipes/a" [] false true []
           true false [] run.1 run.2 run.1 "recipes/a" Hrun eq_refl Hin).
Defined.

Lemma dict_lookup_set {V} (d : dict string V) (k k' : string) (v : V) :
  dict_lookup (dict_set d k v) k' =
  if String.eqb k k' then Some v else dict_lookup d k'.
Proof.
  induction d as [| [k0 v0] d IH]; simpl.
  - done.
  - destruct (String.eqb k0 k) eqn:H0; simpl.
    + apply String.eqb_eq in H0 as ->. by destruct (String.eqb k k').
    + rewrite IH. destruct (String.eqb k0 k') eqn:H1; [| done].
      apply String.eqb_eq in H1 as ->. by rewrite String.eqb_sym, H0.
Qed.

Lemma dict_lookup_absent {V} (d : dict string V) (k : string) :
  k ∉ map fst d -> dict_lookup d k = None.
Proof.
  induction d as [| [k0 v0] d IH]; simpl; [done |].
  intros H. apply not_elem_of_cons in H as [Hne H].
  destruct (String.eqb k0 k) eqn:H0; [| by apply IH].
  apply String.eqb_eq in H0. congruence.
Qed.

Lemma travis_fold_lookup (vars : env) (acc : env) (k : string) :
  NoDup (map fst vars) ->
  dict_lookup
    (fold_left
       (fun acc kv =>
          if startswith "TRAVIS" kv.1 then dict_set acc kv.1 kv.2 else acc)
       vars acc) k =
  match (if startswith "TRAVIS" k then dict_lookup vars k else None) with
  | Some v => Some v
  | None => dict_lookup acc k
  end.
Proof.
  revert acc. induction vars as [| [k0 v0] vars IH]; intros acc Hnd.
  - simpl. by destruct (startswith "TRAVIS" k).
  - apply NoDup_cons in Hnd as [Hk0 Hnd]. cbn [fold_left fst snd].
    rewrite IH by done. cbn [dict_lookup].
    destruct (String.eqb k0 k) eqn:H0.
    + apply String.eqb_eq in H0 as ->.
      rewrite (dict_lookup_absent vars k Hk0).
      destruct (startswith "TRAVIS" k); [| done].
      by rewrite dict_lookup_set, String.eqb_refl.
    + destruct (startswith "TRAVIS" k0); [| done].
      rewrite dict_lookup_set, H0.
      by destruct (if startswith "TRAVIS" k then dict_lookup vars k else None).
Qed.

(** X4.  The environment [build] hands to the docker builder: the
    variables of the target, and over them the variables of [os.environ]
    whose name starts with TRAVIS, unless that is disabled.  No other
    variable of the host gets into the container. *)
Theorem docker_env_spec (W : World) (e : env) (dis : bool) (k : string) :
  NoDup (map fst (os_environ W)) ->
  dict_lookup (docker_env_of W e dis) k =
  if negb dis && startswith "TRAVIS" k
  then match dict_lookup (os_environ W) k with
       | Some v => Some v
       | None => dict_lookup e k
       end
  else dict_lookup e k.
Proof.
  intros Hnd. unfold docker_env_of. destruct dis; [done |].
  rewrite travis_fold_lookup by done. cbn [negb andb].
  by destruct (startswith "TRAVIS" k).
Qed.

Lemma docker_env_spec_witness :
  let W := example_world (Ok true) (Ok true) (Ok (Some [])) [] in
  NoDup (map fst (os_environ W)) /\
  dict_lookup (docker_env_of W [("CONDA_PY", "27")] false) "TRAVIS_BRANCH"
    = Some "master" /\
  dict_lookup (docker_env_of W [("CONDA_PY", "27")] false) "PATH" = None.
Proof.
  intros W.
  assert (Hnd : NoDup (map fst (os_environ W)))
    by (apply NoDup_by_computation; reflexivity).
  split; [exact Hnd |]. split.
  - exact (docker_env_spec W [("CONDA_PY", "27")] false "TRAVIS_BRANCH" Hnd).
  - exact (docker_env_spec W [("CONDA_PY", "27")] false "PATH" Hnd).
Defined.

(* ===================================================================== *)
(** * Further properties of the scheduler *)
(* ===================================================================== *)

(** X5.  The ways [build_recipes] ends before the loop, none of which
    calls a collaborator: an empty graph gives [True], whatever the shard
    numbers are; on a graph with nodes, a shard index that is not below the
    shard count raises [ValueError]; and an index below the count, but not
    below the number of chunks, gives [True]. *)
Theorem build_recipes_nothing_to_do (W : World) (opts : Options)
    (recipe_targets : gmap string (list Target)) (dag : DiGraph)
    (name2recipes : dict string (list string)) (n i : Z) (tr : trace) :
  let run := build_recipes W opts recipe_targets dag name2recipes n i tr in
  let chunks := chunks_of n (subdags_of (opt_testonly opts) dag) in
  (nodes dag = [] -> run = (tr, Ok (true, None))) /\
  (nodes dag <> [] -> n <= i -> run = (tr, Raise ValueError)) /\
  (nodes dag <> [] -> i < n -> Z.of_nat (length chunks) <= i ->
   run = (tr, Ok (true, None))) /\
  (forall tr' b, run = (tr', Ok (b, None)) ->
     tr' = tr /\ b = true /\
     (nodes dag = [] \/ (i < n /\ Z.of_nat (length chunks) <= i))).
Proof.
  intros run chunks. subst run.
  unfold build_recipes, select_subdag. fold chunks.
  destruct (nodes dag) as [| x l] eqn:Hnodes;
    unfold Nx.truthy; rewrite Hnodes; cbn [negb].
  { split; [done |]. split; [by intros H |]. split; [by intros H |].
    intros tr' b [= <- <-]. auto. }
  unfold bind, lift, ret.
  split; [done |]. split.
  { intros _ Hi. by rewrite (proj2 (Z.leb_le n i) Hi). }
  split.
  { intros _ Hi Hlen. rewrite (proj2 (Z.leb_gt n i) Hi).
    by rewrite (proj2 (Z.leb_le _ i) Hlen). }
  intros tr' b.
  destruct (n <=? i) eqn:Hn; [done |]. apply Z.leb_gt in Hn.
  destruct (Z.of_nat (length chunks) <=? i) eqn:Hlen.
  { apply Z.leb_le in Hlen. intros [= <- <-]. auto. }
  destruct (index chunks i) as [c |]; [| done]. cbn [rmap rbind].
  destruct (recipes_in_order _ _); [| done].
  by destruct (process_recipes _ _ _ _ _ _ _ _) as [? [|]].
Qed.

Lemma build_recipes_nothing_to_do_witness :
  let W := example_world (Ok true) (Ok true) (Ok (Some [])) [] in
  let opts := example_opts true None in
  build_recipes W opts good_targets example_dag [] 2 2 []
    = ([], Raise ValueError) /\
  build_recipes W opts good_targets example_dag [] 5 4 []
    = ([], Ok (true, None)).
Proof.
  intros W opts. split.
  - refine (proj1 (proj2 (build_recipes_nothing_to_do W opts good_targets
                            example_dag [] 2 2 [])) _ _); [done | lia].
  - refine (proj1 (proj2 (proj2 (build_recipes_nothing_to_do W opts
                                   good_targets example_dag [] 5 4 [])))
              _ _ _); [done | lia | vm_compute; discriminate].
Defined.

(** X6.  A negative shard index passes both checks of [build_recipes] and
    is used as Python uses a negative list index: it counts the chunks from
    the end, and raises [IndexError] beyond the first one. *)
Theorem select_subdag_negative_index (testonly : bool) (dag : DiGraph)
    (n i : Z) :
  i < 0 -> i < n ->
  let chunks := chunks_of n (subdags_of testonly dag) in
  let len := Z.of_nat (length chunks) in
  (- len <= i ->
   exists c, chunks !! Z.to_nat (len + i) = Some c /\
     select_subdag testonly dag n i = Ok (Some (subgraph dag c))) /\
  (i < - len -> select_subdag testonly dag n i = Raise IndexError).
Proof.
  intros Hneg Hn chunks len. unfold select_subdag. fold chunks.
  rewrite (proj2 (Z.leb_gt n i) Hn).
  rewrite (proj2 (Z.leb_gt (Z.of_nat (length chunks)) i)) by lia.
  unfold index. rewrite (proj2 (Z.ltb_lt i 0) Hneg). fold len. split.
  - intros Hlen.
    rewrite (proj2 (Z.leb_le 0 (i + len))) by lia.
    rewrite (proj2 (Z.ltb_lt (i + len) len)) by lia. cbn [andb].
    destruct (lookup_lt_is_Some_2 chunks (Z.to_nat (i + len))) as [c Hc];
      [lia |].
    exists c. rewrite Z.add_comm. by rewrite Hc.
  - intros Hlen. by rewrite (proj2 (Z.leb_gt 0 (i + len))) by lia.
Qed.

Lemma select_subdag_negative_index_witness :
  select_subdag false example_dag 2 (-1)
    = Ok (Some (subgraph example_dag ["B"; "C"])) /\
  select_subdag false example_dag 2 (-3) = Raise IndexError.
Proof.
  split.
  - destruct (proj1 (select_subdag_negative_index false example_dag 2 (-1)
                       ltac:(lia) ltac:(lia)))
      as (c & Hc & ->); [vm_compute; discriminate |].
    vm_compute in Hc. by injection Hc as <-.
  - apply (proj2 (select_subdag_negative_index false example_dag 2 (-3)
                    ltac:(lia) ltac:(lia))).
    vm_compute. reflexivity.
Defined.

Section FurtherStepFacts.

Context (opts : Options) (subdag : DiGraph).
Context (recipe2name : gmap string string).
Context (recipe_targets : gmap string (list Target)).

Local Abbreviation steps' := (steps opts subdag recipe2name recipe_targets).

(** [all_success] says that no target has failed. *)
Lemma steps_all_success st rs ext st' :
  steps' st rs ext st' ->
  all_success st = bool_decide (failed st = []) ->
  all_success st' = bool_decide (failed st' = []).
Proof.
  induction 1 as [st | st r ext1 st1 rs ext2 st2 Hstep _ IH]; [done |].
  intros Hinv. apply IH. clear IH.
  destruct Hstep as [name blockers _ _
                    | name ts fts ext st1 _ _ _ _ _ Hf _ _ Has _ _ _];
    [done |].
  rewrite Has, Hf, Hinv.
  destruct (failed st) as [| x l]; destruct fts as [| t fts]; done.
Qed.

(** The recipes recorded as built, and those recorded as skipped, are
    recorded in the order they are processed. *)
Lemma steps_sublist st rs ext st' :
  steps' st rs ext st' ->
  exists bs ss,
    built_recipes st' = built_recipes st ++ bs /\
    skipped_recipes st' = skipped_recipes st ++ ss /\
    sublist bs rs /\ sublist ss rs.
Proof.
  induction 1 as [st | st r ext1 st1 rs ext2 st2 Hstep _ IH].
  - exists [], []. by rewrite !app_nil_r.
  - destruct IH as (bs & ss & Hb & Hs & Hsb & Hss).
    destruct (step_lists _ _ _ _ _ _ _ _ Hstep)
      as (bs1 & ss1 & fs1 & Hb1 & Hs1 & _ & Hcase).
    exists (bs1 ++ bs), (ss1 ++ ss).
    rewrite Hb, Hb1, Hs, Hs1, <- !app_assoc.
    do 2 (split; [done |]).
    destruct Hcase as [(-> & -> & _) | [(-> & -> & _) | (-> & -> & _)]];
      cbn [app]; split;
      first [by apply sublist_skip | by apply sublist_cons].
Qed.

(** The number of builds started: one for each target of each recipe that
    is not passed over. *)
Lemma steps_targets_started st rs ext st' :
  steps' st rs ext st' ->
  NoDup rs -> (forall r, r ∈ rs -> r ∉ skipped_recipes st) ->
  marks ext =
  purged_attempts (targets_started recipe_targets (skipped_recipes st') rs).
Proof.
  induction 1 as [st | st r ext1 st1 rs ext2 st2 Hstep Hsteps IH]; [done |].
  intros Hnd Hfresh. apply NoDup_cons in Hnd as [Hr Hnd].
  destruct (steps_lists _ _ _ _ _ _ _ _ Hsteps)
    as (bs & ss & fs & _ & Hss & _ & Hcover & _).
  assert (Hss' : forall x, x ∈ ss -> x ∈ rs).
  { intros x Hx. apply Hcover. auto. }
  rewrite marks_app. unfold targets_started. cbn [map sum_list].
  fold (targets_started recipe_targets (skipped_recipes st2) rs).
  rewrite <- purged_attempts_add. f_equal.
  - destruct Hstep as [name blockers _ _
                      | name ts fts ext st1 _ _ Hts Hm Hsk _ _ _ _ _ _ _].
    + rewrite bool_decide_eq_true_2; [done |].
      rewrite Hss. cbn. rewrite !elem_of_app, list_elem_of_singleton. auto.
    + rewrite bool_decide_eq_false_2.
      * by rewrite Hts.
      * rewrite Hss, Hsk, elem_of_app. intros [Hin | Hin].
        -- apply (Hfresh r); [by left | done].
        -- by apply Hr, Hss'.
  - apply IH; [done |]. intros x Hx Hin.
    assert (x ∈ skipped_recipes st \/ x = r) as [H | ->].
    { destruct Hstep as [name blockers _ _
                        | name ts fts ext st1 _ _ _ _ Hsk _ _ _ _ _ _ _].
      - cbn in Hin. apply elem_of_app in Hin as [Hin | Hin]; [by left |].
        apply list_elem_of_singleton in Hin. by right.
      - rewrite Hsk in Hin. by left. }
    + apply (Hfresh x); [by right | done].
    + done.
Qed.

End FurtherStepFacts.

(** X8.  In a completed run every target of every recipe that is not
    skipped has its build started, whether or not an earlier target of the
    recipe failed: the builds started, each followed by its purge, are as
    many as the targets of the recipes not skipped. *)
Theorem every_target_attempted (W : World) (opts : Options)
    (recipe_targets : gmap string (list Target)) (dag : DiGraph)
    (name2recipes : dict string (list string)) (n i : Z)
    (tr tr' : trace) (b : bool) (st' : Sched) :
  well_formed dag -> name2recipes_ok name2recipes ->
  build_recipes W opts recipe_targets dag name2recipes n i tr
    = (tr', Ok (b, Some st')) ->
  exists subdag recipes ext,
    select_subdag (opt_testonly opts) dag n i = Ok (Some subdag) /\
    recipes_in_order subdag name2recipes = Ok recipes /\
    tr' = tr ++ ext /\
    marks ext =
    purged_attempts
      (targets_started recipe_targets (skipped_recipes st') recipes).
Proof.
  intros Hwf Hok H. apply build_recipes_completed in H
    as (subdag & recipes & ext & Hsel & Hrec & -> & _ & Hsteps & _).
  exists subdag, recipes, ext. do 3 (split; [done |]).
  destruct (select_subdag_subgraph _ _ _ _ _ Hsel) as [c ->].
  destruct (recipes_in_order_spec _ _ _ (subgraph_wf dag c Hwf) Hok Hrec)
    as (_ & _ & _ & _ & _ & _ & _ & Hnd & _).
  apply (steps_targets_started _ _ _ _ _ _ _ _ Hsteps Hnd).
  intros r _ Hr. by apply elem_of_nil in Hr.
Qed.

Lemma every_target_attempted_witness :
  let W := example_world (Ok true) (Ok true) (Ok (Some [])) [] in
  let opts := example_opts true None in
  well_formed example_graph /\ name2recipes_ok example_name2recipes /\
  exists tr' b st',
    build_recipes W opts example_targets example_graph example_name2recipes
      1 0 [] = (tr', Ok (b, Some st')) /\
    targets_started example_targets (skipped_recipes st')
      ["recipes/a"; "recipes/b"] = 2%nat /\
    exists subdag recipes ext,
      select_subdag (opt_testonly opts) example_graph 1 0 = Ok (Some subdag) /\
      recipes_in_order subdag example_name2recipes = Ok recipes /\
      tr' = [] ++ ext /\
      marks ext =
      purged_attempts
        (targets_started example_targets (skipped_recipes st') recipes).
Proof.
  intros W opts.
  split; [exact example_graph_wf |].
  split; [exact example_name2recipes_ok |].
  destruct (build_recipes W opts example_targets example_graph
              example_name2recipes 1 0 []) as [tr' r] eqn:Hrun.
  pose proof Hrun as Hrun'. vm_compute in Hrun'. injection Hrun' as <- <-.
  eexists _, _, _. split; [exact Hrun |]. split; [reflexivity |].
  exact (every_target_attempted W opts example_targets example_graph
           example_name2recipes 1 0 [] _ _ _
           example_graph_wf example_name2recipes_ok Hrun).
Defined.

(** X9.  In a completed run every recipe of the shard ends in exactly one
    of three ways: recorded as built, recorded as skipped, or with a failed
    target; and the built and the skipped recipes are recorded in build
    order, each once. *)
Theorem recipe_outcomes (W : World) (opts : Options)
    (recipe_targets : gmap string (list Target)) (dag : DiGraph)
    (name2recipes : dict string (list string)) (n i : Z)
    (tr tr' : trace) (b : bool) (st' : Sched) :
  well_formed dag -> name2recipes_ok name2recipes ->
  build_recipes W opts recipe_targets dag name2recipes n i tr
    = (tr', Ok (b, Some st')) ->
  exists subdag recipes,
    select_subdag (opt_testonly opts) dag n i = Ok (Some subdag) /\
    recipes_in_order subdag name2recipes = Ok recipes /\
    (forall r, r ∈ recipes <->
       r ∈ built_recipes st' \/ r ∈ skipped_recipes st' \/
       exists t, (r, t) ∈ failed st') /\
    (forall r, r ∈ built_recipes st' -> r ∉ skipped_recipes st') /\
    (forall r t, (r, t) ∈ failed st' ->
       (r ∉ built_recipes st') /\ (r ∉ skipped_recipes st')) /\
    sublist (built_recipes st') recipes /\
    sublist (skipped_recipes st') recipes.
Proof.
  intros Hwf Hok H. apply build_recipes_completed in H
    as (subdag & recipes & ext & Hsel & Hrec & -> & _ & Hsteps & _).
  exists subdag, recipes. do 2 (split; [done |]).
  destruct (select_subdag_subgraph _ _ _ _ _ Hsel) as [c ->].
  destruct (recipes_in_order_spec _ _ _ (subgraph_wf dag c Hwf) Hok Hrec)
    as (_ & _ & _ & _ & _ & _ & _ & Hnd & _).
  destruct (steps_initial _ _ _ _ _ _ _ Hsteps) as [Hall Hdisj].
  specialize (Hdisj Hnd).
  destruct (steps_sublist _ _ _ _ _ _ _ _ Hsteps)
    as (bs & ss & Hb & Hs & Hsb & Hss).
  cbn in Hb, Hs. subst bs ss.
  split; [exact Hall |]. split; [| split; [| done]].
  - intros r Hr. destruct (Hdisj r) as [H1 _]. by destruct (H1 Hr).
  - intros r t Hf. destruct (Hdisj r) as [H1 H2]. split; intros Hr.
    + destruct (H1 Hr) as [_ H3]. by apply (H3 t).
    + by apply (H2 Hr t).
Qed.

Lemma recipe_outcomes_witness :
  let W := example_world (Ok true) (Ok true) (Ok (Some [])) [] in
  let opts := example_opts true None in
  well_formed example_graph /\ name2recipes_ok example_name2recipes /\
  exists tr' b st',
    build_recipes W opts example_targets example_graph example_name2recipes
      1 0 [] = (tr', Ok (b, Some st')) /\
    sublist (skipped_recipes st') ["recipes/a"; "recipes/b"].
Proof.
  intros W opts.
  split; [exact example_graph_wf |].
  split; [exact example_name2recipes_ok |].
  destruct (build_recipes W opts example_targets example_graph
              example_name2recipes 1 0 []) as [tr' r] eqn:Hrun.
  pose proof Hrun as Hrun'. vm_compute in Hrun'. injection Hrun' as <- <-.
  eexists _, _, _. split; [exact Hrun |].
  destruct (recipe_outcomes W opts example_targets example_graph
              example_name2recipes 1 0 [] _ _ _
              example_graph_wf example_name2recipes_ok Hrun)
    as (subdag & recipes & Hsel & Hrec & _ & _ & _ & _ & Hsub).
  vm_compute in Hsel. injection Hsel as <-.
  vm_compute in Hrec. injection Hrec as <-. exact Hsub.
Defined.

Section FurtherLoopFacts.

Context (W : World) (opts : Options) (P : event -> Prop).

Hypothesis P_other : forall ev, is_upload ev = false -> P ev.
Hypothesis P_artifact :
  opt_testonly opts = false -> opt_anaconda_upload opts = true ->
  forall pkg label r, P (EvAnacondaUpload pkg label r).
Hypothesis P_image :
  opt_testonly opts = false ->
  opt_truthy (opt_mulled_upload_target opts) = true ->
  forall image tgt r, P (EvMulledUpload image tgt r).

Lemma build_calls recipe e testonly mulled_test channels docker dis :
  calls_only P (build W recipe e testonly mulled_test channels docker dis).
Proof.
  unfold build. apply calls_only_bind.
  - apply calls_only_try_except.
    + apply build_try_calls. auto.
    + intros c Hc. apply list_elem_of_singleton in Hc as ->.
      apply calls_only_ret.
  - intros [res |]; [apply calls_only_ret |].
    destruct (negb mulled_test); [apply calls_only_ret |].
    apply calls_only_bind; [apply calls_only_call; intros; by apply P_other |].
    intros pkg_path. apply calls_only_bind;
      [apply calls_only_call; intros; by apply P_other |].
    intros res. destruct (_ && _); [| apply calls_only_ret].
    apply calls_only_bind; [| intros; apply calls_only_ret].
    destruct mulled_test; [| apply calls_only_ret].
    apply calls_only_bind; [apply calls_only_call; intros; by apply P_other |].
    intros; apply calls_only_ret.
Qed.

Lemma upload_build_calls st t res :
  opt_testonly opts = false -> calls_only P (upload_build W opts st t res).
Proof.
  intros Hto. unfold upload_build. apply calls_only_bind.
  - destruct (opt_anaconda_upload opts) eqn:Hau; [| apply calls_only_ret].
    apply calls_only_bind; [| intros; apply calls_only_ret].
    apply calls_only_call. intros r. by apply P_artifact.
  - intros st1.
    destruct (opt_mulled_upload_target opts) as [tgt |] eqn:Htgt;
      [| apply calls_only_ret].
    destruct (str_truthy tgt) eqn:Htruthy; [| apply calls_only_ret].
    apply calls_only_bind; [| intros; apply calls_only_ret].
    apply calls_only_call. intros r. by apply P_image.
Qed.

Lemma purge_calls : calls_only P (purge W).
Proof. apply calls_only_call. intros r. by apply P_other. Qed.

Lemma attempt_target_calls subdag recipe name acc t :
  calls_only P (attempt_target W opts subdag recipe name acc t).
Proof.
  unfold attempt_target. apply calls_only_bind; [apply build_calls |].
  intros res. apply calls_only_bind.
  - destruct (negb (success res)); [apply calls_only_lift |].
    destruct (negb (opt_testonly opts)) eqn:Hto; [| apply calls_only_ret].
    apply upload_build_calls. by apply negb_true_iff.
  - intros st2. apply calls_only_bind; [apply purge_calls |].
    intros; apply calls_only_ret.
Qed.

Lemma attempt_targets_calls subdag recipe name acc ts :
  calls_only P (attempt_targets W opts subdag recipe name acc ts).
Proof.
  revert acc. induction ts as [| t ts IH]; intros acc; cbn [attempt_targets].
  - apply calls_only_ret.
  - apply calls_only_bind; [apply attempt_target_calls | intros; apply IH].
Qed.

Lemma process_recipe_calls subdag recipe2name recipe_targets st r :
  calls_only P
    (process_recipe W opts subdag recipe2name recipe_targets st r).
Proof.
  unfold process_recipe. apply calls_only_bind; [apply calls_only_lift |].
  intros name. destruct (skip_dependent st !! name); [apply calls_only_ret |].
  apply calls_only_bind; [apply calls_only_lift |].
  intros ts. apply calls_only_bind; [apply attempt_targets_calls |].
  intros; apply calls_only_ret.
Qed.

Lemma process_recipes_calls subdag recipe2name recipe_targets st rs :
  calls_only P
    (process_recipes W opts subdag recipe2name recipe_targets st rs).
Proof.
  revert st. induction rs as [| r rs IH]; intros st; cbn [process_recipes].
  - apply calls_only_ret.
  - apply calls_only_bind; [apply process_recipe_calls | intros; apply IH].
Qed.

Lemma build_recipes_calls recipe_targets dag name2recipes n i :
  calls_only P (build_recipes W opts recipe_targets dag name2recipes n i).
Proof.
  unfold build_recipes. destruct (negb (Nx.truthy dag));
    [apply calls_only_ret |].
  apply calls_only_bind; [apply calls_only_lift |].
  intros [subdag |]; [| apply calls_only_ret].
  apply calls_only_bind; [apply calls_only_lift |].
  intros recipes. apply calls_only_bind; [apply process_recipes_calls |].
  intros; apply calls_only_ret.
Qed.

End FurtherLoopFacts.

(** X10.  What a run of [build_recipes] never does, however it ends: a
    test-only run calls no upload service; without [anaconda_upload] no
    artifact is uploaded; without a [mulled_upload_target] no image is
    uploaded. *)
Theorem uploads_need_their_options (W : World) (opts : Options)
    (recipe_targets : gmap string (list Target)) (dag : DiGraph)
    (name2recipes : dict string (list string)) (n i : Z) (tr : trace) :
  let run := build_recipes W opts recipe_targets dag name2recipes n i tr in
  exists ext, run.1 = tr ++ ext /\
    (opt_testonly opts = true ->
     Forall (fun ev => is_upload ev = false) ext) /\
    (opt_anaconda_upload opts = false ->
     Forall (fun ev => is_artifact_upload ev = false) ext) /\
    (opt_truthy (opt_mulled_upload_target opts) = false ->
     Forall (fun ev => is_image_upload ev = false) ext).
Proof.
  intros run. subst run.
  destruct (build_recipes W opts recipe_targets dag name2recipes n i tr)
    as [tr' r] eqn:Hrun. cbn [fst].
  set (P := fun ev =>
    (opt_testonly opts = true -> is_upload ev = false) /\
    (opt_anaconda_upload opts = false -> is_artifact_upload ev = false) /\
    (opt_truthy (opt_mulled_upload_target opts) = false ->
     is_image_upload ev = false)).
  assert (Hcalls : calls_only P
            (build_recipes W opts recipe_targets dag name2recipes n i)).
  { apply build_recipes_calls; unfold P.
    - intros ev Hev. by destruct ev.
    - intros Hto Hau pkg label ans. rewrite Hto, Hau. done.
    - intros Hto Htgt image tgt ans. rewrite Hto, Htgt. done. }
  destruct (Hcalls _ _ _ Hrun) as (ext & Hext & Hall).
  exists ext. split; [done |].
  repeat split; intros H; eapply Forall_impl; try exact Hall;
    intros ev (H1 & H2 & H3); auto.
Qed.

Lemma uploads_need_their_options_witness :
  let W := example_world (Ok true) (Ok true) (Ok (Some [])) [] in
  let opts := example_opts false None in
  Forall (fun ev => is_artifact_upload ev = false)
    (build_recipes W opts good_targets example_graph example_name2recipes
       1 0 []).1 /\
  Forall (fun ev => is_image_upload ev = false)
    (build_recipes W opts good_targets example_graph example_name2recipes
       1 0 []).1.
Proof.
  intros W opts.
  destruct (uploads_need_their_options W opts good_targets example_graph
              example_name2recipes 1 0 []) as (ext & Hext & _ & H1 & H2).
  cbn [app] in Hext. rewrite Hext. split; [by apply H1 | by apply H2].
Defined.

(** X11.  A target whose build failed is not uploaded: between the failed
    build and the end of the attempt no upload service is called.  When the
    attempt returns, the target is recorded as failed, the recipe and the
    run are marked as failed, the list of failed uploads is as before, and
    the purge was made. *)
Theorem failed_target_not_uploaded (W : World) (opts : Options)
    (subdag : DiGraph) (recipe name : string) (st : Sched) (ok : bool)
    (t : Target) (tr tr1 tr' : trace) (res : BuildResult)
    (r : result (Sched * bool)) :
  build W recipe (target_env t) (opt_testonly opts) (opt_mulled_test opts)
    (opt_channels opts) (opt_docker_builder opts) false tr = (tr1, Ok res) ->
  success res = false ->
  attempt_target W opts subdag recipe name (st, ok) t tr = (tr', r) ->
  exists ext, tr' = tr ++ ext /\
    Forall (fun ev => is_upload ev = false) ext /\
    match r with
    | Ok (st', ok') =>
        ok' = false /\ all_success st' = false /\
        failed st' = failed st ++ [(recipe, t)] /\
        built_recipes st' = built_recipes st /\
        failed_uploads st' = failed_uploads st /\
        marks ext = [MAttempt; MPurge]
    | Raise _ => True
    end.
Proof.
  intros Hb Hs H. unfold attempt_target in H. cbn [fst snd] in H.
  unfold bind at 1 in H. rewrite Hb, Hs in H. cbn [negb] in H.
  apply build_trace in Hb as (ext1 & -> & Hm1 & Hup1).
  unfold record_failure in H.
  destruct (descendants subdag name) as [ds | e] eqn:Hds.
  - unfold bind, lift, purge, call, ret in H. cbn [rmap rbind] in H.
    destruct (run W (tr ++ ext1) purge_cmd None) as [u | e] eqn:Hp;
      injection H as <- <-.
    + exists (ext1 ++ [EvRun purge_cmd None (Ok u)]).
      split; [by rewrite app_assoc |].
      split; [apply Forall_app; split; [done | by repeat constructor] |].
      rewrite andb_false_r. cbn. rewrite andb_false_r.
      repeat split; try done.
      by rewrite marks_app, Hm1, marks_purge.
    + exists (ext1 ++ [EvRun purge_cmd None (Raise e)]).
      split; [by rewrite app_assoc |].
      split; [apply Forall_app; split; [done | by repeat constructor] | done].
  - unfold bind, lift in H. cbn [rmap rbind] in H. injection H as <- <-.
    exists ext1. done.
Qed.

Lemma failed_target_not_uploaded_witness :
  let W := example_world (Ok true) (Ok true) (Ok (Some [])) [] in
  let opts := example_opts true (Some "biocontainers") in
  exists tr1 res tr' r,
    build W "recipes/a" (target_env target_py35) (opt_testonly opts)
      (opt_mulled_test opts) (opt_channels opts) (opt_docker_builder opts)
      false [] = (tr1, Ok res) /\
    success res = false /\
    attempt_target W opts example_graph "recipes/a" "a" (initial, true)
      target_py35 [] = (tr', r) /\
    exists ext, tr' = [] ++ ext /\
      Forall (fun ev => is_upload ev = false) ext /\
      match r with
      | Ok (st', ok') =>
          ok' = false /\ all_success st' = false /\
          failed st' = failed initial ++ [("recipes/a", target_py35)] /\
          built_recipes st' = built_recipes initial /\
          failed_uploads st' = failed_uploads initial /\
          marks ext = [MAttempt; MPurge]
      | Raise _ => True
      end.
Proof.
  intros W opts.
  destruct (build W "recipes/a" (target_env target_py35) (opt_testonly opts)
              (opt_mulled_test opts) (opt_channels opts)
              (opt_docker_builder opts) false []) as [tr1 rb] eqn:Hb.
  pose proof Hb as Hb'. vm_compute in Hb'. injection Hb' as <- <-.
  destruct (attempt_target W opts example_graph "recipes/a" "a"
              (initial, true) target_py35 []) as [tr' r] eqn:Ha.
  eexists _, _, _, _. split; [exact Hb |]. split; [reflexivity |].
  split; [reflexivity |].
  exact (failed_target_not_uploaded W opts example_graph "recipes/a" "a"
           initial true target_py35 [] _ _ _ _ Hb eq_refl Ha).
Defined.

(** X12.  [recipe2name] maps a recipe to the package name it is listed
    under; when it is listed under several, the one that comes last in
    [name2recipes] wins; a recipe that is listed nowhere has no entry. *)
Theorem recipe2name_last_wins (d1 d2 : dict string (list string))
    (n r : string) (l : list string) :
  (r ∈ l -> (forall n' l', (n', l') ∈ d2 -> r ∉ l') ->
   recipe2name_of (d1 ++ (n, l) :: d2) !! r = Some n) /\
  ((forall n' l', (n', l') ∈ d2 -> r ∉ l') ->
   recipe2name_of d2 !! r = None).
Proof.
  assert (Hskip : forall m : gmap string string,
            (forall n' l', (n', l') ∈ d2 -> r ∉ l') ->
            fold_left
              (fun m kv => fold_left (fun m' i => <[ i := kv.1 ]> m') kv.2 m)
              d2 m !! r = m !! r).
  { intros m Hno. rewrite (recipe2name_fold d2 m r n).
    - rewrite bool_decide_eq_false_2; [done |].
      intros Hex. apply Exists_exists in Hex as ([n' l'] & Hin & Hr).
      by apply (Hno n' l').
    - intros n' l' Hin Hr. by apply Hno in Hin. }
  split.
  - intros Hr Hno. unfold recipe2name_of.
    rewrite fold_left_app. cbn [fold_left fst snd].
    rewrite Hskip by done. rewrite fold_insert_lookup.
    by rewrite bool_decide_eq_true_2.
  - intros Hno. unfold recipe2name_of. rewrite Hskip by done.
    apply lookup_empty.
Qed.

Lemma recipe2name_last_wins_witness :
  recipe2name_of [("a", ["recipes/x"]); ("b", ["recipes/x"; "recipes/y"])]
    !! "recipes/x" = Some "b".
Proof.
  refine (proj1 (recipe2name_last_wins [("a", ["recipes/x"])] [] "b"
                   "recipes/x" ["recipes/x"; "recipes/y"]) _ _).
  - by left.
  - intros n' l' Hin. by apply elem_of_nil in Hin.
Defined.

Lemma topo_loop_raises g fuel rem e :
  topo_loop g fuel rem = Raise e -> e = NetworkXUnfeasible.
Proof.
  revert rem. induction fuel as [| fuel IH]; intros [| x rem].
  - done.
  - by intros [= <-].
  - done.
  - rewrite topo_loop_step.
    destruct (List.find _ _) as [y |]; [| by intros [= <-]].
    destruct (topo_loop g fuel _) as [l |] eqn:Hl; [done |].
    cbn. intros [= <-]. by eapply IH.
Qed.

Lemma rmapM_raises {A B} (f : A -> result B) (l : list A) e :
  rmapM f l = Raise e -> exists x, x ∈ l /\ f x = Raise e.
Proof.
  induction l as [| x l IH]; [done |]. cbn [rmapM].
  destruct (f x) as [y |] eqn:Hx; cbn.
  - destruct (rmapM f l) as [ys |]; [done |]. cbn. intros [= <-].
    destruct (IH eq_refl) as (z & Hz & Hfz). exists z. split; [by right | done].
  - intros [= <-]. exists x. split; [by left | done].
Qed.

Lemma rmapM_raise_exists {A B} (f : A -> result B) (l : list A) x e :
  x ∈ l -> f x = Raise e -> exists e', rmapM f l = Raise e'.
Proof.
  intros Hx Hfx. destruct (rmapM f l) as [ys |] eqn:H; [| eauto].
  apply rmapM_ok in H. apply list_elem_of_lookup in Hx as [k Hk].
  destruct (Forall2_lookup_l _ _ _ _ _ H Hk) as (y & _ & Hy). congruence.
Qed.

Lemma every_length {A} (n w : nat) (l : list A) :
  (w < n)%nat ->
  length (every n w l) = ((length l + n - 1 - w) / n)%nat.
Proof.
  revert w. induction l as [| x l IH]; intros w Hw.
  - rewrite every_nil. cbn [length]. symmetry. apply Nat.div_small. lia.
  - destruct w as [| w]; cbn [every length].
    + rewrite IH by lia.
      replace (length l + n - 1 - (n - 1))%nat with (length l) by lia.
      replace (S (length l) + n - 1 - 0)%nat with (length l + 1 * n)%nat
        by lia.
      rewrite Nat.div_add by lia. lia.
    + rewrite IH by lia. f_equal. lia.
Qed.

(** X14.  When there are more units than shards, the units are dealt out
    evenly: there are exactly [n] chunks, chunk [k] is made of the units
    [subdags[k::n]], none is empty, and the numbers of units of two chunks
    differ by one at most. *)
Theorem chunks_balanced (n : Z) (units : list (list string)) :
  1 <= n < Z.of_nat (length units) ->
  length (chunks_of n units) = Z.to_nat n /\
  forall k, (k < Z.to_nat n)%nat ->
    let units_k := slice_step units (Z.of_nat k) n in
    chunks_of n units !! k = Some (concat units_k) /\
    (1 <= length units_k)%nat /\
    (length units / Z.to_nat n <= length units_k
       <= length units / Z.to_nat n + 1)%nat.
Proof.
  intros Hn. rewrite chunks_of_small by lia. split.
  - by rewrite length_map, length_seq.
  - intros k Hk units_k. subst units_k. unfold slice_step.
    rewrite Nat2Z.id. split.
    { by apply (lookup_map_seq
                  (fun w => concat (every (Z.to_nat n) w units))). }
    rewrite every_length by done.
    set (m := Z.to_nat n) in *. set (L := length units).
    assert (Hm : (1 <= m < L)%nat) by (unfold m, L; lia).
    split; [| split].
    + assert (H : (m / m <= (L + m - 1 - k) / m)%nat)
        by (apply Nat.Div0.div_le_mono; lia).
      by rewrite Nat.div_same in H by lia.
    + apply Nat.Div0.div_le_mono; lia.
    + replace (L / m + 1)%nat with ((L + 1 * m) / m)%nat
        by (rewrite Nat.div_add by lia; lia).
      apply Nat.Div0.div_le_mono; lia.
Qed.

Lemma chunks_balanced_witness :
  chunks_of 2 [["A"]; ["B"; "C"]; ["D"]] !! 1%nat = Some ["B"; "C"] /\
  length (chunks_of 2 [["A"]; ["B"; "C"]; ["D"]]) = 2%nat.
Proof.
  assert (H : 1 <= 2 < Z.of_nat (length [["A"]; ["B"; "C"]; ["D"]]))
    by (cbn; lia).
  split.
  - exact (proj1 (proj2 (chunks_balanced 2 [["A"]; ["B"; "C"]; ["D"]] H)
                    1%nat ltac:(cbn; lia))).
  - exact (proj1 (chunks_balanced 2 [["A"]; ["B"; "C"]; ["D"]] H)).
Defined.

(* ===================================================================== *)
(** * Further properties of the pinning-state classifier *)
(* ===================================================================== *)

Lemma is_whitespace_spec (ch : string) :
  is_whitespace ch = true <-> ch ∈ whitespace.
Proof.
  unfold is_whitespace. rewrite existsb_exists. split.
  - intros (x & Hx & Heq). apply String.eqb_eq in Heq as ->.
    by apply list_elem_of_In.
  - intros H. exists ch. split; [by apply list_elem_of_In |].
    apply String.eqb_refl.
Qed.

Lemma append_one_nonempty (cur : string) (c : ascii) :
  (cur +:+ String c "") <> "".
Proof. by destruct cur. Qed.

Lemma chars_go_nonempty (cur : string) (need : nat) (s : string) :
  Forall (fun ch => ch <> "") (chars_go cur need s).
Proof.
  revert cur need. induction s as [| c s IH]; intros cur need.
  - cbn. destruct cur; by repeat constructor.
  - cbn [chars_go]. destruct need as [| [| k]].
    + destruct (utf8_width c) as [| [| k]]; [by constructor | by constructor |].
      apply IH.
    + constructor; [apply append_one_nonempty | apply IH].
    + apply IH.
Qed.

Lemma split_go_nil (cur : string) (chs : list string) :
  Forall (fun ch => ch <> "") chs ->
  split_go cur chs = [] <->
  str_is_empty cur = true /\ Forall (fun ch => ch ∈ whitespace) chs.
Proof.
  revert cur. induction chs as [| ch chs IH]; intros cur Hne.
  - cbn. destruct (str_is_empty cur); split; try done.
    + by intros [? _].
  - apply Forall_cons in Hne as [Hch Hne]. cbn [split_go].
    rewrite Forall_cons, <- is_whitespace_spec.
    destruct (is_whitespace ch).
    + destruct (str_is_empty cur) eqn:Hcur.
      * rewrite (IH "" Hne). cbn. tauto.
      * split; [done | by intros [? _]].
    + rewrite (IH _ Hne). split; [| by intros [_ [? _]]]. intros [H _].
      exfalso. destruct cur; [by destruct ch | done].
Qed.

(** A requirement has no first word when it is empty or all blank, and
    this is the only way [dep_name] fails. *)
Lemma dep_name_raises dep e :
  dep_name dep = Raise e <-> e = IndexError /\ blank dep.
Proof.
  unfold dep_name, split, blank.
  pose proof (split_go_nil "" (utf8_chars dep)
                (chars_go_nonempty "" 0 dep)) as Hnil.
  destruct (split_go "" (utf8_chars dep)) as [| x l] eqn:Hs.
  - destruct (proj1 Hnil eq_refl) as [_ Hb]. split.
    + by intros [= <-].
    + by intros [-> _].
  - split; [done |]. intros [_ Hb].
    pose proof (proj2 Hnil (conj eq_refl Hb)) as Hx. discriminate Hx.
Qed.

Section FurtherClassifierFacts.

Context (W : World).

Lemma build_deps_raises meta e :
  build_deps_of meta = Raise e <->
  e = IndexError /\
  exists dep,
    dep ∈ meta_requirements_build meta ++ meta_requirements_host meta /\
    blank dep.
Proof.
  unfold build_deps_of. split.
  - intros H. apply rmapM_raises in H as (dep & Hdep & Hraise).
    apply dep_name_raises in Hraise as [-> Hb]. eauto.
  - intros (-> & dep & Hdep & Hb).
    destruct (rmapM_raise_exists dep_name _ dep IndexError Hdep) as [e' He'].
    { by apply dep_name_raises. }
    rewrite He'. f_equal.
    apply rmapM_raises in He' as (dep' & _ & Hraise).
    by apply dep_name_raises in Hraise as [-> _].
Qed.

Lemma variant_flag_raises keys meta e :
  variant_flag W keys meta = Raise e -> have_variant W meta = Raise e.
Proof.
  unfold variant_flag. destruct (_ || _); [done |].
  destruct (have_noarch_python_build_number W meta); [done |].
  destruct (have_variant W meta) as [[|] |]; cbn; [by intros [=] | | by intros [= ->]].
  by destruct (will_build_variant W meta); intros [=].
Qed.

(** The five flags a variant can get. *)
Lemma variant_flag_values keys meta f :
  variant_flag W keys meta = Ok f ->
  f ∈ [SKIP; HAVE_NOARCH_PYTHON; HAVE; BUMPED; BUMP].
Proof.
  unfold variant_flag. destruct (_ || _).
  { intros [= <-]. repeat first [apply list_elem_of_here | apply list_elem_of_further]. }
  destruct (have_noarch_python_build_number W meta).
  { intros [= <-]. repeat first [apply list_elem_of_here | apply list_elem_of_further]. }
  destruct (have_variant W meta) as [[|] |]; cbn; [| | done].
  { intros [= <-]. repeat first [apply list_elem_of_here | apply list_elem_of_further]. }
  destruct (will_build_variant W meta); intros [= <-];
    repeat first [apply list_elem_of_here | apply list_elem_of_further].
Qed.

Lemma land_foldr_lor (flags : list Z) (g : Z) :
  Z.land (foldr Z.lor 0 flags) g = 0 <->
  Forall (fun f => Z.land f g = 0) flags.
Proof.
  induction flags as [| f flags IH]; cbn [foldr].
  - split; [by constructor | done].
  - rewrite Z.land_lor_distr_l, Z.lor_eq_0_iff, IH, Forall_cons. tauto.
Qed.

Lemma flag_land f g :
  f ∈ [SKIP; HAVE_NOARCH_PYTHON; HAVE; BUMPED; BUMP] ->
  g ∈ [SKIP; HAVE_NOARCH_PYTHON; HAVE; BUMPED; BUMP] ->
  Z.land f g = 0 <-> f <> g.
Proof.
  intros Hf Hg.
  repeat (apply elem_of_cons in Hf as [-> | Hf]);
    [.. | by apply elem_of_nil in Hf];
    repeat (apply elem_of_cons in Hg as [-> | Hg]);
    try (by apply elem_of_nil in Hg);
    (split; [intros H1 H2; vm_compute in H1, H2; congruence
            | intros H; vm_compute; first [reflexivity | by destruct H]]).
Qed.

Lemma flag_not_fail f :
  f ∈ [SKIP; HAVE_NOARCH_PYTHON; HAVE; BUMPED; BUMP] ->
  Z.land f FAIL = 0 /\ f <> 0.
Proof.
  intros Hf.
  repeat (apply elem_of_cons in Hf as [-> | Hf]);
    [.. | by apply elem_of_nil in Hf]; split; vm_compute; congruence.
Qed.

(** What a classification that went through says: the state has a flag
    exactly when a variant got it, it has not the flag FAIL, and it is
    empty only when there is no variant. *)
Lemma variant_flags_flags keys metas st :
  variant_flags W keys 0 metas = Ok st ->
  Z.land st FAIL = 0 /\
  (st = 0 <-> metas = []) /\
  forall g, g ∈ [SKIP; HAVE_NOARCH_PYTHON; HAVE; BUMPED; BUMP] ->
    Z.land st g <> 0 <->
    exists meta, meta ∈ metas /\ variant_flag W keys meta = Ok g.
Proof.
  intros H. pose proof (variant_flags_spec W keys metas 0) as Hspec.
  rewrite H in Hspec. destruct Hspec as (flags & Hall & ->).
  rewrite Z.lor_0_l.
  assert (Hvals : Forall
            (fun f => f ∈ [SKIP; HAVE_NOARCH_PYTHON; HAVE; BUMPED; BUMP])
            flags).
  { clear -Hall. induction Hall as [| m f ms fs Hm _ IH]; constructor;
      [by eapply variant_flag_values | done]. }
  split; [| split].
  - apply land_foldr_lor. eapply Forall_impl; [exact Hvals |].
    intros f Hf. by apply flag_not_fail.
  - split.
    + intros H0. destruct Hall as [| m f ms fs Hm _]; [done |].
      exfalso. cbn in H0. apply Z.lor_eq_0_iff in H0 as [H0 _].
      apply Forall_cons in Hvals as [Hf _].
      by apply flag_not_fail in Hf as [_ Hf].
    + intros ->. by inversion Hall.
  - intros g Hg. rewrite land_foldr_lor. split.
    + intros Hn. apply not_Forall_Exists in Hn; [| intros f; apply _].
      apply Exists_exists in Hn as (f & Hf & Hfg).
      assert (f = g) as ->.
      { rewrite Forall_forall in Hvals. specialize (Hvals f Hf).
        destruct (decide (f = g)) as [| Hne]; [done |].
        by apply (flag_land f g Hvals Hg) in Hne. }
      apply list_elem_of_lookup in Hf as [k Hk].
      destruct (Forall2_lookup_r _ _ _ _ _ Hall Hk) as (m & Hm & Hmf).
      exists m. split; [by eapply list_elem_of_lookup_2 | done].
    + intros (m & Hm & Hmg) Hz.
      apply list_elem_of_lookup in Hm as [k Hk].
      destruct (Forall2_lookup_l _ _ _ _ _ Hall Hk) as (f & Hf & Hmf).
      rewrite Hmg in Hmf. injection Hmf as <-.
      rewrite Forall_forall in Hz.
      specialize (Hz g (list_elem_of_lookup_2 _ _ _ Hf)).
      by apply (flag_land g g Hg Hg) in Hz.
Qed.

(** The three ways [check] goes, by the answer of the renderer. *)
Lemma check_inv recipe keep keys tr tr' r :
  check W recipe keep keys tr = (tr', r) ->
  let rendered := conda_render W tr recipe in
  let tr1 := tr ++ [EvCondaRender recipe rendered] in
  (tr' = tr1 /\
   ((exists e, rendered = Raise e /\
       r = if is_Exception e then Ok (FAIL, recipe) else Raise e) \/
    (rendered = Ok None /\ r = Ok (FAIL, recipe)) \/
    (exists metas, rendered = Ok (Some metas) /\
       existsb has_invalid_build_string metas = true /\
       r = Ok (FAIL, recipe)) \/
    (exists metas e, rendered = Ok (Some metas) /\
       existsb has_invalid_build_string metas = false /\
       variant_flags W keys 0 metas = Raise e /\ r = Raise e) \/
    (exists metas st, rendered = Ok (Some metas) /\
       existsb has_invalid_build_string metas = false /\
       variant_flags W keys 0 metas = Ok st /\ keep = true /\
       r = Ok (st, recipe)))) \/
  (exists metas st released,
     rendered = Ok (Some metas) /\
     existsb has_invalid_build_string metas = false /\
     variant_flags W keys 0 metas = Ok st /\ keep = false /\
     released = conda_release W tr1 recipe /\
     tr' = tr1 ++ [EvCondaRelease recipe released] /\
     r = match released with
         | Ok _ => Ok (st, recipe)
         | Raise e => Raise e
         end).
Proof.
  intros H rendered tr1. revert H.
  unfold check, bind, try_except, call, ret, lift. fold rendered. fold tr1.
  destruct rendered as [[metas |] | e] eqn:Hr.
  - destruct (existsb has_invalid_build_string metas) eqn:Hinv.
    { intros [= <- <-]. left. split; [done |]. right. right. left.
      by exists metas. }
    destruct (variant_flags W keys 0 metas) as [st | e] eqn:Hflags.
    + destruct keep; cbn [negb].
      * intros [= <- <-]. left. split; [done |]. do 4 right.
        exists metas, st. done.
      * destruct (conda_release W tr1 recipe) as [u |] eqn:Hrel;
          intros [= <- <-]; right; eexists metas, st, _;
          do 4 (split; [done |]); (split; [reflexivity |]); done.
    + intros [= <- <-]. left. split; [done |]. do 3 right. left.
      by exists metas, e.
  - intros [= <- <-]. left. split; [done |]. right. left. done.
  - rewrite find_handler_render.
    destruct (is_Exception e) eqn:He; intros [= <- <-]; left;
      (split; [done |]); left; exists e; by rewrite He.
Qed.

End FurtherClassifierFacts.

(** X15.  [check] calls the renderer once and [conda_release] once at
    most, after it; it calls [conda_release] only with [keep_metas] false
    and only when every variant was classified, so a check that returns the
    state FAIL never releases what was rendered, and one that returns
    another state with [keep_metas] false always has. *)
Theorem check_releases (W : World) (recipe : string) (keep_metas : bool)
    (skip_variant_keys : gset string) (tr : trace) :
  let run := check W recipe keep_metas skip_variant_keys tr in
  let tr1 := tr ++ [EvCondaRender recipe (conda_render W tr recipe)] in
  let release := EvCondaRelease recipe (conda_release W tr1 recipe) in
  (run.1 = tr1 \/ (keep_metas = false /\ run.1 = tr1 ++ [release])) /\
  match run.2 with
  | Ok (st, _) =>
      if state_failed st then st = FAIL /\ run.1 = tr1
      else if keep_metas then run.1 = tr1
      else run.1 = tr1 ++ [release] /\ conda_release W tr1 recipe = Ok tt
  | Raise _ => True
  end.
Proof.
  intros run tr1 release. subst run.
  destruct (check W recipe keep_metas skip_variant_keys tr) as [tr' r] eqn:H.
  cbn [fst snd]. apply check_inv in H. cbv zeta in H. fold tr1 in H.
  destruct H as [[-> H] | (metas & st & released & _ & _ & Hfl & -> & -> & -> & ->)].
  - split; [by left |].
    destruct H as [(e & _ & ->) | [(_ & ->) | [(metas & _ & _ & ->)
                  | [(metas & e & _ & _ & _ & ->)
                    | (metas & st & _ & _ & Hfl & -> & ->)]]]]; try done.
    + by destruct (is_Exception e).
    + apply variant_flags_flags in Hfl as (Hfail & _).
      unfold state_failed. by rewrite Hfail.
  - fold release. split; [by right |].
    destruct (conda_release W tr1 recipe) as [[] |]; [| done].
    apply variant_flags_flags in Hfl as (Hfail & _).
    unfold state_failed. by rewrite Hfail.
Qed.

Lemma check_ok_inv (W : World) recipe keep keys tr tr' st x :
  check W recipe keep keys tr = (tr', Ok (st, x)) ->
  x = recipe /\
  ((st = FAIL /\
    forall metas, conda_render W tr recipe = Ok (Some metas) ->
      existsb has_invalid_build_string metas = true) \/
   (exists metas,
      conda_render W tr recipe = Ok (Some metas) /\
      existsb has_invalid_build_string metas = false /\
      variant_flags W keys 0 metas = Ok st)).
Proof.
  intros H. apply check_inv in H. cbv zeta in H.
  destruct H as [[_ H]
                | (metas & st0 & released & Hr & Hinv & Hfl & _ & _ & _ & H)].
  - destruct H as [(e & Hr & H) | [(Hr & H) | [(metas & Hr & Hinv & H)
                  | [(metas & e & Hr & _ & Hfl & H)
                    | (metas & st0 & Hr & Hinv & Hfl & _ & H)]]]].
    + destruct (is_Exception e); [| done]. injection H as <- <-.
      split; [done |]. left. split; [done |]. intros metas Hm. congruence.
    + injection H as <- <-.
      split; [done |]. left. split; [done |]. intros metas Hm. congruence.
    + injection H as <- <-.
      split; [done |]. left. split; [done |]. intros metas' Hm. congruence.
    + done.
    + injection H as <- <-. split; [done |]. right. by exists metas.
  - destruct released; [| done]. injection H as <- <-.
    split; [done |]. right. by exists metas.
Qed.

(** X17.  What the state [check] returns says: it comes with the recipe
    given; it has the flag FAIL only when it is exactly FAIL; it needs a
    bump exactly when the rendered variants have valid build strings and
    one of them is classified BUMP; and it is the empty state exactly when
    the renderer gave no variant at all. *)
Theorem check_state (W : World) (recipe : string) (keep_metas : bool)
    (skip_variant_keys : gset string) (tr tr' : trace) (st : State)
    (x : string) :
  check W recipe keep_metas skip_variant_keys tr = (tr', Ok (st, x)) ->
  x = recipe /\
  (state_failed st = true <-> st = FAIL) /\
  (needs_bump st = true <->
   exists metas meta,
     conda_render W tr recipe = Ok (Some metas) /\
     existsb has_invalid_build_string metas = false /\
     meta ∈ metas /\
     variant_flag W skip_variant_keys meta = Ok BUMP) /\
  (st = 0 <-> conda_render W tr recipe = Ok (Some [])).
Proof.
  intros H. apply check_ok_inv in H
    as [-> [[-> Hno] | (metas & Hr & Hinv & Hfl)]]; (split; [done |]).
  - split; [done |]. split.
    + split; [done |]. intros (metas & meta & Hr & Hinv & _).
      rewrite (Hno metas Hr) in Hinv. done.
    + split; [done |]. intros Hr. by apply Hno in Hr.
  - apply variant_flags_flags in Hfl as (Hfail & Hempty & Hflags). split.
    { unfold state_failed. rewrite Hfail. split; [done |]. intros ->. done. }
    split.
    + unfold needs_bump. rewrite negb_true_iff, Z.eqb_neq.
      rewrite (Hflags BUMP)
        by (repeat first [apply list_elem_of_here | apply list_elem_of_further]). split.
      * intros (meta & Hm & Hflag). by exists metas, meta.
      * intros (metas' & meta & Hr' & _ & Hm & Hflag).
        rewrite Hr in Hr'. injection Hr' as <-. by exists meta.
    + rewrite Hempty, Hr. split; [by intros -> | by intros [= ->]].
Qed.

Lemma check_state_witness :
  let W := example_world (Ok true) (Ok true)
             (Ok (Some [example_meta [] []; example_meta ["python >=3"] []]))
             example_index in
  check W "recipes/samtools" true ∅ [] =
    ([EvCondaRender "recipes/samtools"
        (Ok (Some [example_meta [] []; example_meta ["python >=3"] []]))],
     Ok (Z.lor HAVE BUMP, "recipes/samtools")) /\
  needs_bump (Z.lor HAVE BUMP) = true /\
  exists metas meta,
    conda_render W [] "recipes/samtools" = Ok (Some metas) /\
    existsb has_invalid_build_string metas = false /\
    meta ∈ metas /\ variant_flag W ∅ meta = Ok BUMP.
Proof.
  intros W.
  assert (H : check W "recipes/samtools" true ∅ [] =
    ([EvCondaRender "recipes/samtools"
        (Ok (Some [example_meta [] []; example_meta ["python >=3"] []]))],
     Ok (Z.lor HAVE BUMP, "recipes/samtools"))) by (vm_compute; reflexivity).
  split; [exact H |]. split; [reflexivity |].
  exact (proj1 (proj1 (proj2 (proj2
           (check_state W "recipes/samtools" true ∅ [] _ _ _ H)))) eq_refl).
Defined.

Lemma match_rounds_none fuel s groups :
  match_alternatives legacy_tags s = None ->
  match_rounds fuel s groups = groups.
Proof. intros H. destruct fuel; [done |]. cbn [match_rounds]. by rewrite H. Qed.

Lemma fold_left_unchanged {A B} (f : A -> B -> A) (l : list B) (a : A) :
  (forall x b, b ∈ l -> f x b = x) -> fold_left f l a = a.
Proof.
  revert a. induction l as [| b l IH]; intros a H; [done |].
  cbn [fold_left]. rewrite (H a b) by (by left).
  apply IH. intros x b' Hb'. apply H. by right.
Qed.

(** X19.  The legacy normalization removes nothing when every prefix the
    pattern found belongs to a package among the build dependencies, and
    in particular when the build string starts with none of the prefixes:
    the candidate is then compared as it is, but for one leading
    underscore, which is dropped in every case. *)
Theorem trimmed_build_id_unchanged (build_deps : list string)
    (build_id : string) :
  ((forall group matched,
      (group, Some matched) ∈ legacy_groupdict build_id ->
      group ∈ build_deps) ->
   trimmed_build_id build_deps build_id = strip_underscore build_id) /\
  (match_alternatives legacy_tags build_id = None ->
   trimmed_build_id build_deps build_id = strip_underscore build_id).
Proof.
  assert (H1 : (forall group matched,
                  (group, Some matched) ∈ legacy_groupdict build_id ->
                  group ∈ build_deps) ->
               trimmed_build_id build_deps build_id
               = strip_underscore build_id).
  { intros H. unfold trimmed_build_id, strip_underscore.
    rewrite fold_left_unchanged; [done |].
    intros acc [group [matched |]] Hin; cbn [fst snd]; [| done].
    rewrite (bool_decide_eq_true_2 _ (H group matched Hin)).
    by rewrite andb_false_r. }
  split; [exact H1 |].
  intros Hnone. apply H1. intros group matched.
  unfold legacy_groupdict. rewrite match_rounds_none by done.
  intros Hin. apply elem_of_map in Hin as ([[g t] lo] & [=] & _).
Qed.

Lemma trimmed_build_id_unchanged_witness :
  trimmed_build_id ["python"] "py38_abc123" = "py38_abc123" /\
  trimmed_build_id [] "_h1234_0" = "h1234_0".
Proof.
  split.
  - apply (proj1 (trimmed_build_id_unchanged ["python"] "py38_abc123")).
    intros group matched Hin. vm_compute in Hin.
    repeat (apply elem_of_cons in Hin as [Hin | Hin];
            [try discriminate Hin |]).
    + injection Hin as -> _. by left.
    + by apply elem_of_nil in Hin.
  - apply (proj2 (trimmed_build_id_unchanged [] "_h1234_0")). reflexivity.
Defined.

Lemma append_cons (c : ascii) (p s : string) :
  String c p +:+ s = String c (p +:+ s).
Proof. reflexivity. Qed.

Lemma append_nil (s : string) : "" +:+ s = s.
Proof. reflexivity. Qed.

Lemma append_assoc (a b c : string) : (a +:+ b) +:+ c = a +:+ b +:+ c.
Proof.
  induction a as [| x a IH]; [done |]. by rewrite !append_cons, IH.
Qed.

Lemma prefix_empty (s : string) : String.prefix "" s = true.
Proof. by destruct s. Qed.

Lemma prefix_app (p s : string) : String.prefix p (p +:+ s) = true.
Proof.
  induction p as [| c p IH].
  - rewrite append_nil. by destruct s.
  - rewrite append_cons. cbn [String.prefix].
    destruct (Ascii.ascii_dec c c); [done | congruence].
Qed.

Lemma replace_go_absent (old new s : string) :
  contains old s = false -> replace_go old new 0 s = s.
Proof.
  induction s as [| c s IH]; [done |].
  cbn [contains replace_go]. intros H.
  apply orb_false_iff in H as [Hp Hc]. rewrite Hp. by rewrite IH.
Qed.

Lemma replace_go_skip (old new pre s : string) :
  replace_go old new (String.length pre) (pre +:+ s) = replace_go old new 0 s.
Proof.
  induction pre as [| c pre IH]; [by rewrite append_nil |].
  rewrite append_cons. cbn [String.length replace_go]. exact IH.
Qed.

(** Removing a text from a string that starts with it and has it nowhere
    else leaves the rest. *)
Lemma replace_prefix (old s : string) :
  str_truthy old = true -> contains old s = false ->
  replace old "" (old +:+ s) = s.
Proof.
  intros Hne Habs. unfold replace.
  destruct old as [| c old]; [done |]. cbn [str_is_empty].
  rewrite append_cons. cbn [replace_go]. rewrite <- append_cons.
  rewrite prefix_app. cbn [String.length Nat.sub]. rewrite Nat.sub_0_r.
  rewrite replace_go_skip, append_nil. by apply replace_go_absent.
Qed.

Lemma take_digits_app (max : nat) (ds rest : string) :
  str_forallb is_digit ds = true -> (String.length ds <= max)%nat ->
  take_digits max (ds +:+ String "_" rest) = (ds, String "_" rest).
Proof.
  revert max. induction ds as [| c ds IH]; intros max Hd Hlen.
  - rewrite append_nil. by destruct max.
  - cbn in Hd. apply andb_true_iff in Hd as [Hc Hd].
    destruct max as [| max]; [cbn in Hlen; lia |].
    rewrite append_cons. cbn [take_digits]. rewrite Hc.
    rewrite IH; [done | done | cbn in Hlen; lia].
Qed.

Lemma length_append (a b : string) :
  String.length (a +:+ b) = (String.length a + String.length b)%nat.
Proof.
  induction a as [| c a IH]; [done |].
  rewrite append_cons. cbn [String.length]. by rewrite IH.
Qed.

(** X20.  The legacy normalization of a build string made of one of the
    six prefixes ([np], [py], [pl], [lua], [r] with two to nine digits,
    [mro] with three to nine), an underscore and a rest in which the
    prefix does not occur again: the prefix and the underscore are removed
    when the package of the prefix is not among the build dependencies, and
    the string is left as it is when it is. *)
Theorem legacy_prefix_normalization (group tag : string) (lo : nat)
    (digits rest : string) (build_deps : list string) :
  (group, tag, lo) ∈ legacy_tags ->
  str_forallb is_digit digits = true ->
  (lo <= String.length digits <= 9)%nat ->
  contains (tag +:+ digits) ("_" +:+ rest) = false ->
  trimmed_build_id build_deps (tag +:+ digits +:+ "_" +:+ rest) =
  if bool_decide (group ∈ build_deps) then tag +:+ digits +:+ "_" +:+ rest
  else rest.
Proof.
  intros Htag Hd Hlen Habs.
  assert (Hfuel : (2 <= String.length (tag +:+ digits +:+ "_" +:+ rest))%nat).
  { rewrite !length_append. cbn [String.length].
    unfold legacy_tags in Htag.
    repeat (apply elem_of_cons in Htag as [[= -> -> ->] | Htag]);
      try (by apply elem_of_nil in Htag); cbn [String.length]; lia. }
  assert (Hgd : legacy_groupdict (tag +:+ digits +:+ "_" +:+ rest) =
                dict_set (map (fun t => (t.1.1, None)) legacy_tags) group
                  (Some (tag +:+ digits))).
  { unfold legacy_groupdict.
    destruct (String.length (tag +:+ digits +:+ "_" +:+ rest))
      as [| [| fuel]]; [lia | lia |].
    assert (Hfirst : match_alternatives legacy_tags
                       (tag +:+ digits +:+ "_" +:+ rest)
                     = Some (group, tag +:+ digits, "_" +:+ rest)).
    { unfold legacy_tags in Htag.
      repeat (apply elem_of_cons in Htag as [[= -> -> ->] | Htag]);
        try (by apply elem_of_nil in Htag);
        rewrite ?append_cons, ?append_nil;
        cbn -[take_digits Nat.leb String.append];
        unfold match_tag; cbn -[take_digits Nat.leb String.append];
        rewrite take_digits_app by (done || lia);
        cbn [fst snd]; rewrite prefix_empty;
        rewrite (proj2 (Nat.leb_le _ _) (proj1 Hlen)); reflexivity. }
    cbn [match_rounds]. rewrite Hfirst.
    assert (Hsecond : match_alternatives legacy_tags ("_" +:+ rest) = None)
      by reflexivity.
    by rewrite Hsecond. }
  unfold trimmed_build_id. rewrite Hgd.
  assert (Htruthy : str_truthy (tag +:+ digits) = true).
  { unfold legacy_tags in Htag.
    repeat (apply elem_of_cons in Htag as [[= -> -> ->] | Htag]);
      try (by apply elem_of_nil in Htag); reflexivity. }
  assert (Hstart : startswith "_" (tag +:+ digits +:+ "_" +:+ rest) = false).
  { unfold legacy_tags in Htag.
    repeat (apply elem_of_cons in Htag as [[= -> -> ->] | Htag]);
      try (by apply elem_of_nil in Htag); reflexivity. }
  assert (Hfold :
    fold_left
      (fun acc gm =>
         match gm.2 with
         | Some matched_str =>
             if str_truthy matched_str &&
                negb (bool_decide (gm.1 ∈ build_deps))
             then replace matched_str "" acc
             else acc
         | None => acc
         end)
      (dict_set (map (fun t => (t.1.1, None)) legacy_tags) group
         (Some (tag +:+ digits)))
      (tag +:+ digits +:+ "_" +:+ rest)
    = if bool_decide (group ∈ build_deps)
      then tag +:+ digits +:+ "_" +:+ rest
      else replace (tag +:+ digits) "" (tag +:+ digits +:+ "_" +:+ rest)).
  { unfold legacy_tags in Htag |- *.
    repeat (apply elem_of_cons in Htag as [[= -> -> ->] | Htag]);
      try (by apply elem_of_nil in Htag);
      cbn -[replace String.append str_truthy]; rewrite Htruthy;
      by destruct (bool_decide (_ ∈ build_deps)). }
  rewrite Hfold. destruct (bool_decide (group ∈ build_deps)).
  - by rewrite Hstart.
  - rewrite <- append_assoc. rewrite replace_prefix by done.
    rewrite append_cons, append_nil. unfold startswith.
    cbn [String.prefix]. destruct (Ascii.ascii_dec "_" "_"); [| done].
    by rewrite prefix_empty.
Qed.

Lemma legacy_prefix_normalization_witness :
  trimmed_build_id ["perl"] "mro351_h1234" = "h1234" /\
  trimmed_build_id ["perl"] "pl526_0" = "pl526_0".
Proof.
  split.
  - refine (legacy_prefix_normalization "mro_base" "mro" 3 "351" "h1234"
              ["perl"] _ eq_refl _ eq_refl).
    + do 5 apply list_elem_of_further. apply list_elem_of_here.
    + cbn. lia.
  - refine (legacy_prefix_normalization "perl" "pl" 2 "526" "0"
              ["perl"] _ eq_refl _ eq_refl).
    + do 2 apply list_elem_of_further. apply list_elem_of_here.
    + cbn. lia.
Defined.

(* ===================================================================== *)
(** * Where the errors of a run come from *)
(* ===================================================================== *)

Lemma raises_from_calls_ret {A} (a : A) : raises_from_calls (ret a).
Proof. intros tr tr' r [= <- <-]. exists []. by rewrite app_nil_r. Qed.

Lemma raises_from_calls_lift {A} (x : result A) :
  (forall e, x = Raise e -> is_lookup_error e = true) ->
  raises_from_calls (lift x).
Proof.
  intros Hx tr tr' r [= <- <-]. exists []. rewrite app_nil_r.
  split; [done |]. destruct x as [a | e]; [done |]. left. by apply Hx.
Qed.

Lemma raises_from_calls_call {A} (ask : trace -> result A) ev :
  (forall e, raised_by (ev (Raise e)) = Some e) ->
  raises_from_calls (call ask ev).
Proof.
  intros Hev tr tr' r [= <- <-]. eexists. split; [done |].
  destruct (ask tr) as [a | e]; [done |]. right.
  exists [], (ev (Raise e)). split; [done | apply Hev].
Qed.

Lemma raises_from_calls_bind {A B} (m : M A) (f : A -> M B) :
  raises_from_calls m -> (forall a, raises_from_calls (f a)) ->
  raises_from_calls (bind m f).
Proof.
  intros Hm Hf tr tr' r H.
  apply bind_inv in H as [(a & tr1 & H1 & H2) | (e & H1 & ->)].
  - apply Hm in H1 as (ext1 & -> & _). apply Hf in H2 as (ext2 & -> & Hr).
    exists (ext1 ++ ext2). split; [by rewrite app_assoc |].
    destruct r as [b | e]; [done |].
    destruct Hr as [Hr | (pre & ev & -> & Hev)]; [by left | right].
    exists (ext1 ++ pre), ev. split; [by rewrite app_assoc | done].
  - by apply Hm in H1.
Qed.

Lemma raises_from_calls_try_ret {A} (m : M A) caught (a : A) :
  raises_from_calls m ->
  raises_from_calls (try_except m [(caught, ret a)]).
Proof.
  intros Hm tr tr' r. unfold try_except.
  destruct (m tr) as [tr1 [x | e]] eqn:H1.
  - intros [= <- <-]. by apply Hm in H1.
  - apply Hm in H1 as (ext1 & -> & Hr). cbn [find_handler].
    destruct (caught e); intros [= <- <-]; exists ext1; done.
Qed.

Section ErrorSources.

Context (W : World) (opts : Options).

Lemma build_raises recipe e testonly mulled_test channels docker dis :
  raises_from_calls
    (build W recipe e testonly mulled_test channels docker dis).
Proof.
  unfold build. apply raises_from_calls_bind.
  - apply raises_from_calls_try_ret. unfold build_try. destruct docker;
      repeat first
        [ apply raises_from_calls_ret
        | apply raises_from_calls_call; done
        | apply raises_from_calls_bind; [| intros ?]
        | match goal with |- context [if ?b then _ else _] => destruct b end ].
  - intros [res |]; [apply raises_from_calls_ret |].
    destruct (negb mulled_test); [apply raises_from_calls_ret |].
    repeat first
      [ apply raises_from_calls_ret
      | apply raises_from_calls_call; done
      | apply raises_from_calls_bind; [| intros ?]
      | match goal with |- context [if ?b then _ else _] => destruct b end ].
Qed.

Lemma upload_build_raises st t res :
  raises_from_calls (upload_build W opts st t res).
Proof.
  unfold upload_build. apply raises_from_calls_bind.
  - destruct (opt_anaconda_upload opts); [| apply raises_from_calls_ret].
    apply raises_from_calls_bind; [| intros; apply raises_from_calls_ret].
    by apply raises_from_calls_call.
  - intros st1. destruct (opt_mulled_upload_target opts) as [tgt |];
      [| apply raises_from_calls_ret].
    destruct (str_truthy tgt); [| apply raises_from_calls_ret].
    apply raises_from_calls_bind; [| intros; apply raises_from_calls_ret].
    by apply raises_from_calls_call.
Qed.

Lemma attempt_target_raises subdag recipe name acc t :
  raises_from_calls (attempt_target W opts subdag recipe name acc t).
Proof.
  unfold attempt_target. apply raises_from_calls_bind; [apply build_raises |].
  intros res. apply raises_from_calls_bind.
  - destruct (negb (success res)).
    + apply raises_from_calls_lift. unfold record_failure, descendants.
      intros e. case_bool_decide; [done |]. by intros [= <-].
    + destruct (negb (opt_testonly opts));
        [apply upload_build_raises | apply raises_from_calls_ret].
  - intros st2. apply raises_from_calls_bind.
    + by apply raises_from_calls_call.
    + intros; apply raises_from_calls_ret.
Qed.

Lemma attempt_targets_raises subdag recipe name acc ts :
  raises_from_calls (attempt_targets W opts subdag recipe name acc ts).
Proof.
  revert acc. induction ts as [| t ts IH]; intros acc; cbn [attempt_targets].
  - apply raises_from_calls_ret.
  - apply raises_from_calls_bind;
      [apply attempt_target_raises | intros; apply IH].
Qed.

Lemma map_get_raises {V} (d : gmap string V) k e :
  map_get d k = Raise e -> is_lookup_error e = true.
Proof. unfold map_get. destruct (d !! k); [done | by intros [= <-]]. Qed.

Lemma process_recipe_raises subdag recipe2name recipe_targets st r :
  raises_from_calls
    (process_recipe W opts subdag recipe2name recipe_targets st r).
Proof.
  unfold process_recipe. apply raises_from_calls_bind.
  { apply raises_from_calls_lift. intros e. apply map_get_raises. }
  intros name. destruct (skip_dependent st !! name);
    [apply raises_from_calls_ret |].
  apply raises_from_calls_bind.
  { apply raises_from_calls_lift. intros e. apply map_get_raises. }
  intros ts. apply raises_from_calls_bind; [apply attempt_targets_raises |].
  intros; apply raises_from_calls_ret.
Qed.

Lemma process_recipes_raises subdag recipe2name recipe_targets st rs :
  raises_from_calls
    (process_recipes W opts subdag recipe2name recipe_targets st rs).
Proof.
  revert st. induction rs as [| r rs IH]; intros st; cbn [process_recipes].
  - apply raises_from_calls_ret.
  - apply raises_from_calls_bind;
      [apply process_recipe_raises | intros; apply IH].
Qed.

Lemma select_subdag_raises testonly dag n i e :
  select_subdag testonly dag n i = Raise e -> is_lookup_error e = true.
Proof.
  unfold select_subdag. destruct (n <=? i); [by intros [= <-] |].
  destruct (_ <=? i); [done |]. unfold index.
  destruct (_ && _); [| by intros [= <-]].
  destruct (_ !! _); [done | by intros [= <-]].
Qed.

Lemma recipes_in_order_raises subdag d e :
  recipes_in_order subdag d = Raise e -> is_lookup_error e = true.
Proof.
  unfold recipes_in_order.
  destruct (topological_sort subdag) as [packages |] eqn:Hsort; cbn.
  - destruct (rmapM (dict_get d) packages) as [ls |] eqn:Hm; [done |].
    cbn. intros [= <-]. apply rmapM_raises in Hm as (x & _ & Hx).
    unfold dict_get in Hx. destruct (dict_lookup d x); [done |].
    by injection Hx as <-.
  - intros [= <-]. by apply topo_loop_raises in Hsort as ->.
Qed.

End ErrorSources.

(** X21.  An error that ends a run of [build_recipes] is a look-up error
    ([ValueError], [IndexError], [KeyError] or an error of networkx), or
    it is the error the collaborator called last answered with: the
    scheduler raises nothing else of its own, and goes on with nothing
    after a collaborator raised an error that [build] does not catch. *)
Theorem run_error_sources (W : World) (opts : Options)
    (recipe_targets : gmap string (list Target)) (dag : DiGraph)
    (name2recipes : dict string (list string)) (n i : Z)
    (tr tr' : trace) (e : exn) :
  build_recipes W opts recipe_targets dag name2recipes n i tr
    = (tr', Raise e) ->
  is_lookup_error e = true \/
  exists pre ev, tr' = tr ++ pre ++ [ev] /\ raised_by ev = Some e.
Proof.
  assert (H : raises_from_calls
            (build_recipes W opts recipe_targets dag name2recipes n i)).
  { unfold build_recipes. destruct (negb (Nx.truthy dag));
      [apply raises_from_calls_ret |].
    apply raises_from_calls_bind.
    { apply raises_from_calls_lift. intros e0. apply select_subdag_raises. }
    intros [subdag |]; [| apply raises_from_calls_ret].
    apply raises_from_calls_bind.
    { apply raises_from_calls_lift. intros e0.
      apply recipes_in_order_raises. }
    intros recipes. apply raises_from_calls_bind;
      [apply process_recipes_raises | intros; apply raises_from_calls_ret]. }
  intros Hrun. apply H in Hrun as (ext & -> & [Hl | (pre & ev & -> & Hev)]).
  - by left.
  - right. by exists pre, ev.
Qed.

Lemma run_error_sources_witness :
  build_recipes docker_down_world docker_opts good_targets example_graph
    example_name2recipes 1 0 [] =
  ([EvDockerBuildRecipe "recipes/a" "--no-build-id --no-anaconda-upload"
      [("CONDA_PY", "27")] (Raise (OtherException "OSError"))],
   Raise (OtherException "OSError")) /\
  exists pre ev,
    [EvDockerBuildRecipe "recipes/a" "--no-build-id --no-anaconda-upload"
       [("CONDA_PY", "27")] (Raise (OtherException "OSError"))]
    = [] ++ pre ++ [ev] /\
    raised_by ev = Some (OtherException "OSError").
Proof.
  assert (Hrun : build_recipes docker_down_world docker_opts good_targets
                   example_graph example_name2recipes 1 0 [] =
    ([EvDockerBuildRecipe "recipes/a" "--no-build-id --no-anaconda-upload"
        [("CONDA_PY", "27")] (Raise (OtherException "OSError"))],
     Raise (OtherException "OSError"))) by (vm_compute; reflexivity).
  split; [exact Hrun |].
  destruct (run_error_sources docker_down_world docker_opts good_targets
              example_graph example_name2recipes 1 0 [] _ _ Hrun)
    as [Hl | H]; [discriminate Hl | exact H].
Defined.

(** X22.  In an attempt that returns, the purge is the last call: it
    comes after the build, the test and the uploads of the target, and
    nothing of the target is done after it. *)
Theorem purge_is_last (W : World) (opts : Options) (subdag : DiGraph)
    (recipe name : string) (acc acc' : Sched * bool) (t : Target)
    (tr tr' : trace) :
  attempt_target W opts subdag recipe name acc t tr = (tr', Ok acc') ->
  exists tr1 res pre,
    build W recipe (target_env t) (opt_testonly opts) (opt_mulled_test opts)
      (opt_channels opts) (opt_docker_builder opts) false tr
      = (tr1, Ok res) /\
    tr' = tr ++ pre ++ [EvRun purge_cmd None (Ok tt)] /\
    marks pre = [MAttempt] /\
    acc'.2 = acc.2 && success res /\
    (success res = true -> opt_testonly opts = false ->
     opt_anaconda_upload opts = true ->
     exists o, EvAnacondaUpload (target_pkg t) (opt_label opts) (Ok o)
               ∈ pre).
Proof.
  intros H. unfold attempt_target in H.
  apply bind_ok_inv in H as (res & tr1 & Hb & H).
  exists tr1, res. pose proof Hb as Hb'.
  apply build_trace in Hb' as (ext1 & -> & Hm1 & _).
  apply bind_ok_inv in H as (st2 & tr2 & Hmid & H).
  apply bind_ok_inv in H as (u & tr3 & Hp & H).
  apply purge_inv in Hp as [-> _]. apply ret_inv in H as [-> [= ->]].
  destruct u. cbn [snd].
  destruct (negb (success res)) eqn:Hs.
  - apply lift_inv in Hmid as [-> _]. exists ext1.
    split; [done |]. split; [by rewrite <- app_assoc |].
    do 2 (split; [done |]).
    intros Hs'. by rewrite Hs' in Hs.
  - destruct (negb (opt_testonly opts)) eqn:Hto.
    + apply upload_build_spec in Hmid
        as (ext2 & -> & Hm2 & _ & _ & _ & _ & _ & _ & Hup & _).
      exists (ext1 ++ ext2). split; [done |].
      split; [by rewrite <- !app_assoc |].
      split; [by rewrite marks_app, Hm1, Hm2 |]. split; [done |].
      intros _ _ Hau. destruct (Hup Hau) as [o Ho]. exists o.
      apply elem_of_app. by right.
    + apply ret_inv in Hmid as [-> _]. exists ext1.
      split; [done |]. split; [by rewrite <- app_assoc |].
      do 2 (split; [done |]).
      intros _ Hto'. by rewrite Hto' in Hto.
Qed.

Lemma purge_is_last_witness :
  let W := example_world (Ok true) (Ok true) (Ok (Some [])) [] in
  let opts := example_opts true None in
  exists tr' acc',
    attempt_target W opts example_graph "recipes/a" "a" (initial, true)
      target_py27 [] = (tr', Ok acc') /\
    exists tr1 res pre,
      build W "recipes/a" (target_env target_py27) (opt_testonly opts)
        (opt_mulled_test opts) (opt_channels opts) (opt_docker_builder opts)
        false [] = (tr1, Ok res) /\
      tr' = [] ++ pre ++ [EvRun purge_cmd None (Ok tt)] /\
      marks pre = [MAttempt] /\
      acc'.2 = true && success res /\
      (success res = true -> opt_testonly opts = false ->
       opt_anaconda_upload opts = true ->
       exists o, EvAnacondaUpload (target_pkg target_py27) (opt_label opts)
                   (Ok o) ∈ pre).
Proof.
  intros W opts.
  destruct (attempt_target W opts example_graph "recipes/a" "a"
              (initial, true) target_py27 []) as [tr' r] eqn:Ha.
  pose proof Ha as Ha'. vm_compute in Ha'. injection Ha' as <- <-.
  eexists _, _. split; [exact Ha |].
  exact (purge_is_last W opts example_graph "recipes/a" "a" (initial, true)
           _ target_py27 [] _ Ha).
Defined.

(* ===================================================================== *)
(** * The answers of [build] in a run *)
(* ===================================================================== *)

Lemma failures_app (l1 l2 : list (string * Target * BuildResult)) :
  failures (l1 ++ l2) = failures l1 ++ failures l2.
Proof. apply omap_app. Qed.

Lemma elem_of_failures (log : list (string * Target * BuildResult)) r t :
  (r, t) ∈ failures log <->
  exists res, (r, t, res) ∈ log /\ success res = false.
Proof.
  unfold failures. rewrite list_elem_of_omap. split.
  - intros ([[r' t'] res] & Hin & H). cbn in H.
    destruct (success res) eqn:Hs; [done |]. injection H as -> ->.
    by exists res.
  - intros (res & Hin & Hs). exists (r, t, res). split; [done |].
    cbn. by rewrite Hs.
Qed.

Lemma failures_nil (log : list (string * Target * BuildResult)) :
  failures log = [] <-> Forall (fun entry => success entry.2 = true) log.
Proof.
  induction log as [| [[r t] res] log IH]; cbn.
  - split; [by constructor | done].
  - rewrite Forall_cons. cbn. destruct (success res); cbn.
    + rewrite IH. tauto.
    + split; [done | by intros [? _]].
Qed.

Lemma forallb_success (log : list (string * Target * BuildResult)) :
  forallb (fun entry => success entry.2) log = bool_decide (failures log = []).
Proof.
  induction log as [| [[r t] res] log IH]; cbn; [done |].
  destruct (success res); cbn; [| done]. exact IH.
Qed.

Section RunLogFacts.

Context (W : World) (opts : Options) (subdag : DiGraph).
Context (recipe2name : gmap string string).
Context (recipe_targets : gmap string (list Target)).

Lemma run_log_app tr ext1 log1 ext2 log2 :
  run_log W opts tr ext1 log1 -> run_log W opts (tr ++ ext1) ext2 log2 ->
  run_log W opts tr (ext1 ++ ext2) (log1 ++ log2).
Proof.
  intros H1. revert ext2 log2.
  induction H1 as [tr | tr r t res e1 e2 e3 log Hb Hm _ IH];
    intros ext2 log2 H2; [by rewrite app_nil_r in H2 |].
  rewrite <- !app_assoc. cbn [app].
  eapply run_log_cons; [done | done |]. apply IH.
  by rewrite <- !app_assoc.
Qed.

(** One attempt that returns: [build] answered, and the failure recorded
    is the failure it answered. *)
Lemma attempt_target_log recipe name st ok t tr tr' st' ok' :
  attempt_target W opts subdag recipe name (st, ok) t tr
    = (tr', Ok (st', ok')) ->
  exists ext res,
    tr' = tr ++ ext /\ run_log W opts tr ext [(recipe, t, res)] /\
    failed st' = failed st ++ failures [(recipe, t, res)] /\
    ok' = ok && success res.
Proof.
  unfold attempt_target. intros H.
  apply bind_ok_inv in H as (res & tr1 & Hb & H). cbn [fst snd] in H.
  apply bind_ok_inv in H as (st2 & tr2 & Hmid & H).
  apply bind_ok_inv in H as ([] & tr3 & Hp & H).
  apply ret_inv in H as [-> [= -> ->]].
  apply purge_inv in Hp as [-> _].
  destruct (build_trace _ _ _ _ _ _ _ _ _ _ _ Hb) as (e1 & -> & _ & _).
  assert (exists e2, tr2 = (tr ++ e1) ++ e2 /\ marks e2 = [] /\
            failed st2 = failed st ++ failures [(recipe, t, res)])
    as (e2 & -> & Hm2 & Hf).
  { cbn. destruct (success res) eqn:Hs; cbn [negb] in Hmid.
    - destruct (negb (opt_testonly opts)).
      + apply upload_build_spec in Hmid as (e2 & -> & Hm & Hf & _).
        exists e2. by rewrite Hf, app_nil_r.
      + apply ret_inv in Hmid as [-> [= ->]]. exists [].
        by rewrite !app_nil_r.
    - apply lift_inv in Hmid as [-> Hrec]. exists [].
      rewrite app_nil_r. split; [done |]. split; [done |].
      unfold record_failure, rmap in Hrec.
      destruct (descendants subdag name); [| done].
      by injection Hrec as ->. }
  exists (e1 ++ (e2 ++ [EvRun purge_cmd None (Ok tt)]) ++ []), res.
  split; [by rewrite app_nil_r, <- !app_assoc |].
  split; [| done].
  eapply run_log_cons; [done | | apply run_log_nil].
  by rewrite marks_app, Hm2, marks_purge.
Qed.

Lemma attempt_targets_log recipe name ts st ok tr tr' st' ok' :
  attempt_targets W opts subdag recipe name (st, ok) ts tr
    = (tr', Ok (st', ok')) ->
  exists ext log,
    tr' = tr ++ ext /\ run_log W opts tr ext log /\
    map fst log = map (pair recipe) ts /\
    failed st' = failed st ++ failures log /\
    ok' = ok && bool_decide (failures log = []).
Proof.
  revert st ok tr. induction ts as [| t ts IH]; intros st ok tr H.
  - apply ret_inv in H as [-> [= -> ->]]. exists [], [].
    rewrite !app_nil_r, andb_true_r.
    split; [done |]. split; [constructor | done].
  - cbn [attempt_targets] in H.
    apply bind_ok_inv in H as ([st1 ok1] & tr1 & H1 & H2).
    apply attempt_target_log in H1 as (e1 & res & -> & Hl1 & Hf1 & ->).
    apply IH in H2 as (e2 & log & -> & Hl2 & Hmap & Hf2 & ->).
    exists (e1 ++ e2), ((recipe, t, res) :: log).
    split; [by rewrite app_assoc |].
    split; [exact (run_log_app _ _ _ _ _ Hl1 Hl2) |].
    split; [cbn; by rewrite Hmap |].
    split.
    { rewrite Hf2, Hf1, <- app_assoc. f_equal.
      by rewrite <- failures_app. }
    cbn. destruct (success res); cbn; [by rewrite andb_true_r |].
    by rewrite andb_false_r.
Qed.

Lemma process_recipe_log st r tr tr' st' :
  process_recipe W opts subdag recipe2name recipe_targets st r tr
    = (tr', Ok st') ->
  exists ext log,
    tr' = tr ++ ext /\ run_log W opts tr ext log /\
    failed st' = failed st ++ failures log /\
    ((log = [] /\ skipped_recipes st' = skipped_recipes st ++ [r]) \/
     (exists ts, recipe_targets !! r = Some ts /\
        map fst log = map (pair r) ts /\
        skipped_recipes st' = skipped_recipes st)).
Proof.
  unfold process_recipe. intros H.
  apply bind_ok_inv in H as (name & tr0 & Hn & H).
  apply lift_inv in Hn as [-> Hn].
  destruct (skip_dependent st !! name) as [blockers |].
  - apply ret_inv in H as [-> [= ->]]. exists [], [].
    rewrite !app_nil_r. split; [done |]. split; [constructor |].
    split; [done | by left].
  - apply bind_ok_inv in H as (ts & tr0 & Hts & H).
    apply lift_inv in Hts as [-> Hts].
    apply bind_ok_inv in H as ([st1 ok1] & tr1 & Hat & H).
    apply ret_inv in H as [-> [= ->]].
    pose proof Hat as Hat'.
    apply attempt_targets_spec in Hat' as (ext' & _ & _ & _ & Hsk & _).
    apply attempt_targets_log in Hat as (ext & log & -> & Hl & Hmap & Hf & _).
    exists ext, log. split; [done |]. split; [done |].
    split; [by destruct ok1 |].
    right. exists ts. unfold map_get in Hts.
    destruct (recipe_targets !! r); [| done]. injection Hts as ->.
    split; [done |]. split; [done |]. by destruct ok1.
Qed.

(** The loop over the recipes: the failures recorded are those [build]
    answered, a target has an entry only when it is a target of a recipe of
    the list, and, for recipes listed once, exactly when it is a target of
    a recipe that was not skipped. *)
Lemma process_recipes_log rs st tr tr' st' :
  process_recipes W opts subdag recipe2name recipe_targets st rs tr
    = (tr', Ok st') ->
  exists ext log,
    tr' = tr ++ ext /\ run_log W opts tr ext log /\
    failed st' = failed st ++ failures log /\
    (forall r t res, (r, t, res) ∈ log ->
       r ∈ rs /\ exists ts, recipe_targets !! r = Some ts /\ t ∈ ts) /\
    (NoDup rs -> (forall r, r ∈ rs -> r ∉ skipped_recipes st) ->
     (forall r t res, (r, t, res) ∈ log -> r ∉ skipped_recipes st') /\
     (forall r ts t, r ∈ rs -> r ∉ skipped_recipes st' ->
        recipe_targets !! r = Some ts -> t ∈ ts ->
        exists res, (r, t, res) ∈ log)).
Proof.
  revert st tr. induction rs as [| r rs IH]; intros st tr H.
  - apply ret_inv in H as [-> [= ->]]. exists [], [].
    rewrite !app_nil_r. split; [done |]. split; [constructor |].
    split; [done |]. split.
    + intros ??? Hin. by apply elem_of_nil in Hin.
    + intros _ _. split.
      * intros ??? Hin. by apply elem_of_nil in Hin.
      * intros ??? Hin. by apply elem_of_nil in Hin.
  - cbn [process_recipes] in H.
    apply bind_ok_inv in H as (st1 & tr1 & H1 & H2).
    pose proof H2 as Hrest.
    apply process_recipes_spec in Hrest as (ext0 & _ & Hsteps).
    destruct (steps_lists _ _ _ _ _ _ _ _ Hsteps)
      as (bs & ss & fs & _ & Hss & _ & Hcover & _).
    apply process_recipe_log in H1 as (e1 & log1 & -> & Hl1 & Hf1 & Hcase).
    apply IH in H2 as (e2 & log2 & -> & Hl2 & Hf2 & Hin2 & Hnd2).
    exists (e1 ++ e2), (log1 ++ log2).
    split; [by rewrite app_assoc |].
    split; [exact (run_log_app _ _ _ _ _ Hl1 Hl2) |].
    split; [by rewrite Hf2, Hf1, failures_app, app_assoc |].
    assert (Hin1 : forall r0 t res, (r0, t, res) ∈ log1 ->
              r0 = r /\ exists ts, recipe_targets !! r = Some ts /\ t ∈ ts /\
                skipped_recipes st1 = skipped_recipes st).
    { intros r0 t res Hin.
      destruct Hcase as [[-> _] | (ts & Hts & Hmap & Hsk)];
        [by apply elem_of_nil in Hin |].
      assert (Hx : (r0, t) ∈ map fst log1).
      { apply elem_of_map. by exists (r0, t, res). }
      rewrite Hmap in Hx. apply elem_of_map in Hx as (t' & [= -> ->] & Ht).
      split; [done |]. by exists ts. }
    split.
    { intros r0 t res Hin. apply elem_of_app in Hin as [Hin | Hin].
      - apply Hin1 in Hin as (-> & ts & Hts & Ht & _).
        split; [by left | by exists ts].
      - apply Hin2 in Hin as [Hr Hts]. split; [by right | done]. }
    intros Hnd Hfresh. apply NoDup_cons in Hnd as [Hr Hnd].
    assert (Hsk1 : forall x, x ∈ skipped_recipes st1 ->
              x ∈ skipped_recipes st \/ x = r).
    { intros x Hx. destruct Hcase as [[_ Hs] | (ts & _ & _ & Hs)];
        rewrite Hs in Hx; [| by left].
      apply elem_of_app in Hx as [Hx | Hx]; [by left |].
      apply list_elem_of_singleton in Hx. by right. }
    assert (Hfresh1 : forall x, x ∈ rs -> x ∉ skipped_recipes st1).
    { intros x Hx Hs. apply Hsk1 in Hs as [Hs | ->]; [| done].
      apply (Hfresh x); [by right | done]. }
    destruct (Hnd2 Hnd Hfresh1) as [Hns2 Hcov2]. split.
    + intros r0 t res Hin. apply elem_of_app in Hin as [Hin | Hin];
        [| by eapply Hns2].
      apply Hin1 in Hin as (-> & ts & _ & _ & Hs).
      rewrite Hss, Hs. intros Hx. apply elem_of_app in Hx as [Hx | Hx].
      * apply (Hfresh r); [by left | done].
      * apply Hr. apply Hcover. auto.
    + intros r0 ts t Hr0 Hns Hts Ht.
      apply elem_of_cons in Hr0 as [-> | Hr0].
      * destruct Hcase as [[_ Hs] | (ts' & Hts' & Hmap & _)].
        { exfalso. apply Hns.
          apply (steps_mono _ _ _ _ _ _ _ _ Hsteps). rewrite Hs.
          apply elem_of_app. right. by left. }
        rewrite Hts in Hts'. injection Hts' as <-.
        assert (Hx : (r, t) ∈ map fst log1).
        { rewrite Hmap. apply elem_of_map. by exists t. }
        apply elem_of_map in Hx as ([[r1 t1] res] & [= <- <-] & Hin).
        exists res. apply elem_of_app. by left.
      * destruct (Hcov2 r0 ts t Hr0 Hns Hts Ht) as [res Hin].
        exists res. apply elem_of_app. by right.
Qed.

End RunLogFacts.

(** A completed run of [build_recipes]: its builds and what they
    answered. *)
Lemma build_recipes_log W opts recipe_targets dag name2recipes n i
    tr ext st' subdag recipes :
  well_formed dag -> name2recipes_ok name2recipes ->
  select_subdag (opt_testonly opts) dag n i = Ok (Some subdag) ->
  recipes_in_order subdag name2recipes = Ok recipes ->
  process_recipes W opts subdag (recipe2name_of name2recipes)
    recipe_targets initial recipes tr = (tr ++ ext, Ok st') ->
  exists log,
    run_log W opts tr ext log /\
    failed st' = failures log /\
    forall r t,
      (exists res, (r, t, res) ∈ log) <->
      r ∈ recipes /\ (r ∉ skipped_recipes st') /\
      exists ts, recipe_targets !! r = Some ts /\ t ∈ ts.
Proof.
  intros Hwf Hok Hsel Hrec Hloop.
  destruct (select_subdag_subgraph _ _ _ _ _ Hsel) as [c ->].
  destruct (recipes_in_order_spec _ _ _ (subgraph_wf dag c Hwf) Hok Hrec)
    as (_ & _ & _ & _ & _ & _ & _ & Hnd & _).
  apply process_recipes_log in Hloop
    as (ext' & log & Hext & Hlog & Hf & Hin & Hcov).
  apply app_inv_head in Hext as <-.
  destruct (Hcov Hnd) as [Hns Hall].
  { intros r _ Hx. by apply elem_of_nil in Hx. }
  exists log. split; [done |]. split; [done |].
  intros r t. split.
  - intros [res Hr]. destruct (Hin r t res Hr) as [Hrs Hts].
    split; [done |]. split; [by eapply Hns | done].
  - intros (Hr & Hs & ts & Hts & Ht). by eapply Hall.
Qed.

(** C9.  In a completed run, [build] was called once for each target of
    each recipe of the shard that was not skipped, and for no other; with
    the answers it gave: a recipe that was not skipped and for whose
    targets [build] answered success only is in the built set (with one
    target or more, and also with none); a recipe for one of whose targets
    [build] answered a failure is not in the built set; the failed targets
    recorded are exactly those failures; and the package of a target that
    did build is uploaded, whatever [build] answered for the other targets
    of its recipe. *)
Theorem built_set_spec (W : World) (opts : Options)
    (recipe_targets : gmap string (list Target)) (dag : DiGraph)
    (name2recipes : dict string (list string)) (n i : Z)
    (tr tr' : trace) (b : bool) (st' : Sched) :
  well_formed dag -> name2recipes_ok name2recipes ->
  build_recipes W opts recipe_targets dag name2recipes n i tr
    = (tr', Ok (b, Some st')) ->
  exists subdag recipes ext log,
    select_subdag (opt_testonly opts) dag n i = Ok (Some subdag) /\
    recipes_in_order subdag name2recipes = Ok recipes /\
    tr' = tr ++ ext /\
    run_log W opts tr ext log /\
    (forall r t,
       (exists res, (r, t, res) ∈ log) <->
       r ∈ recipes /\ (r ∉ skipped_recipes st') /\
       exists ts, recipe_targets !! r = Some ts /\ t ∈ ts) /\
    failed st' = failures log /\
    (forall r, r ∈ recipes -> r ∉ skipped_recipes st' ->
       (forall t res, (r, t, res) ∈ log -> success res = true) ->
       r ∈ built_recipes st') /\
    (forall r t res, (r, t, res) ∈ log -> success res = false ->
       r ∉ built_recipes st') /\
    (opt_testonly opts = false -> opt_anaconda_upload opts = true ->
     forall r t, (exists res, (r, t, res) ∈ log) ->
       (forall res, (r, t, res) ∈ log -> success res = true) ->
       exists o, EvAnacondaUpload (target_pkg t) (opt_label opts) (Ok o)
                 ∈ ext).
Proof.
  intros Hwf Hok H.
  apply build_recipes_completed in H
    as (subdag & recipes & ext & Hsel & Hrec & -> & Hloop & Hsteps & _).
  destruct (build_recipes_log _ _ _ _ _ _ _ _ _ _ _ _ Hwf Hok Hsel Hrec Hloop)
    as (log & Hlog & Hf & Hcov).
  exists subdag, recipes, ext, log. do 6 (split; [done |]).
  destruct (select_subdag_subgraph _ _ _ _ _ Hsel) as [c ->].
  destruct (recipes_in_order_spec _ _ _ (subgraph_wf dag c Hwf) Hok Hrec)
    as (_ & _ & _ & _ & _ & _ & _ & Hnd & _).
  destruct (steps_initial _ _ _ _ _ _ _ Hsteps) as [Hall Hdisj].
  specialize (Hdisj Hnd). split; [| split].
  - intros r Hr Hns Hgood. apply Hall in Hr as [Hr | [Hr | [t Hr]]];
      [done | done |].
    rewrite Hf in Hr. apply elem_of_failures in Hr as (res & Hin & Hs).
    by rewrite (Hgood t res Hin) in Hs.
  - intros r t res Hin Hs Hb. destruct (Hdisj r) as [H1 _].
    destruct (H1 Hb) as [_ H2]. apply (H2 t). rewrite Hf.
    apply elem_of_failures. by exists res.
  - intros Hto Hau r t Hin Hgood.
    apply Hcov in Hin as (Hr & Hns & ts & Hts & Ht).
    destruct (steps_uploads _ _ _ _ _ _ _ _ _ _ _ Hsteps Hto Hau Hr Hts Ht)
      as [H | [H | H]]; [done | | done].
    rewrite Hf in H. apply elem_of_failures in H as (res & Hin & Hs).
    by rewrite (Hgood res Hin) in Hs.
Qed.

Lemma built_set_spec_witness :
  let W := example_world (Ok true) (Ok true) (Ok (Some [])) [] in
  let opts := example_opts true None in
  well_formed example_graph /\ name2recipes_ok example_name2recipes /\
  exists tr' b st',
    build_recipes W opts example_targets example_graph example_name2recipes
      1 0 [] = (tr', Ok (b, Some st')) /\
    exists subdag recipes ext log,
      select_subdag (opt_testonly opts) example_graph 1 0 = Ok (Some subdag) /\
      recipes_in_order subdag example_name2recipes = Ok recipes /\
      tr' = [] ++ ext /\
      run_log W opts [] ext log /\
      (forall r t,
         (exists res, (r, t, res) ∈ log) <->
         r ∈ recipes /\ (r ∉ skipped_recipes st') /\
         exists ts, example_targets !! r = Some ts /\ t ∈ ts) /\
      failed st' = failures log /\
      (forall r, r ∈ recipes -> r ∉ skipped_recipes st' ->
         (forall t res, (r, t, res) ∈ log -> success res = true) ->
         r ∈ built_recipes st') /\
      (forall r t res, (r, t, res) ∈ log -> success res = false ->
         r ∉ built_recipes st') /\
      (opt_testonly opts = false -> opt_anaconda_upload opts = true ->
       forall r t, (exists res, (r, t, res) ∈ log) ->
         (forall res, (r, t, res) ∈ log -> success res = true) ->
         exists o, EvAnacondaUpload (target_pkg t) (opt_label opts) (Ok o)
                   ∈ ext).
Proof.
  intros W opts.
  split; [exact example_graph_wf |].
  split; [exact example_name2recipes_ok |].
  destruct (build_recipes W opts example_targets example_graph
              example_name2recipes 1 0 []) as [tr' r] eqn:Hrun.
  pose proof Hrun as Hrun'. vm_compute in Hrun'. injection Hrun' as <- <-.
  eexists _, _, _. split; [exact Hrun |].
  exact (built_set_spec W opts example_targets example_graph
           example_name2recipes 1 0 [] _ _ _
           example_graph_wf example_name2recipes_ok Hrun).
Defined.

(** C2.  In a completed run, with the answers [build] gave: a recipe for
    one of whose targets [build] answered a failure is recorded in the skip
    ledger under every transitive descendant of its package name in the
    shard; and a recipe whose package name is in the ledger when its turn
    comes is recorded as skipped without any collaborator being called and
    without [build] being called for any target of it, the blockers
    recorded for its name being exactly the recipes, processed before it,
    for a target of which [build] answered a failure and of whose package
    name the name is a descendant (at least one), and they stay recorded to
    the end of the run. *)
Theorem failure_blocks_descendants (W : World) (opts : Options)
    (recipe_targets : gmap string (list Target)) (dag : DiGraph)
    (name2recipes : dict string (list string)) (n i : Z)
    (tr tr' : trace) (b : bool) (st' : Sched) :
  well_formed dag -> name2recipes_ok name2recipes ->
  build_recipes W opts recipe_targets dag name2recipes n i tr
    = (tr', Ok (b, Some st')) ->
  exists subdag recipes ext log,
    select_subdag (opt_testonly opts) dag n i = Ok (Some subdag) /\
    recipes_in_order subdag name2recipes = Ok recipes /\
    tr' = tr ++ ext /\
    run_log W opts tr ext log /\
    failed st' = failures log /\
    let recipe2name := recipe2name_of name2recipes in
    (forall r t res name d,
       (r, t, res) ∈ log -> success res = false ->
       recipe2name !! r = Some name ->
       tc (has_edge subdag) name d ->
       exists blockers, skip_dependent st' !! d = Some blockers /\
                        r ∈ blockers) /\
    (forall pre r' post, recipes = pre ++ r' :: post ->
       exists tr1 st1 ext1 log1,
         process_recipes W opts subdag recipe2name recipe_targets initial
           pre tr = (tr1, Ok st1) /\
         tr1 = tr ++ ext1 /\
         run_log W opts tr ext1 log1 /\
         failed st1 = failures log1 /\
         forall name blockers,
           recipe2name !! r' = Some name ->
           skip_dependent st1 !! name = Some blockers ->
           process_recipe W opts subdag recipe2name recipe_targets st1 r' tr1
             = (tr1, Ok (add_skipped st1 r')) /\
           r' ∈ skipped_recipes st' /\
           (forall t res, (r', t, res) ∉ log) /\
           blockers <> [] /\
           (forall x, x ∈ blockers <->
              exists t res xname,
                (x, t, res) ∈ log1 /\ success res = false /\
                x ∈ pre /\
                recipe2name !! x = Some xname /\
                tc (has_edge subdag) xname name) /\
           exists more, skip_dependent st' !! name = Some (blockers ++ more)).
Proof.
  intros Hwf Hok H.
  apply build_recipes_completed in H
    as (subdag & recipes & ext & Hsel & Hrec & -> & Hloop & Hsteps & _).
  destruct (build_recipes_log _ _ _ _ _ _ _ _ _ _ _ _ Hwf Hok Hsel Hrec Hloop)
    as (log & Hlog & Hf & Hcov).
  exists subdag, recipes, ext, log. do 5 (split; [done |]). cbv zeta.
  set (recipe2name := recipe2name_of name2recipes) in *.
  destruct (select_subdag_subgraph _ _ _ _ _ Hsel) as [c ->].
  set (subdag := subgraph dag c) in *.
  assert (Hswf : well_formed subdag) by (by apply subgraph_wf).
  assert (Hacy : acyclic subdag) by (by eapply recipes_in_order_acyclic).
  assert (Hdesc : forall x xname d, x ∈ recipes ->
            recipe2name !! x = Some xname ->
            exists ds, descendants subdag xname = Ok ds /\
              (d ∈ ds <-> tc (has_edge subdag) xname d)).
  { intros x xname d Hx Hxn.
    destruct (recipe_name_in_subdag _ _ _ _ _ Hswf Hok Hrec Hx Hxn)
      as [Hnode _].
    destruct (descendants_ok subdag xname Hnode) as [ds Hds].
    exists ds. split; [done |].
    rewrite (elem_of_descendants subdag xname ds d Hswf Hds).
    split; [tauto |]. intros Htc. split; [done |].
    by eapply tc_acyclic_ne. }
  split.
  - intros r t res name d Hin Hs Hname Htc.
    assert (Hfail : (r, t) ∈ failed st').
    { rewrite Hf. apply elem_of_failures. by exists res. }
    destruct (steps_ledger_propagate _ _ _ _ _ _ _ _ _ _ Hsteps Hfail)
      as [Hin0 | [Hr Hprop]]; [by apply elem_of_nil in Hin0 |].
    destruct (Hdesc r name d Hr Hname) as (ds & Hds & Hd).
    apply (Hprop name ds d Hname Hds). by apply Hd.
  - intros pre r' post ->.
    rewrite process_recipes_app in Hloop.
    destruct (process_recipes W opts subdag recipe2name recipe_targets
                initial pre tr) as [tr1 [st1 | e]] eqn:Hpre; [| done].
    pose proof Hpre as Hpre'.
    apply process_recipes_log in Hpre'
      as (ext1 & log1 & -> & Hlog1 & Hf1 & Hin1 & _).
    exists (tr ++ ext1), st1, ext1, log1. do 4 (split; [done |]).
    intros name blockers Hname Hskip.
    assert (Hstep : process_recipe W opts subdag recipe2name recipe_targets
                      st1 r' (tr ++ ext1)
                    = (tr ++ ext1, Ok (add_skipped st1 r'))).
    { unfold process_recipe, bind, lift, map_get, ret.
      by rewrite Hname, Hskip. }
    split; [done |].
    apply process_recipes_spec in Hpre as (ext1' & _ & Hsteps1).
    pose proof Hloop as Hloop'.
    apply process_recipes_spec in Hloop' as (ext2 & _ & Hsteps2).
    cbn [process_recipes] in Hloop. unfold bind in Hloop at 1.
    rewrite Hstep in Hloop.
    apply process_recipes_spec in Hloop as (ext3 & _ & Hsteps3).
    assert (Hskipped : r' ∈ skipped_recipes st').
    { apply (steps_mono _ _ _ _ _ _ _ _ Hsteps3). cbn.
      apply elem_of_app. right. by left. }
    split; [done |].
    split.
    { intros t res Hin.
      assert (Hex : exists res0, (r', t, res0) ∈ log) by (by exists res).
      by apply Hcov in Hex as (_ & Hns & _). }
    split.
    { eapply (steps_ledger_nonempty _ _ _ _ _ _ _ _ Hsteps1); [| done].
      intros n0 l0 Hl0. by rewrite initial_ledger_empty in Hl0. }
    split.
    { intros x. split.
      - intros Hx.
        destruct (steps_ledger_provenance _ _ _ _ _ _ _ _ _ _ _
                    Hsteps1 Hskip Hx)
          as [(l0 & Hl0 & _) | (t & xname & ds & Hfx & Hxn & Hds & Hin)];
          [by rewrite initial_ledger_empty in Hl0 |].
        rewrite Hf1 in Hfx. cbn in Hfx.
        apply elem_of_failures in Hfx as (res & Hinx & Hs).
        exists t, res, xname. split; [done |]. split; [done |].
        split; [by apply Hin1 in Hinx as [? _] |].
        split; [done |].
        by apply (elem_of_descendants subdag xname ds name Hswf Hds).
      - intros (t & res & xname & Hinx & Hs & _ & Hxn & Htc).
        assert (Hfx : (x, t) ∈ failed st1).
        { rewrite Hf1. cbn. apply elem_of_failures. by exists res. }
        destruct (steps_ledger_propagate _ _ _ _ _ _ _ _ _ _ Hsteps1 Hfx)
          as [Hin | [Hr Hprop]]; [by apply elem_of_nil in Hin |].
        assert (Hx : x ∈ pre ++ r' :: post) by (apply elem_of_app; by left).
        destruct (Hdesc x xname name Hx Hxn) as (ds & Hds & Hd).
        destruct (Hprop xname ds name Hxn Hds (proj2 Hd Htc))
          as (l & Hl & Hxl).
        rewrite Hskip in Hl. by injection Hl as ->. }
    by apply (steps_ledger_mono _ _ _ _ _ _ _ _ _ _ Hsteps2).
Qed.

Lemma failure_blocks_descendants_witness :
  let W := example_world (Ok true) (Ok true) (Ok (Some [])) [] in
  let opts := example_opts true None in
  well_formed example_graph /\ name2recipes_ok example_name2recipes /\
  exists tr' b st',
    build_recipes W opts example_targets example_graph example_name2recipes
      1 0 [] = (tr', Ok (b, Some st')) /\
    skip_dependent st' !! "b" = Some ["recipes/a"] /\
    skipped_recipes st' = ["recipes/b"] /\
    exists subdag recipes ext log,
      select_subdag (opt_testonly opts) example_graph 1 0 = Ok (Some subdag) /\
      recipes_in_order subdag example_name2recipes = Ok recipes /\
      tr' = [] ++ ext /\
      run_log W opts [] ext log /\
      failed st' = failures log /\
      let recipe2name := recipe2name_of example_name2recipes in
      (forall r t res name d,
         (r, t, res) ∈ log -> success res = false ->
         recipe2name !! r = Some name ->
         tc (has_edge subdag) name d ->
         exists blockers, skip_dependent st' !! d = Some blockers /\
                          r ∈ blockers) /\
      (forall pre r' post, recipes = pre ++ r' :: post ->
         exists tr1 st1 ext1 log1,
           process_recipes W opts subdag recipe2name example_targets initial
             pre [] = (tr1, Ok st1) /\
           tr1 = [] ++ ext1 /\
           run_log W opts [] ext1 log1 /\
           failed st1 = failures log1 /\
           forall name blockers,
             recipe2name !! r' = Some name ->
             skip_dependent st1 !! name = Some blockers ->
             process_recipe W opts subdag recipe2name example_targets st1 r'
               tr1 = (tr1, Ok (add_skipped st1 r')) /\
             r' ∈ skipped_recipes st' /\
             (forall t res, (r', t, res) ∉ log) /\
             blockers <> [] /\
             (forall x, x ∈ blockers <->
                exists t res xname,
                  (x, t, res) ∈ log1 /\ success res = false /\
                  x ∈ pre /\
                  recipe2name !! x = Some xname /\
                  tc (has_edge subdag) xname name) /\
             exists more,
               skip_dependent st' !! name = Some (blockers ++ more)).
Proof.
  intros W opts.
  split; [exact example_graph_wf |].
  split; [exact example_name2recipes_ok |].
  destruct (build_recipes W opts example_targets example_graph
              example_name2recipes 1 0 []) as [tr' r] eqn:Hrun.
  pose proof Hrun as Hrun'. vm_compute in Hrun'. injection Hrun' as <- <-.
  eexists _, _, _. split; [exact Hrun |].
  split; [reflexivity |]. split; [reflexivity |].
  exact (failure_blocks_descendants W opts example_targets example_graph
           example_name2recipes 1 0 [] _ _ _
           example_graph_wf example_name2recipes_ok Hrun).
Defined.

(** X7.  What a run that goes through the loop returns: [True] exactly
    when [build] answered success for every target it was called for and
    no artifact upload answered [False].  The failed targets recorded are
    the targets for which [build] answered a failure, and the flag
    [all_success] adds nothing to them: it is [False] exactly when there
    is one. *)
Theorem build_recipes_returns (W : World) (opts : Options)
    (recipe_targets : gmap string (list Target)) (dag : DiGraph)
    (name2recipes : dict string (list string)) (n i : Z)
    (tr tr' : trace) (b : bool) (st' : Sched) :
  build_recipes W opts recipe_targets dag name2recipes n i tr
    = (tr', Ok (b, Some st')) ->
  exists ext log, tr' = tr ++ ext /\
    run_log W opts tr ext log /\
    failed st' = failures log /\
    failed_uploads st' = omap failed_upload_of ext /\
    all_success st' = forallb (fun entry => success entry.2) log /\
    (b = true <->
     Forall (fun entry => success entry.2 = true) log /\
     omap failed_upload_of ext = []).
Proof.
  intros H. apply build_recipes_completed in H
    as (subdag & recipes & ext & _ & _ & -> & Hloop & Hsteps & ->).
  apply process_recipes_log in Hloop
    as (ext' & log & Hext & Hlog & Hf & _).
  apply app_inv_head in Hext as <-. cbn in Hf.
  exists ext, log. split; [done |]. split; [done |]. split; [done |].
  pose proof (steps_failed_uploads _ _ _ _ _ _ _ _ Hsteps) as Hfu.
  cbn in Hfu.
  pose proof (steps_all_success _ _ _ _ _ _ _ _ Hsteps eq_refl) as Has.
  split; [done |].
  split; [by rewrite Has, forallb_success, Hf |].
  rewrite <- failures_nil, <- Hf.
  unfold summary. rewrite <- Hfu, Has.
  destruct (failed st'); destruct (failed_uploads st'); cbn; split;
    try done; by intros [? ?].
Qed.

Lemma build_recipes_returns_witness :
  let W := example_world (Ok false) (Ok true) (Ok (Some [])) [] in
  let opts := example_opts true None in
  exists tr' b st',
    build_recipes W opts good_targets example_graph example_name2recipes
      1 0 [] = (tr', Ok (b, Some st')) /\
    b = false /\ failed st' = [] /\
    exists ext log, tr' = [] ++ ext /\
      run_log W opts [] ext log /\
      failed st' = failures log /\
      failed_uploads st' = omap failed_upload_of ext /\
      all_success st' = forallb (fun entry => success entry.2) log /\
      (b = true <->
       Forall (fun entry => success entry.2 = true) log /\
       omap failed_upload_of ext = []).
Proof.
  intros W opts.
  destruct (build_recipes W opts good_targets example_graph
              example_name2recipes 1 0 []) as [tr' r] eqn:Hrun.
  pose proof Hrun as Hrun'. vm_compute in Hrun'. injection Hrun' as <- <-.
  eexists _, _, _. split; [exact Hrun |].
  split; [reflexivity |]. split; [reflexivity |].
  exact (build_recipes_returns W opts good_targets example_graph
           example_name2recipes 1 0 [] _ _ _ Hrun).
Defined.

(* ===================================================================== *)
(** * The purge after an attempt *)
(* ===================================================================== *)

Section PurgeFacts.

Context (W : World) (opts : Options) (subdag : DiGraph).

(** What an attempt does between the build and the purge makes no call
    that starts a build or purges. *)
Lemma after_build_marks recipe name st t res tr tr' r :
  (if negb (success res)
   then lift (record_failure subdag st recipe name t)
   else if negb (opt_testonly opts)
   then upload_build W opts st t res
   else ret st) tr = (tr', r) ->
  exists ext, tr' = tr ++ ext /\ marks ext = [].
Proof.
  destruct (negb (success res)).
  { intros H. apply lift_inv in H as [-> _]. exists [].
    by rewrite app_nil_r. }
  destruct (negb (opt_testonly opts)).
  - intros H. apply upload_build_spec in H as (ext & -> & Hm & _).
    by exists ext.
  - intros H. apply ret_inv in H as [-> _]. exists []. by rewrite app_nil_r.
Qed.

(** An attempt that returns has purged once, as its last call; one that
    raises has not purged, unless it is the purge that raised. *)
Lemma attempt_target_purge recipe name acc t tr tr' r :
  attempt_target W opts subdag recipe name acc t tr = (tr', r) ->
  exists ext, tr' = tr ++ ext /\
    match r with
    | Ok _ =>
        exists pre, ext = pre ++ [EvRun purge_cmd None (Ok tt)] /\
          marks pre = [MAttempt]
    | Raise e =>
        marks ext = [MAttempt] \/
        exists pre, ext = pre ++ [EvRun purge_cmd None (Raise e)] /\
          marks pre = [MAttempt]
    end.
Proof.
  unfold attempt_target. intros H.
  apply bind_inv in H as [(res & tr1 & Hb & H) | (e & Hb & ->)].
  - destruct (build_trace _ _ _ _ _ _ _ _ _ _ _ Hb) as (e1 & -> & Hm1 & _).
    apply bind_inv in H as [(st2 & tr2 & Hmid & H) | (e & Hmid & ->)].
    + apply after_build_marks in Hmid as (e2 & -> & Hm2).
      apply bind_inv in H as [([] & tr3 & Hp & H) | (e & Hp & ->)].
      * apply purge_inv in Hp as [-> _]. apply ret_inv in H as [-> ->].
        exists (e1 ++ e2 ++ [EvRun purge_cmd None (Ok tt)]).
        split; [by rewrite <- !app_assoc |].
        exists (e1 ++ e2). split; [by rewrite <- app_assoc |].
        by rewrite marks_app, Hm1, Hm2.
      * apply purge_inv in Hp as [-> _].
        exists (e1 ++ e2 ++ [EvRun purge_cmd None (Raise e)]).
        split; [by rewrite <- !app_assoc |]. right.
        exists (e1 ++ e2). split; [by rewrite <- app_assoc |].
        by rewrite marks_app, Hm1, Hm2.
    + apply after_build_marks in Hmid as (e2 & -> & Hm2).
      exists (e1 ++ e2). split; [by rewrite <- app_assoc |]. left.
      by rewrite marks_app, Hm1, Hm2.
  - destruct (build_trace _ _ _ _ _ _ _ _ _ _ _ Hb) as (e1 & -> & Hm1 & _).
    exists e1. split; [done |]. by left.
Qed.

(** An error of [build] comes out of the attempt as it is. *)
Lemma attempt_target_build_error recipe name acc t tr tr1 e :
  build W recipe (target_env t) (opt_testonly opts) (opt_mulled_test opts)
    (opt_channels opts) (opt_docker_builder opts) false tr
    = (tr1, Raise e) ->
  attempt_target W opts subdag recipe name acc t tr = (tr1, Raise e).
Proof. intros H. unfold attempt_target, bind. by rewrite H. Qed.

(** An error of the artifact upload comes out of the attempt before the
    purge. *)
Lemma attempt_target_upload_error recipe name acc t tr tr1 res e :
  build W recipe (target_env t) (opt_testonly opts) (opt_mulled_test opts)
    (opt_channels opts) (opt_docker_builder opts) false tr
    = (tr1, Ok res) ->
  success res = true -> opt_testonly opts = false ->
  opt_anaconda_upload opts = true ->
  anaconda_upload W tr1 (target_pkg t) (opt_label opts) = Raise e ->
  attempt_target W opts subdag recipe name acc t tr =
  (tr1 ++ [EvAnacondaUpload (target_pkg t) (opt_label opts) (Raise e)],
   Raise e).
Proof.
  intros Hb Hs Hto Hau He. unfold attempt_target. unfold bind at 1.
  rewrite Hb, Hs, Hto. cbn [negb]. unfold bind at 1.
  unfold upload_build. rewrite Hau. unfold bind, call. by rewrite He.
Qed.

(** An error of the image upload comes out of the attempt before the
    purge. *)
Lemma attempt_target_image_error recipe name acc t tr tr1 res tgt e :
  build W recipe (target_env t) (opt_testonly opts) (opt_mulled_test opts)
    (opt_channels opts) (opt_docker_builder opts) false tr
    = (tr1, Ok res) ->
  success res = true -> opt_testonly opts = false ->
  opt_mulled_upload_target opts = Some tgt -> str_truthy tgt = true ->
  let answer := anaconda_upload W tr1 (target_pkg t) (opt_label opts) in
  let tr2 :=
    if opt_anaconda_upload opts
    then tr1 ++ [EvAnacondaUpload (target_pkg t) (opt_label opts) answer]
    else tr1 in
  (opt_anaconda_upload opts = true -> exists ok, answer = Ok ok) ->
  mulled_upload W tr2 (mulled_image res) tgt = Raise e ->
  attempt_target W opts subdag recipe name acc t tr =
  (tr2 ++ [EvMulledUpload (mulled_image res) tgt (Raise e)], Raise e).
Proof.
  intros Hb Hs Hto Htgt Htruthy answer tr2 Hans He.
  unfold attempt_target. unfold bind at 1.
  rewrite Hb, Hs, Hto. cbn [negb]. unfold bind at 1.
  unfold upload_build. rewrite Htgt, Htruthy. subst tr2.
  destruct (opt_anaconda_upload opts).
  - destruct (Hans eq_refl) as [ok Hok]. subst answer.
    unfold bind, call, ret. rewrite Hok. rewrite Hok in He. by rewrite He.
  - unfold bind, call, ret. by rewrite He.
Qed.

(** An error that comes out of an attempt, for whichever target of
    whichever recipe, ends the run there. *)
Lemma attempt_error_ends_run recipe_targets dag name2recipes n i tr
    recipes pre r post tr1 st1 name tpre t tpost tr2 acc tr3 exc :
  Nx.truthy dag = true ->
  select_subdag (opt_testonly opts) dag n i = Ok (Some subdag) ->
  recipes_in_order subdag name2recipes = Ok recipes ->
  recipes = pre ++ r :: post ->
  process_recipes W opts subdag (recipe2name_of name2recipes) recipe_targets
    initial pre tr = (tr1, Ok st1) ->
  recipe2name_of name2recipes !! r = Some name ->
  skip_dependent st1 !! name = None ->
  recipe_targets !! r = Some (tpre ++ t :: tpost) ->
  attempt_targets W opts subdag r name (st1, true) tpre tr1 = (tr2, Ok acc) ->
  attempt_target W opts subdag r name acc t tr2 = (tr3, Raise exc) ->
  build_recipes W opts recipe_targets dag name2recipes n i tr
    = (tr3, Raise exc).
Proof.
  intros Hdag Hsel Hrec -> Hpre Hname Hskip Hts Htpre Hat.
  unfold build_recipes. rewrite Hdag. cbn [negb].
  unfold bind at 1. unfold lift at 1. rewrite Hsel.
  unfold bind at 1. unfold lift at 1. rewrite Hrec.
  unfold bind at 1. rewrite process_recipes_app, Hpre.
  cbn [process_recipes]. unfold bind at 1.
  unfold process_recipe, map_get. unfold bind at 1. unfold lift at 1.
  rewrite Hname, Hskip. unfold bind at 1. unfold lift at 1. rewrite Hts.
  unfold bind at 1. rewrite attempt_targets_app, Htpre.
  cbn [attempt_targets]. unfold bind at 1. by rewrite Hat.
Qed.

End PurgeFacts.

(** C5, as the code has it.  Whatever the collaborators answer, the calls
    that start a build and the calls of [purge] alternate in the trace of
    [build_recipes], so every attempt that was completed was purged
    exactly once, and a run that raises leaves at most the last build
    without its purge.  An attempt that returns (the build succeeded, the
    build or the test failed, an upload reported failure) has called
    [purge] once, as its last call.  An attempt that raises has not called
    [purge], unless it is the command of [purge] that raised: an error
    that comes out of [build], of the artifact upload or of the image
    upload comes out of the attempt as it is, with the upload as the last
    call.  And an error that comes out of an attempt ends [build_recipes]
    with that error, at that call. *)
Theorem purge_after_each_completed_attempt (W : World) (opts : Options) :
  (forall recipe_targets dag name2recipes n i tr,
     let run := build_recipes W opts recipe_targets dag name2recipes n i tr in
     exists ext k, run.1 = tr ++ ext /\
       match run.2 with
       | Ok _ => marks ext = purged_attempts k
       | Raise _ =>
           marks ext = purged_attempts k \/
           marks ext = purged_attempts k ++ [MAttempt]
       end) /\
  (forall subdag recipe name acc t tr tr' r,
     attempt_target W opts subdag recipe name acc t tr = (tr', r) ->
     exists ext, tr' = tr ++ ext /\
       match r with
       | Ok _ =>
           exists pre, ext = pre ++ [EvRun purge_cmd None (Ok tt)] /\
             marks pre = [MAttempt]
       | Raise e =>
           marks ext = [MAttempt] \/
           exists pre, ext = pre ++ [EvRun purge_cmd None (Raise e)] /\
             marks pre = [MAttempt]
       end) /\
  (forall subdag recipe name acc t tr tr1 e,
     build W recipe (target_env t) (opt_testonly opts) (opt_mulled_test opts)
       (opt_channels opts) (opt_docker_builder opts) false tr
       = (tr1, Raise e) ->
     attempt_target W opts subdag recipe name acc t tr = (tr1, Raise e)) /\
  (forall subdag recipe name acc t tr tr1 res e,
     build W recipe (target_env t) (opt_testonly opts) (opt_mulled_test opts)
       (opt_channels opts) (opt_docker_builder opts) false tr
       = (tr1, Ok res) ->
     success res = true -> opt_testonly opts = false ->
     opt_anaconda_upload opts = true ->
     anaconda_upload W tr1 (target_pkg t) (opt_label opts) = Raise e ->
     attempt_target W opts subdag recipe name acc t tr =
     (tr1 ++ [EvAnacondaUpload (target_pkg t) (opt_label opts) (Raise e)],
      Raise e)) /\
  (forall subdag recipe name acc t tr tr1 res tgt e,
     build W recipe (target_env t) (opt_testonly opts) (opt_mulled_test opts)
       (opt_channels opts) (opt_docker_builder opts) false tr
       = (tr1, Ok res) ->
     success res = true -> opt_testonly opts = false ->
     opt_mulled_upload_target opts = Some tgt -> str_truthy tgt = true ->
     let answer := anaconda_upload W tr1 (target_pkg t) (opt_label opts) in
     let tr2 :=
       if opt_anaconda_upload opts
       then tr1 ++ [EvAnacondaUpload (target_pkg t) (opt_label opts) answer]
       else tr1 in
     (opt_anaconda_upload opts = true -> exists ok, answer = Ok ok) ->
     mulled_upload W tr2 (mulled_image res) tgt = Raise e ->
     attempt_target W opts subdag recipe name acc t tr =
     (tr2 ++ [EvMulledUpload (mulled_image res) tgt (Raise e)], Raise e)) /\
  (forall recipe_targets dag name2recipes n i tr subdag recipes pre r post
          tr1 st1 name tpre t tpost tr2 acc tr3 exc,
     Nx.truthy dag = true ->
     select_subdag (opt_testonly opts) dag n i = Ok (Some subdag) ->
     recipes_in_order subdag name2recipes = Ok recipes ->
     recipes = pre ++ r :: post ->
     process_recipes W opts subdag (recipe2name_of name2recipes)
       recipe_targets initial pre tr = (tr1, Ok st1) ->
     recipe2name_of name2recipes !! r = Some name ->
     skip_dependent st1 !! name = None ->
     recipe_targets !! r = Some (tpre ++ t :: tpost) ->
     attempt_targets W opts subdag r name (st1, true) tpre tr1
       = (tr2, Ok acc) ->
     attempt_target W opts subdag r name acc t tr2 = (tr3, Raise exc) ->
     build_recipes W opts recipe_targets dag name2recipes n i tr
       = (tr3, Raise exc)).
Proof.
  split; [| split; [| split; [| split; [| split]]]].
  - intros recipe_targets dag name2recipes n i tr run.
    destruct run as [tr' res] eqn:Hrun. subst run.
    apply build_recipes_inv in Hrun
      as [[-> Hres] | (subdag & recipes & res0 & _ & _ & Hloop & ->)].
    + exists [], 0%nat. rewrite app_nil_r. split; [done |].
      destruct Hres as [-> | [e ->]]; simpl; auto.
    + apply process_recipes_spec in Hloop as (ext & -> & H).
      destruct res0 as [st | e]; simpl.
      * apply steps_marks in H as [k Hk]. by exists ext, k.
      * destruct H as [k Hk]. by exists ext, k.
  - intros subdag recipe name acc t tr tr' r.
    apply attempt_target_purge.
  - intros subdag recipe name acc t tr tr1 e.
    apply attempt_target_build_error.
  - intros subdag recipe name acc t tr tr1 res e.
    apply attempt_target_upload_error.
  - intros subdag recipe name acc t tr tr1 res tgt e.
    apply attempt_target_image_error.
  - intros. by eapply attempt_error_ends_run.
Qed.

Lemma purge_after_each_completed_attempt_witness :
  let error := OtherException "ConnectionError" in
  let W := example_world (Raise error) (Ok true) (Ok (Some [])) [] in
  let opts := example_opts true None in
  exists tr1 tr2 res,
    build W "recipes/a" (target_env target_py27) (opt_testonly opts)
      (opt_mulled_test opts) (opt_channels opts) (opt_docker_builder opts)
      false [] = (tr1, Ok res) /\
    success res = true /\
    anaconda_upload W tr1 (target_pkg target_py27) (opt_label opts)
      = Raise error /\
    attempt_target W opts example_graph "recipes/a" "a" (initial, true)
      target_py27 [] = (tr2, Raise error) /\
    marks tr2 = [MAttempt] /\
    build_recipes W opts good_targets example_graph example_name2recipes
      1 0 [] = (tr2, Raise error).
Proof.
  intros error W opts.
  destruct (purge_after_each_completed_attempt W opts)
    as (_ & _ & _ & Hupload & _ & Hend).
  destruct (build W "recipes/a" (target_env target_py27) (opt_testonly opts)
              (opt_mulled_test opts) (opt_channels opts)
              (opt_docker_builder opts) false []) as [tr1 r] eqn:Hb.
  pose proof Hb as Hb'. vm_compute in Hb'. injection Hb' as <- <-.
  pose proof (Hupload example_graph "recipes/a" "a" (initial, true)
                target_py27 [] _ _ error Hb eq_refl eq_refl eq_refl eq_refl)
    as Hat.
  eexists _, _, _. split; [exact Hb |]. split; [reflexivity |].
  split; [reflexivity |]. split; [exact Hat |]. split; [reflexivity |].
  exact (Hend good_targets example_graph example_name2recipes 1 0 []
           example_graph ["recipes/a"; "recipes/b"] [] "recipes/a"
           ["recipes/b"] [] initial "a" [] target_py27 [] []
           (initial, true) _ error
           eq_refl eq_refl eq_refl eq_refl eq_refl eq_refl eq_refl eq_refl
           eq_refl Hat).
Defined.

(* ===================================================================== *)
(** * Errors of the collaborators *)
(* ===================================================================== *)

Ltac snoc_exists :=
  match goal with
  | |- exists pre ev, ?l = _ /\ _ =>
      exists (List.removelast l), (List.last l (EvPathExists "" (Ok true)));
      cbn; split; reflexivity
  end.

Ltac walk_calls Hext Hev :=
  match type of Hext with
  | [] = ?pre ++ _ :: _ => destruct pre; discriminate Hext
  | _ :: _ = ?pre ++ _ :: _ =>
      destruct pre as [| ? pre]; cbn [app] in Hext;
      [ injection Hext as <- <-; cbn in Hev;
        first [discriminate Hev | reflexivity]
      | injection Hext as <- Hext; walk_calls Hext Hev ]
  end.

Ltac last_call_leaf :=
  intros [= <- <-];
  rewrite <- ?app_assoc; cbn [app];
  eexists; split; [first [reflexivity | symmetry; apply app_nil_r] |];
  split; [| split];
  [ let Hr := fresh "Hr" in
    intros exc Hr; first [discriminate Hr | injection Hr as <-; snoc_exists]
  | let Hext := fresh "Hext" in
    let Hev := fresh "Hev" in
    let Hrev := fresh "Hrev" in
    intros pre ev exc Hext Hev;
    apply (f_equal (@rev event)) in Hext; rewrite rev_unit in Hext;
    cbn [rev app] in Hext;
    first [ discriminate Hext
          | injection Hext as <- Hrev;
            apply (f_equal (@length event)) in Hrev;
            rewrite length_rev in Hrev; cbn [length] in Hrev;
            rewrite <- Hrev;
            cbn in Hev; first [discriminate Hev | injection Hev as <-];
            cbn [try_block_calls Nat.ltb Nat.leb andb];
            repeat match goal with
                   | H : is_build_failure _ = _ |- _ => rewrite H; clear H
                   end;
            reflexivity ]
  | let Hext := fresh "Hext" in
    let Hev := fresh "Hev" in
    intros pre ev post exc Hext Hev; walk_calls Hext Hev ].

Section TryBlockFacts.

Context (W : World).

(** The answer of [build] by its last call: an error comes out of [build]
    only from the last call made; an error of a call is the last thing
    that happens in [build]; and it is turned into a failed result exactly
    when the call is one of the [try] block and the error is one of the
    two the block expects. *)
Lemma build_by_last_call recipe e testonly mulled_test channels docker dis
    tr tr' r :
  build W recipe e testonly mulled_test channels docker dis tr = (tr', r) ->
  exists ext, tr' = tr ++ ext /\
    (forall exc, r = Raise exc ->
       exists pre ev, ext = pre ++ [ev] /\ raised_by ev = Some exc) /\
    (forall pre ev exc, ext = pre ++ [ev] -> raised_by ev = Some exc ->
       r = if (length pre <? try_block_calls docker)%nat &&
              is_build_failure exc
           then Ok {| success := false; mulled_image := None |}
           else Raise exc) /\
    (forall pre ev post exc, ext = pre ++ ev :: post ->
       raised_by ev = Some exc -> post = []).
Proof.
  unfold build, build_try, bind, try_except, call, ret.
  destruct docker; cbn [find_handler]; repeat destruct_innermost;
    last_call_leaf.
Qed.

End TryBlockFacts.

(** C7, as the code has it.  In the build step, an error of a call made
    inside the [try] block of [build] (conda-build itself, the question for
    the path of the package, the test that the package exists) becomes a
    failed [BuildResult] when it is a [CalledProcessError] or a
    [DockerCalledProcessError]; every other error there, and every error
    of a call made after the block (the path of the package, the package
    test, the name of the image), whatever its class, comes out of [build];
    nothing is called after a call that raised; and an error that comes
    out of [build] ends [build_recipes] with that error.  In the render
    step, every error deriving from [Exception], expected or not, is
    caught and gives FAIL; only the other errors come out of [check]. *)
Theorem collaborator_errors (W : World) (opts : Options) :
  (forall recipe e testonly mulled_test channels docker dis tr exc,
     build_tool_answer W recipe e testonly channels docker dis tr
       = Raise exc ->
     build W recipe e testonly mulled_test channels docker dis tr =
     (tr ++ [build_tool_event W recipe e testonly channels docker dis
               (Raise exc)],
      if is_build_failure exc
      then Ok {| success := false; mulled_image := None |}
      else Raise exc)) /\
  (forall recipe e testonly mulled_test channels docker dis tr tr' r,
     build W recipe e testonly mulled_test channels docker dis tr
       = (tr', r) ->
     exists ext, tr' = tr ++ ext /\
       (forall exc, r = Raise exc ->
          exists pre ev, ext = pre ++ [ev] /\ raised_by ev = Some exc) /\
       (forall pre ev exc, ext = pre ++ [ev] -> raised_by ev = Some exc ->
          r = if (length pre <? try_block_calls docker)%nat &&
                 is_build_failure exc
              then Ok {| success := false; mulled_image := None |}
              else Raise exc) /\
       (forall pre ev post exc, ext = pre ++ ev :: post ->
          raised_by ev = Some exc -> post = [])) /\
  (forall recipe_targets dag name2recipes n i tr subdag recipes pre r post
          tr1 st1 name tpre t tpost tr2 acc tr3 exc,
     Nx.truthy dag = true ->
     select_subdag (opt_testonly opts) dag n i = Ok (Some subdag) ->
     recipes_in_order subdag name2recipes = Ok recipes ->
     recipes = pre ++ r :: post ->
     process_recipes W opts subdag (recipe2name_of name2recipes)
       recipe_targets initial pre tr = (tr1, Ok st1) ->
     recipe2name_of name2recipes !! r = Some name ->
     skip_dependent st1 !! name = None ->
     recipe_targets !! r = Some (tpre ++ t :: tpost) ->
     attempt_targets W opts subdag r name (st1, true) tpre tr1
       = (tr2, Ok acc) ->
     build W r (target_env t) (opt_testonly opts) (opt_mulled_test opts)
       (opt_channels opts) (opt_docker_builder opts) false tr2
       = (tr3, Raise exc) ->
     build_recipes W opts recipe_targets dag name2recipes n i tr
       = (tr3, Raise exc)) /\
  (forall recipe keep_metas skip_variant_keys tr exc,
     conda_render W tr recipe = Raise exc ->
     check W recipe keep_metas skip_variant_keys tr =
     (tr ++ [EvCondaRender recipe (Raise exc)],
      if is_Exception exc then Ok (FAIL, recipe) else Raise exc)).
Proof.
  split; [| split; [| split]].
  - intros recipe e testonly mulled_test channels docker dis tr exc H.
    by apply build_tool_error.
  - intros recipe e testonly mulled_test channels docker dis tr tr' r.
    apply build_by_last_call.
  - intros. by eapply build_error_ends_run.
  - intros recipe keep_metas skip_variant_keys tr exc H.
    by apply check_render_error.
Qed.

Lemma collaborator_errors_witness :
  let W := example_world (Ok true) (Ok true) (Raise RecipeError) [] in
  let opts := example_opts true None in
  let oserror := OtherException "OSError" in
  let down :=
    [EvDockerBuildRecipe "recipes/a" "--no-build-id --no-anaconda-upload"
       [("CONDA_PY", "27")] (Raise oserror)] in
  let built :=
    EvRun ["conda"; "build"; "--no-build-id"; "--no-anaconda-upload";
           "recipes/a"] (Some [("CONDA_PY", "27")]) (Ok tt) in
  let lost :=
    EvBuiltPackagePath "recipes/a" [("CONDA_PY", "27")]
      (Raise CalledProcessError) in
  (build_tool_answer W "recipes/a" (target_env target_py35) false
     ["bioconda"] false false [] = Raise CalledProcessError /\
   (build W "recipes/a" (target_env target_py35) false true ["bioconda"]
      false false []).2 = Ok {| success := false; mulled_image := None |}) /\
  (raised_by lost = Some CalledProcessError /\
   build lost_package_world "recipes/a" (target_env target_py27) false true
     [] false false [] =
   ([built; lost], Ok {| success := false; mulled_image := None |})) /\
  (build_tool_answer docker_down_world "recipes/a" (target_env target_py27)
     false [] true false [] = Raise oserror /\
   build docker_down_world "recipes/a" (target_env target_py27) false true []
     true false [] = (down, Raise oserror) /\
   build_recipes docker_down_world docker_opts good_targets example_graph
     example_name2recipes 1 0 [] = (down, Raise oserror)) /\
  (conda_render W [] "recipes/a" = Raise RecipeError /\
   (check W "recipes/a" false ∅ []).2 = Ok (FAIL, "recipes/a")).
Proof.
  intros W opts oserror down built lost.
  assert (H1 : build_tool_answer W "recipes/a" (target_env target_py35) false
                 ["bioconda"] false false [] = Raise CalledProcessError)
    by reflexivity.
  assert (H2 : build_tool_answer docker_down_world "recipes/a"
                 (target_env target_py27) false [] true false []
               = Raise oserror)
    by reflexivity.
  assert (H3 : conda_render W [] "recipes/a" = Raise RecipeError)
    by reflexivity.
  assert (H4 : build docker_down_world "recipes/a" (target_env target_py27)
                 false true [] true false [] = (down, Raise oserror))
    by exact (proj1 (collaborator_errors docker_down_world docker_opts)
                "recipes/a" (target_env target_py27) false true [] true false
                [] oserror H2).
  split; [| split; [| split]].
  - split; [exact H1 |].
    exact (f_equal snd
             (proj1 (collaborator_errors W opts) "recipes/a"
                (target_env target_py35) false true ["bioconda"] false false
                [] CalledProcessError H1)).
  - split; [reflexivity |].
    destruct (build lost_package_world "recipes/a" (target_env target_py27)
                false true [] false false []) as [tr' r] eqn:Hb.
    assert (tr' = [built; lost]) as ->
      by exact (eq_sym (f_equal fst Hb)).
    destruct (proj1 (proj2 (collaborator_errors lost_package_world opts))
                "recipes/a" (target_env target_py27) false true [] false
                false [] _ _ Hb) as (ext & Hext & _ & Hlast & _).
    cbn [app] in Hext. subst ext.
    by rewrite (Hlast [built] lost CalledProcessError eq_refl eq_refl).
  - split; [exact H2 |]. split; [exact H4 |].
    exact (proj1 (proj2 (proj2
                    (collaborator_errors docker_down_world docker_opts)))
             good_targets example_graph example_name2recipes 1 0 []
             example_graph ["recipes/a"; "recipes/b"] [] "recipes/a"
             ["recipes/b"] [] initial "a" [] target_py27 [] []
             (initial, true) down oserror
             eq_refl eq_refl eq_refl eq_refl eq_refl eq_refl eq_refl eq_refl
             eq_refl H4).
  - split; [exact H3 |].
    exact (f_equal snd
             (proj2 (proj2 (proj2 (collaborator_errors W opts)))
                "recipes/a" false ∅ [] RecipeError H3)).
Defined.

(* ===================================================================== *)
(** * The state [check] returns *)
(* ===================================================================== *)

Lemma str_forallb_spec (p : ascii -> bool) (s : string) :
  str_forallb p s = true <->
  forall c, c ∈ list_ascii_of_string s -> p c = true.
Proof.
  induction s as [| a s IH]; cbn.
  - split; [| done]. intros _ c Hc. by apply elem_of_nil in Hc.
  - rewrite andb_true_iff, IH. split.
    + intros [Ha Hs] c Hc. apply elem_of_cons in Hc as [-> | Hc]; auto.
    + intros H. split; [apply H; by left |]. intros c Hc. apply H. by right.
Qed.

(** [has_invalid_build_string] rejects exactly the build strings that are
    empty or have a character that is not allowed. *)
Lemma valid_build_string_spec (meta : MetaData) :
  has_invalid_build_string meta = false <->
  valid_build_string (meta_build_id meta).
Proof.
  unfold has_invalid_build_string, valid_build_string, str_truthy.
  rewrite negb_false_iff, andb_true_iff, negb_true_iff, str_forallb_spec.
  assert (Hempty : str_is_empty (meta_build_id meta) = false <->
                   meta_build_id meta <> "").
  { by destruct (meta_build_id meta). }
  rewrite Hempty. split; intros [H1 H2]; (split; [done |]); intros c Hc.
  - apply allowed_build_string_character_spec. by apply H2.
  - apply allowed_build_string_character_spec. by apply H2.
Qed.

Lemma existsb_invalid (metas : list MetaData) :
  existsb has_invalid_build_string metas = false <->
  Forall (fun meta => valid_build_string (meta_build_id meta)) metas.
Proof.
  induction metas as [| m metas IH]; cbn.
  - split; [by constructor | done].
  - rewrite orb_false_iff, Forall_cons, IH, valid_build_string_spec. tauto.
Qed.

Section CheckFacts.

Context (W : World) (keys : gset string).

(** A variant stops the classification exactly when its requirements are
    read and one of them is blank, and then with [IndexError]. *)
Lemma variant_flag_raise_iff meta e :
  variant_flag W keys meta = Raise e <->
  e = IndexError /\ reads_requirements W keys meta /\
  has_blank_requirement meta.
Proof.
  unfold variant_flag, reads_requirements.
  destruct (meta_skip meta || skip_for_variants W meta keys) eqn:Hskip.
  { split; [done |]. intros (_ & (Hns & _) & _).
    exfalso. by apply Hns, skipped_spec. }
  assert (Hns : ~ variant_skipped W keys meta).
  { rewrite <- skipped_spec. by rewrite Hskip. }
  destruct (have_noarch_python_build_number W meta) eqn:Hna.
  { split; [done |]. intros (_ & (_ & Hnn & _) & _).
    exfalso. by apply Hnn, noarch_spec. }
  assert (Hnn : ~ noarch_exists W meta).
  { rewrite <- noarch_spec. by rewrite Hna. }
  unfold have_variant.
  destruct (get_package_data W _ _ (Some _) None linux_noarch)
    as [| p l] eqn:Hexact.
  - assert (Hnone : forall p, same_package W linux_noarch meta p ->
              pkg_build p <> meta_build_id meta).
    { intros p (Hp & Hn & Hv & Hpl) Hb.
      assert (Hin : p ∈ get_package_data W (meta_name meta)
                      (meta_version meta) (Some (meta_build_id meta))
                      None linux_noarch).
      { apply elem_of_get_package_data. repeat split; try done.
        by intros b' [= <-]. }
      rewrite Hexact in Hin. by apply elem_of_nil in Hin. }
    destruct (build_deps_of meta) as [deps | e'] eqn:Hdeps; cbn.
    + split.
      * destruct (existsb _ _); [done |].
        by destruct (will_build_variant W meta).
      * intros (_ & _ & Hblank).
        assert (build_deps_of meta = Raise IndexError)
          by (by apply build_deps_raises).
        congruence.
    + apply build_deps_raises in Hdeps as [-> Hblank]. split.
      * by intros [= <-].
      * by intros [-> _].
  - cbn. split; [done |]. intros (_ & (_ & _ & Hnone) & _). exfalso.
    assert (Hin : p ∈ get_package_data W (meta_name meta)
                    (meta_version meta) (Some (meta_build_id meta))
                    None linux_noarch).
    { rewrite Hexact. by left. }
    apply elem_of_get_package_data in Hin as (Hp & Hn & Hv & Hb & _ & Hpl).
    apply (Hnone p); [done | by apply Hb].
Qed.


End CheckFacts.





(* ===================================================================== *)
(** * Errors of the build order and of the classifier *)
(* ===================================================================== *)

(** X13.  A shard with a dependency cycle has no build order: when every
    package name of the shard has an entry in [name2recipes], computing
    the order raises [NetworkXUnfeasible], and [build_recipes] ends with
    that error without a call to a collaborator.  [NetworkXUnfeasible] is
    raised for no other shard. *)
Theorem recipes_in_order_errors (W : World) (opts : Options)
    (recipe_targets : gmap string (list Target)) (dag subdag : DiGraph)
    (name2recipes : dict string (list string)) (n i : Z) (tr : trace) :
  well_formed subdag ->
  (recipes_in_order subdag name2recipes = Raise NetworkXUnfeasible ->
   ~ acyclic subdag) /\
  (~ acyclic subdag ->
   (forall x, x ∈ nodes subdag -> is_Some (dict_lookup name2recipes x)) ->
   recipes_in_order subdag name2recipes = Raise NetworkXUnfeasible /\
   (nodes dag <> [] ->
    select_subdag (opt_testonly opts) dag n i = Ok (Some subdag) ->
    build_recipes W opts recipe_targets dag name2recipes n i tr
      = (tr, Raise NetworkXUnfeasible))).
Proof.
  intros Hwf. split.
  - unfold recipes_in_order.
    destruct (topological_sort subdag) as [packages |] eqn:Hsort; cbn.
    + destruct (rmapM (dict_get name2recipes) packages) as [ls |] eqn:Hm;
        [done |].
      cbn. intros [= ->]. apply rmapM_raises in Hm as (x & _ & Hget).
      unfold dict_get in Hget. by destruct (dict_lookup name2recipes x).
    + intros _ Hacy.
      destruct (topological_sort_spec subdag Hwf Hacy) as (l & Hl & _).
      congruence.
  - intros Hcyc _.
    assert (Hrec : recipes_in_order subdag name2recipes
                   = Raise NetworkXUnfeasible).
    { unfold recipes_in_order.
      destruct (topological_sort subdag) as [packages |] eqn:Hsort.
      - exfalso. apply Hcyc. apply acyclicb_spec; [done |].
        unfold acyclicb. by rewrite Hsort.
      - cbn. f_equal. by eapply topo_loop_raises. }
    split; [done |].
    intros Hnodes Hsel. unfold build_recipes, Nx.truthy.
    destruct (nodes dag); [done |]. cbn [negb].
    unfold bind, lift. by rewrite Hsel, Hrec.
Qed.

Lemma recipes_in_order_errors_witness :
  let cyclic := {| nodes := ["a"; "b"]; edges := [("a", "b"); ("b", "a")] |} in
  let W := example_world (Ok true) (Ok true) (Ok None) [] in
  well_formed cyclic /\ ~ acyclic cyclic /\
  (forall x, x ∈ nodes cyclic -> is_Some (dict_lookup example_name2recipes x)) /\
  build_recipes W (example_opts false None) ∅ cyclic example_name2recipes
    1 0 [] = ([], Raise NetworkXUnfeasible).
Proof.
  intros cyclic W.
  assert (Hwf : well_formed cyclic) by (apply well_formedb_spec; reflexivity).
  assert (Hall : forall x, x ∈ nodes cyclic ->
                   is_Some (dict_lookup example_name2recipes x)).
  { intros x Hx. cbn in Hx.
    apply elem_of_cons in Hx as [-> | Hx]; [by eexists |].
    apply list_elem_of_singleton in Hx as ->. by eexists. }
  destruct (recipes_in_order_errors W (example_opts false None) ∅ cyclic
              cyclic example_name2recipes 1 0 [] Hwf) as [Honly Hcyc].
  assert (Hno : ~ acyclic cyclic) by (apply Honly; reflexivity).
  split; [exact Hwf |]. split; [exact Hno |]. split; [exact Hall |].
  apply (proj2 (Hcyc Hno Hall)); [discriminate | reflexivity].
Defined.

(** X16.  The errors that come out of [check], the index, the accessors
    of the rendered variants and [trim_build_only_deps] being values that
    are there to be read: an error of the renderer that does not derive
    from [Exception]; [IndexError], when the build strings are valid and a
    variant whose requirements are read has a blank entry among its build
    and host requirements; and an error of [conda_release], which is
    called only without [keep_metas]. *)
Theorem check_raises (W : World) (recipe : string) (keep_metas : bool)
    (skip_variant_keys : gset string) (tr tr' : trace) (e : exn) :
  check W recipe keep_metas skip_variant_keys tr = (tr', Raise e) ->
  let tr1 := tr ++ [EvCondaRender recipe (conda_render W tr recipe)] in
  (conda_render W tr recipe = Raise e /\ is_Exception e = false) \/
  (e = IndexError /\
   exists metas meta,
     conda_render W tr recipe = Ok (Some metas) /\
     Forall (fun meta => valid_build_string (meta_build_id meta)) metas /\
     meta ∈ metas /\
     reads_requirements W skip_variant_keys meta /\
     has_blank_requirement meta) \/
  (keep_metas = false /\ conda_release W tr1 recipe = Raise e).
Proof.
  intros H tr1. apply check_inv in H. cbv zeta in H. fold tr1 in H.
  destruct H as [[_ H] | (metas & st & released & _ & _ & _ & -> & -> & _ & H)].
  - destruct H as [(e' & Hr & H) | [(_ & H) | [(metas & _ & _ & H)
                  | [(metas & e' & Hr & Hvalid & Hfl & H)
                    | (metas & st & _ & _ & _ & _ & H)]]]]; try done.
    + destruct (is_Exception e') eqn:He; [done |]. injection H as <-.
      by left.
    + injection H as <-. right. left.
      pose proof (variant_flags_spec W skip_variant_keys metas 0) as Hspec.
      rewrite Hfl in Hspec. destruct Hspec as (meta & Hm & Hraise).
      apply variant_flag_raise_iff in Hraise as (-> & Hreads & Hblank).
      split; [done |]. exists metas, meta.
      split; [done |]. split; [by apply existsb_invalid | done].
  - right. right. split; [done |].
    destruct (conda_release W tr1 recipe); [done | by injection H as ->].
Qed.

Lemma blank_by_computation (dep : string) :
  dep_name dep = Raise IndexError -> blank dep.
Proof. intros H. by apply dep_name_raises in H as [_ H]. Qed.

Lemma check_raises_witness :
  let nbsp := bytes [194; 160]%nat in
  let W := example_world (Ok true) (Ok true)
             (Ok (Some [example_meta [nbsp] []])) [] in
  blank nbsp /\
  check W "recipes/samtools" false ∅ [] =
    ([EvCondaRender "recipes/samtools" (Ok (Some [example_meta [nbsp] []]))],
     Raise IndexError) /\
  exists metas meta,
    conda_render W [] "recipes/samtools" = Ok (Some metas) /\
    Forall (fun meta => valid_build_string (meta_build_id meta)) metas /\
    meta ∈ metas /\
    reads_requirements W ∅ meta /\
    has_blank_requirement meta.
Proof.
  intros nbsp W.
  assert (H : check W "recipes/samtools" false ∅ [] =
    ([EvCondaRender "recipes/samtools" (Ok (Some [example_meta [nbsp] []]))],
     Raise IndexError)) by reflexivity.
  split; [by apply blank_by_computation |].
  split; [exact H |].
  destruct (check_raises W "recipes/samtools" false ∅ [] _ _ H)
    as [[H1 _] | [[_ H1] | [_ H1]]];
    [discriminate H1 | exact H1 | discriminate H1].
Defined.

(** X18.  [have_variant] answers [True] as soon as the index has a package
    with the name, version and build string of the variant, without reading
    the requirements.  Otherwise it reads them, and, the index and the
    requirements being there to be read, it raises exactly when one of the
    build and host requirements has no word in it (it is empty, or all its
    characters are whitespace as [str.split] sees it, the no-break space
    included), and then [IndexError]. *)
Theorem have_variant_errors (W : World) (meta : MetaData) :
  let exact :=
    get_package_data W (meta_name meta) (meta_version meta)
      (Some (meta_build_id meta)) None linux_noarch in
  (exact <> [] -> have_variant W meta = Ok true) /\
  (forall e, have_variant W meta = Raise e <->
     e = IndexError /\ exact = [] /\ has_blank_requirement meta).
Proof.
  intros exact. unfold have_variant. fold exact.
  destruct exact as [| p l] eqn:Hexact.
  - split; [done |]. intros e.
    destruct (build_deps_of meta) as [deps |] eqn:Hdeps; cbn.
    + split; [done |]. intros (-> & _ & Hblank).
      assert (build_deps_of meta = Raise IndexError)
        by (by apply build_deps_raises).
      congruence.
    + split.
      * intros [= <-]. apply build_deps_raises in Hdeps as [-> Hblank].
        done.
      * intros (-> & _ & Hblank).
        apply build_deps_raises in Hdeps as [-> _]. done.
  - split; [done |]. intros e. split; [done | by intros (_ & ? & _)].
Qed.

Lemma have_variant_errors_witness :
  let nbsp := bytes [194; 160]%nat in
  let W := example_world (Ok true) (Ok true) (Ok (Some [])) example_index in
  have_variant W (example_meta ["python"; nbsp] []) = Raise IndexError /\
  have_variant W
    {| meta_name := "samtools"; meta_version := "1.9";
       meta_build_number := 0; meta_build_id := "py38_abc123";
       meta_skip := false; meta_noarch := None;
       meta_requirements_build := ["python"; nbsp];
       meta_requirements_host := []; meta_used_vars := [] |} = Ok true.
Proof.
  intros nbsp W. split.
  - apply (proj2 (have_variant_errors W (example_meta ["python"; nbsp] []))).
    split; [done |]. split; [reflexivity |].
    exists nbsp. split; [| by apply blank_by_computation].
    apply list_elem_of_further, list_elem_of_here.
  - apply (proj1 (have_variant_errors W _)). vm_compute. discriminate.
Defined.
